(** * github-data-collector: collectors, summary aggregator, renderer, sweeper

    A shallow embedding of the Python pipeline.  Python integers are [Z],
    strings that are only compared are [string], the names the sweeper
    takes apart are sequences of code points, JSON [null] is [None], a
    JSON array is a [list], a Python dict whose insertion order is
    observable is an association list, an exception is the left injection
    of [result].

    The pandas calls are embedded by what pandas documents for them:
    [value_counts] drops nulls and orders by falling count, [nlargest]
    keeps the first occurrences on ties, [groupby] orders its groups by
    key, and the sum of an integer column is an [int64] sum, which wraps
    around.  The float valued entries of the report (means and medians,
    the [round(_, 2)] of them) are kept out of the record, apart from the
    quotient [average_contributors_per_repo], which is kept exact. *)

From Stdlib Require Import ZArith List String Ascii Bool Lia Permutation Sorted QArith.
From Stdlib Require OrderedTypeEx.
Import ListNotations.
Local Open Scope string_scope.
Local Open Scope list_scope.
Local Open Scope Z_scope.

Set Implicit Arguments.

(* ===================================================================== *)
(** ** Exceptions *)

Inductive exn : Type :=
| KeyError (key : string)
| FileNotFoundError (path : string)
| ZeroDivisionError
| ValueError
| TypeError
| GithubException (status : Z)
| TemplateAssertionError (msg : string).

Definition result (A : Type) : Type := (exn + A)%type.

Definition ok {A} (a : A) : result A := inr a.
Definition raise {A} (e : exn) : result A := inl e.

Definition bind {A B} (c : result A) (k : A -> result B) : result B :=
  match c with
  | inl e => inl e
  | inr a => k a
  end.

Notation "x <- c ;; k" := (bind c (fun x => k))
  (at level 61, c at next level, right associativity).

(** [try: body  except Exception: handler] *)
Definition try_except {A} (body : result A) (handler : exn -> A) : A :=
  match body with
  | inl e => handler e
  | inr a => a
  end.

(* ===================================================================== *)
(** ** Python and pandas list primitives *)

Definition zlen {A} (l : list A) : Z := Z.of_nat (List.length l).

(** [l[:n]]: a negative bound counts from the end. *)
Definition py_slice_to {A} (n : Z) (l : list A) : list A :=
  if 0 <=? n then firstn (Z.to_nat n) l
  else firstn (Z.to_nat (zlen l + n)) l.

Definition zsum (l : list Z) : Z := fold_right Z.add 0 l.

(** The values an [int64] column holds.  A column of integers within
    this range is an [int64] column; the embedding takes the counters of
    a snapshot to be within it. *)
Definition int64 (z : Z) : Prop := - 2 ^ 63 <= z < 2 ^ 63.

(** Arithmetic on an [int64] column wraps around: [wrap64 z] is the
    [int64] that holds [z] modulo [2^64]. *)
Definition wrap64 (z : Z) : Z := (z + 2 ^ 63) mod 2 ^ 64 - 2 ^ 63.

(** [Series.sum()] and the [sum] of [agg] on an [int64] column: the
    additions wrap around, in whatever order they are made. *)
Definition int64_sum (col : list Z) : Z := wrap64 (zsum col).

(** [max] of a non-empty column, written for a head and a tail. *)
Definition zmax_list (x : Z) (l : list Z) : Z := fold_left Z.max l x.

(** Stable sorting.  [ahead y x = true] says that [y] stays strictly in
    front of [x]; an element inserted from the left therefore lands in
    front of every element it ties with, which is the order a stable sort
    (Python's [sorted], also with [reverse=True]) gives. *)
Section StableSort.
Variable A : Type.
Variable ahead : A -> A -> bool.

Fixpoint insert (x : A) (l : list A) : list A :=
    match l with
    | [] => [x]
    | y :: l' => if ahead y x then y :: insert x l' else x :: l
    end.

Definition stable_sort (l : list A) : list A := fold_right insert [] l.
End StableSort.

(** [sorted(l, key=key, reverse=True)] *)
Definition sorted_desc {A} (key : A -> Z) (l : list A) : list A :=
  stable_sort (fun y x => key x <? key y) l.

(** [sorted(l)] on strings *)
Definition sorted_strings (l : list string) : list string :=
  stable_sort (fun y x => String.ltb y x) l.

(** [DataFrame.nlargest(n, column)] with the default [keep='first']. *)
Definition nlargest {A} (n : nat) (key : A -> Z) (l : list A) : list A :=
  firstn n (sorted_desc key l).

(** [Series.dropna()] *)
Definition dropna {A} (l : list (option A)) : list A :=
  flat_map (fun o => match o with Some a => [a] | None => [] end) l.

(** [Series.unique()]: the distinct values in order of appearance. *)
Fixpoint unique (l : list string) : list string :=
  match l with
  | [] => []
  | x :: l' => x :: filter (fun y => negb (String.eqb y x)) (unique l')
  end.

Definition count_eq (k : string) (l : list string) : Z :=
  zlen (filter (String.eqb k) l).

(** [Series.value_counts()]: nulls dropped, one row per distinct value,
    rows by falling count. *)
Definition value_counts (col : list (option string)) : list (string * Z) :=
  let present := dropna col in
  sorted_desc snd (map (fun k => (k, count_eq k present)) (unique present)).

(** [Series.nunique()] *)
Definition nunique (col : list (option string)) : Z := zlen (unique (dropna col)).

(** [Series.notna().sum()] and [Series.isna().sum()] *)
Definition notna_sum {A} (col : list (option A)) : Z :=
  zlen (filter (fun o => match o with Some _ => true | None => false end) col).
Definition isna_sum {A} (col : list (option A)) : Z :=
  zlen (filter (fun o => match o with Some _ => false | None => true end) col).

Definition bool_sum (col : list bool) : Z := zlen (filter (fun b => b) col).

(* ===================================================================== *)
(** ** Data model *)

Record RepositoryRecord : Type := {
  organization : string;
  name : string;
  full_name : string;
  stars : Z;
  forks : Z;
  watchers : Z;
  open_issues : Z;
  language : option string;
  size : Z;
  updated_at : option string;
  archived : bool;
  has_wiki : bool;
  has_pages : bool;
  has_issues : bool;
  license : option string;
  topics : list string;
  collection_date : string
}.

Record ContributorRecord : Type := {
  login : string;
  contributions : Z;
  avatar_url : string;
  html_url : string;
  ctype : string
}.

Record RepositoryContribution : Type := {
  repo_full_name : string;
  total_contributors : Z;
  contributors : list ContributorRecord;
  contrib_organization : string;
  repo_stars : Z;
  contrib_collection_date : string
}.

(** One row of [organization_breakdown]. *)
Record OrgStats : Type := {
  name_count : Z;
  stars_sum : Z;
  stars_max : Z;
  forks_sum : Z;
  forks_max : Z;
  open_issues_sum : Z
}.

(** The five columns kept in the ranking lists. *)
Record RankingRow : Type := {
  rk_full_name : string;
  rk_stars : Z;
  rk_forks : Z;
  rk_language : option string;
  rk_organization : string
}.

(** The value stored per login in [contributor_activity]. *)
Record Activity : Type := {
  total_contributions : Z;
  repos_contributed : Z;
  act_avatar_url : string;
  act_html_url : string
}.

Record TopContributor : Type := {
  tc_login : string;
  tc_total_contributions : Z;
  tc_repos_contributed : Z;
  tc_avatar_url : string;
  tc_html_url : string
}.

Record ContributionAnalysis : Type := {
  repositories_analyzed : Z;
  ca_total_contributors : Z;
  average_contributors_per_repo : Q;
  top_contributors : list TopContributor
}.

Record SummaryReport : Type := {
  generation_timestamp : string;
  total_repositories : Z;
  total_organizations : Z;
  organizations : list string;
  total_stars : Z;
  total_forks : Z;
  total_open_issues : Z;
  organization_breakdown : list (string * OrgStats);
  top_languages : list (string * Z);
  total_languages : Z;
  repositories_with_language : Z;
  top_starred_repositories : list RankingRow;
  top_forked_repositories : list RankingRow;
  license_distribution : list (string * Z);
  repositories_with_license : Z;
  repositories_without_license : Z;
  total_size_kb : Z;
  largest_repo : string;
  recently_updated : Z;
  with_issues_enabled : Z;
  with_wiki_enabled : Z;
  with_pages_enabled : Z;
  archived_repositories : Z;
  contribution_analysis : option ContributionAnalysis
}.

(* ===================================================================== *)
(** ** Summary aggregator: [src/generate_summary.py] *)

(** Snapshot files hold JSON arrays; the embedding reads them decoded.
    [None] is a path at which no file exists. *)
Record FileSystem : Type := {
  repo_snapshots : string -> option (list RepositoryRecord);
  contrib_snapshots : string -> option (list RepositoryContribution)
}.

(** [repo_df.groupby('organization')]: one group per organization, groups
    by rising key, rows of a group in input order. *)
Definition groupby_organization (repos : list RepositoryRecord)
  : list (string * list RepositoryRecord) :=
  map (fun o => (o, filter (fun r => String.eqb (organization r) o) repos))
      (sorted_strings (unique (map organization repos))).

(** [.agg({'name': 'count', 'stars': ['sum', 'mean', 'max'], ...})] on one
    group; [max] of an empty column does not arise, a group has a row. *)
Definition agg_group (g : list RepositoryRecord) : OrgStats :=
  {| name_count := zlen g;
     stars_sum := int64_sum (map stars g);
     stars_max := match map stars g with [] => 0 | x :: l => zmax_list x l end;
     forks_sum := int64_sum (map forks g);
     forks_max := match map forks g with [] => 0 | x :: l => zmax_list x l end;
     open_issues_sum := int64_sum (map open_issues g) |}.

Definition org_stats (repos : list RepositoryRecord) : list (string * OrgStats) :=
  map (fun kg => (fst kg, agg_group (snd kg))) (groupby_organization repos).

(** [value_counts().head(n).to_dict()] *)
Definition language_counts (repos : list RepositoryRecord) : list (string * Z) :=
  firstn 15 (value_counts (map language repos)).

Definition license_counts (repos : list RepositoryRecord) : list (string * Z) :=
  firstn 10 (value_counts (map license repos)).

Definition ranking_row (r : RepositoryRecord) : RankingRow :=
  {| rk_full_name := full_name r;
     rk_stars := stars r;
     rk_forks := forks r;
     rk_language := language r;
     rk_organization := organization r |}.

Definition top_starred (repos : list RepositoryRecord) : list RankingRow :=
  map ranking_row (nlargest 25 stars repos).

Definition top_forked (repos : list RepositoryRecord) : list RankingRow :=
  map ranking_row (nlargest 25 forks repos).

(** [repo_df.loc[repo_df['size'].idxmax()]]: the first row of largest size. *)
Definition idxmax_size (r0 : RepositoryRecord) (rest : list RepositoryRecord)
  : RepositoryRecord :=
  fold_left (fun best r => if size best <? size r then r else best) rest r0.

(** The dict [contributor_activity]: keys in order of first insertion. *)
Definition dict_mem {V} (k : string) (d : list (string * V)) : bool :=
  existsb (fun kv => String.eqb (fst kv) k) d.

Fixpoint dict_update {V} (k : string) (f : V -> V) (d : list (string * V))
  : list (string * V) :=
  match d with
  | [] => []
  | (k', v) :: d' =>
      if String.eqb k' k then (k', f v) :: d' else (k', v) :: dict_update k f d'
  end.

Fixpoint dict_get {V} (k : string) (d : list (string * V)) : option V :=
  match d with
  | [] => None
  | (k', v) :: d' => if String.eqb k' k then Some v else dict_get k d'
  end.

(** Body of the inner loop over [repo['contributors']]. *)
Definition record_contributor (activity : list (string * Activity))
    (contributor : ContributorRecord) : list (string * Activity) :=
  let activity :=
    if dict_mem (login contributor) activity then activity
    else activity ++ [(login contributor,
                       {| total_contributions := 0;
                          repos_contributed := 0;
                          act_avatar_url := avatar_url contributor;
                          act_html_url := html_url contributor |})] in
  dict_update (login contributor)
    (fun a => {| total_contributions := total_contributions a + contributions contributor;
                 repos_contributed := repos_contributed a + 1;
                 act_avatar_url := act_avatar_url a;
                 act_html_url := act_html_url a |})
    activity.

Definition contributor_activity (contrib_data : list RepositoryContribution)
  : list (string * Activity) :=
  fold_left (fun activity repo => fold_left record_contributor (contributors repo) activity)
            contrib_data [].

(** [sorted(contributor_activity.items(), key=..., reverse=True)[:25]],
    then the list comprehension building the rows. *)
Definition contributor_row (kv : string * Activity) : TopContributor :=
  {| tc_login := fst kv;
     tc_total_contributions := total_contributions (snd kv);
     tc_repos_contributed := repos_contributed (snd kv);
     tc_avatar_url := act_avatar_url (snd kv);
     tc_html_url := act_html_url (snd kv) |}.

Definition top_contributors_of (contrib_data : list RepositoryContribution)
  : list TopContributor :=
  map contributor_row
      (firstn 25 (sorted_desc (fun kv => total_contributions (snd kv))
                              (contributor_activity contrib_data))).

(** [a / b] on integers; the float it yields is kept as the exact quotient. *)
Definition py_truediv (a b : Z) : result Q :=
  if b =? 0 then raise ZeroDivisionError
  else ok (Qmake (a * Z.sgn b) (Z.to_pos (Z.abs b))).

(** The block under [if contrib_data:]. *)
Definition contribution_section (contrib_data : list RepositoryContribution)
  : result ContributionAnalysis :=
  let total := zsum (map total_contributors contrib_data) in
  average <- py_truediv total (zlen contrib_data) ;;
  ok {| repositories_analyzed := zlen contrib_data;
        ca_total_contributors := total;
        average_contributors_per_repo := average;
        top_contributors := top_contributors_of contrib_data |}.

(** [if contrib_file and Path(contrib_file).exists(): ... if contrib_data:] *)
Definition load_contribution_analysis (fs : FileSystem) (contrib_file : option string)
  : result (option ContributionAnalysis) :=
  match contrib_file with
  | None => ok None
  | Some path =>
      if String.eqb path "" then ok None
      else match contrib_snapshots fs path with
           | None => ok None
           | Some [] => ok None
           | Some contrib_data =>
               section <- contribution_section contrib_data ;;
               ok (Some section)
           end
  end.

(** [generate_summary_report(repo_file, contrib_file)]; [now] stands for
    [datetime.now().isoformat()].  An empty snapshot gives a frame without
    columns, and the first column access raises. *)
Definition generate_summary_report (fs : FileSystem) (now : string)
    (repo_file : string) (contrib_file : option string) : result SummaryReport :=
  match repo_snapshots fs repo_file with
  | None => raise (FileNotFoundError repo_file)
  | Some [] => raise (KeyError "organization")
  | Some ((r0 :: rest) as repos_data) =>
      analysis <- load_contribution_analysis fs contrib_file ;;
      ok {| generation_timestamp := now;
            total_repositories := zlen repos_data;
            total_organizations := nunique (map (fun r => Some (organization r)) repos_data);
            organizations := sorted_strings (unique (map organization repos_data));
            total_stars := int64_sum (map stars repos_data);
            total_forks := int64_sum (map forks repos_data);
            total_open_issues := int64_sum (map open_issues repos_data);
            organization_breakdown := org_stats repos_data;
            top_languages := language_counts repos_data;
            total_languages := nunique (map language repos_data);
            repositories_with_language := notna_sum (map language repos_data);
            top_starred_repositories := top_starred repos_data;
            top_forked_repositories := top_forked repos_data;
            license_distribution := license_counts repos_data;
            repositories_with_license := notna_sum (map license repos_data);
            repositories_without_license := isna_sum (map license repos_data);
            total_size_kb := int64_sum (map size repos_data);
            largest_repo := full_name (idxmax_size r0 rest);
            recently_updated := notna_sum (map updated_at repos_data);
            with_issues_enabled := bool_sum (map has_issues repos_data);
            with_wiki_enabled := bool_sum (map has_wiki repos_data);
            with_pages_enabled := bool_sum (map has_pages repos_data);
            archived_repositories := bool_sum (map archived repos_data);
            contribution_analysis := analysis |}
  end.

(* ===================================================================== *)
(** ** The hosting API, as the collectors see it *)

(** A [github.Repository.Repository] as returned by the client. *)
Record ApiRepository : Type := {
  api_name : string;
  api_full_name : string;
  stargazers_count : Z;
  forks_count : Z;
  watchers_count : Z;
  open_issues_count : Z;
  api_language : option string;
  api_size : Z;
  api_updated_at : option string;
  api_archived : bool;
  api_has_wiki : bool;
  api_has_pages : bool;
  api_has_issues : bool;
  api_license : option string
}.

(** A [datetime.datetime] of the client, named by its POSIX time; it is
    an object, not a number. *)
Inductive datetime : Type := Timestamp (posix : Z).

(** [rate_limit.core]; [reset] is the [datetime] at which the quota is
    filled again. *)
Record RateLimit : Type := {
  remaining : Z;
  limit : Z;
  reset : datetime
}.

(** Answers of the client.  Every call can raise.  The quota query is
    indexed by the place in a run at which it is made. *)
Record GitHubApi : Type := {
  get_organization : string -> result unit;
  get_repos : string -> result (list ApiRepository);
  get_topics : string -> result (list string);
  get_repo : string -> result unit;
  get_contributors : string -> result (list ContributorRecord);
  rate_limit_in_org : string -> Z -> result RateLimit;
  rate_limit_after : Z -> result RateLimit
}.

(** What a run does towards the API and the clock, in order. *)
Inductive event : Type :=
| Fetch (repo : string)
| QuotaInspected (remaining_calls : Z)
| Sleep (seconds : Z).

(** The lines the [except] branches of the two collectors print. *)
Inductive console_line : Type :=
| ErrorCollectingData (org_name : string) (e : exn)
| ErrorCollectingContributors (repo_full_name : string) (e : exn).

(** The threshold of [rate_limit_check] and [check_rate_limit]. *)
Definition quota_threshold : Z := 100.

(* ===================================================================== *)
(** ** Repository collector: [src/collect_repo_data.py] *)

(** [rate_limit_check]: queries and prints; the verdict is a boolean. *)
Definition rate_limit_check (query : result RateLimit) : result bool :=
  rate_limit <- query ;;
  ok (negb (remaining rate_limit <? quota_threshold)).

(** The dict built per repository; [collection_date] is set by [main]. *)
Definition repo_data_of (org_name : string) (repo : ApiRepository)
    (repo_topics : list string) : RepositoryRecord :=
  {| organization := org_name;
     name := api_name repo;
     full_name := api_full_name repo;
     stars := stargazers_count repo;
     forks := forks_count repo;
     watchers := watchers_count repo;
     open_issues := open_issues_count repo;
     language := api_language repo;
     size := api_size repo;
     updated_at := api_updated_at repo;
     archived := api_archived repo;
     has_wiki := api_has_wiki repo;
     has_pages := api_has_pages repo;
     has_issues := api_has_issues repo;
     license := api_license repo;
     topics := repo_topics;
     collection_date := "" |}.

(** [for i, repo in enumerate(repos, 1)] inside the [try]. *)
Fixpoint process_repos (api : GitHubApi) (org_name : string) (i : Z)
    (repos : list ApiRepository) : result (list RepositoryRecord) :=
  match repos with
  | [] => ok []
  | repo :: rest =>
      repo_topics <- get_topics api (api_full_name repo) ;;
      _ <- (if i mod 20 =? 0
            then rate_limit_check (rate_limit_in_org api org_name i)
            else ok true) ;;
      repo_data <- process_repos api org_name (i + 1) rest ;;
      ok (repo_data_of org_name repo repo_topics :: repo_data)
  end.

(** The [try] block of [collect_organization_repos]. *)
Definition organization_body (api : GitHubApi) (org_name : string) (max_repos : Z)
  : result (list RepositoryRecord) :=
  _ <- get_organization api org_name ;;
  listed <- get_repos api org_name ;;
  process_repos api org_name 1 (py_slice_to max_repos listed).

Definition collect_organization_repos (api : GitHubApi) (org_name : string)
    (max_repos : Z) : list RepositoryRecord :=
  try_except (organization_body api org_name max_repos) (fun _ => []).

(** What the [except] branch of [collect_organization_repos] prints in
    a call. *)
Definition organization_error_log (api : GitHubApi) (org_name : string)
    (max_repos : Z) : list console_line :=
  match organization_body api org_name max_repos with
  | inl e => [ErrorCollectingData org_name e]
  | inr _ => []
  end.

Definition set_collection_date (date : string) (r : RepositoryRecord) : RepositoryRecord :=
  {| organization := organization r; name := name r; full_name := full_name r;
     stars := stars r; forks := forks r; watchers := watchers r;
     open_issues := open_issues r; language := language r; size := size r;
     updated_at := updated_at r; archived := archived r; has_wiki := has_wiki r;
     has_pages := has_pages r; has_issues := has_issues r; license := license r;
     topics := topics r; collection_date := date |}.

(** The two loops of [main]: collect every organization, then stamp every
    record with the date. *)
Definition collect_all_organizations (api : GitHubApi) (orgs : list string)
    (max_repos : Z) (date : string) : list RepositoryRecord :=
  map (set_collection_date date)
      (fold_left (fun all_repo_data org =>
                    all_repo_data ++ collect_organization_repos api org max_repos)
                 orgs []).

(* ===================================================================== *)
(** ** Contributor collector: [src/collect_contribution_data.py] *)

(** The dict returned by [collect_repository_contributors]. *)
Record ContributionData : Type := {
  cd_repo_full_name : string;
  cd_total_contributors : Z;
  cd_contributors : list ContributorRecord
}.

(** The [try] block of [collect_repository_contributors]: the listing is cut
    to [max_contributors] first, the count is taken afterwards. *)
Definition contributors_body (api : GitHubApi) (repo_full_name : string)
    (max_contributors : Z) : result ContributionData :=
  _ <- get_repo api repo_full_name ;;
  listed <- get_contributors api repo_full_name ;;
  let contributors := py_slice_to max_contributors listed in
  ok {| cd_repo_full_name := repo_full_name;
        cd_total_contributors := zlen contributors;
        cd_contributors := contributors |}.

Definition collect_repository_contributors (api : GitHubApi) (repo_full_name : string)
    (max_contributors : Z) : option ContributionData :=
  try_except (info <- contributors_body api repo_full_name max_contributors ;; ok (Some info))
             (fun _ => None).

(** What the [except] branch of [collect_repository_contributors] prints
    in a call. *)
Definition contributors_error_log (api : GitHubApi) (repo_full_name : string)
    (max_contributors : Z) : list console_line :=
  match contributors_body api repo_full_name max_contributors with
  | inl e => [ErrorCollectingContributors repo_full_name e]
  | inr _ => []
  end.

(** [contrib_info.update({...})] *)
Definition with_repo_metadata (info : ContributionData) (repo : RepositoryRecord)
    (date : string) : RepositoryContribution :=
  {| repo_full_name := cd_repo_full_name info;
     total_contributors := cd_total_contributors info;
     contributors := cd_contributors info;
     contrib_organization := organization repo;
     repo_stars := stars repo;
     contrib_collection_date := date |}.

(** The block under [# Rate limit management]: the quota is queried and
    printed. *)
Definition rate_limit_management (api : GitHubApi) (i : Z) : result (list event) :=
  if i mod 10 =? 0
  then rate_limit <- rate_limit_after api i ;;
       ok [QuotaInspected (remaining rate_limit)]
  else ok [].

(** [for i, repo in enumerate(top_repos, 1)]: the records appended to
    [contribution_data] and the events of the run. *)
Fixpoint contribution_loop (api : GitHubApi) (max_contributors : Z) (date : string)
    (i : Z) (top_repos : list RepositoryRecord)
  : result (list RepositoryContribution * list event) :=
  match top_repos with
  | [] => ok ([], [])
  | repo :: rest =>
      let contrib_info :=
        collect_repository_contributors api (full_name repo) max_contributors in
      let appended :=
        match contrib_info with
        | Some info => [with_repo_metadata info repo date]
        | None => []
        end in
      inspected <- rate_limit_management api i ;;
      later <- contribution_loop api max_contributors date (i + 1) rest ;;
      ok (appended ++ fst later, Fetch (full_name repo) :: inspected ++ snd later)
  end.

(** [sorted(repos_data, key=lambda x: x.get('stars', 0), reverse=True)[:max_repos]] *)
Definition select_top_repos (repos_data : list RepositoryRecord) (max_repos : Z)
  : list RepositoryRecord :=
  py_slice_to max_repos (sorted_desc stars repos_data).

Definition collect_contributions (api : GitHubApi) (repos_data : list RepositoryRecord)
    (max_contributors max_repos : Z) (date : string)
  : result (list RepositoryContribution * list event) :=
  contribution_loop api max_contributors date 1 (select_top_repos repos_data max_repos).

(* ===================================================================== *)
(** ** The scheduler's client and task: [dags/utils/github_client.py],
       [dags/github_data_collection_dag.py] *)

(** [reset_time - time.time()]: a [datetime] minus a [float].  Neither
    [datetime.__sub__] nor [float.__rsub__] takes the other operand, so
    the subtraction raises. *)
Definition datetime_minus_float (a : datetime) (b : Z) : result Z :=
  raise TypeError.

(** [GitHubDataCollector.check_rate_limit], by the events of a call that
    returns; [now] is [time.time()].  Below the threshold the wait is
    computed before [time.sleep] is reached. *)
Definition check_rate_limit (core : RateLimit) (now : Z) : result (list event) :=
  if remaining core <? quota_threshold
  then wait_time <- datetime_minus_float (reset core) now ;;
       ok [QuotaInspected (remaining core); Sleep (Z.max 0 (wait_time + 60))]
  else ok [QuotaInspected (remaining core)].

(** [GitHubDataCollector.get_repository_contributors] *)
Definition get_repository_contributors (api : GitHubApi) (repo_full_name : string)
  : list ContributorRecord :=
  try_except (_ <- get_repo api repo_full_name ;; get_contributors api repo_full_name)
             (fun _ => []).

(** Loop body of the task [collect_contribution_data]: the count is taken
    on the whole listing, the cut to twenty comes after. *)
Definition dag_repo_contributions (api : GitHubApi) (repo : RepositoryRecord)
    (ds : string) : RepositoryContribution :=
  let contributors := get_repository_contributors api (full_name repo) in
  {| repo_full_name := full_name repo;
     total_contributors := zlen contributors;
     contributors := py_slice_to 20 contributors;
     contrib_organization := organization repo;
     repo_stars := stars repo;
     contrib_collection_date := ds |}.

(* ===================================================================== *)
(** ** Dates: [datetime] and [datetime.strptime(_, '%Y-%m-%d')] *)

(** A [datetime] at midnight. *)
Record date : Type := {
  year : Z;
  month : Z;
  day : Z
}.

Definition is_leap (y : Z) : bool :=
  (y mod 4 =? 0) && (negb (y mod 100 =? 0) || (y mod 400 =? 0)).

Definition days_before_year (y : Z) : Z :=
  let y := y - 1 in y * 365 + y / 4 - y / 100 + y / 400.

Definition days_in_month (y m : Z) : Z :=
  if (m =? 2) && is_leap y then 29
  else nth (Z.to_nat m) [-1; 31; 28; 31; 30; 31; 30; 31; 31; 30; 31; 30; 31] (-1).

Definition days_before_month (y m : Z) : Z :=
  nth (Z.to_nat m) [-1; 0; 31; 59; 90; 120; 151; 181; 212; 243; 273; 304; 334] (-1)
  + (if (2 <? m) && is_leap y then 1 else 0).

(** [_ymd2ord] *)
Definition toordinal (d : date) : Z :=
  days_before_year (year d) + days_before_month (year d) (month d) + day d.

(** [_check_date_fields] *)
Definition check_date_fields (y m d : Z) : bool :=
  (1 <=? y) && (y <=? 9999) && (1 <=? m) && (m <=? 12)
  && (1 <=? d) && (d <=? days_in_month y m).

(** [(a - b).days] for two midnights. *)
Definition days_between (a b : date) : Z := toordinal a - toordinal b.

(** A [str] that the code takes apart, as the sequence of its code
    points. *)
Definition pystr : Type := list Z.

(** [ord(c)] *)
Definition ord (c : ascii) : Z := Z.of_nat (nat_of_ascii c).

(** The [str] of an ASCII literal. *)
Definition codepoints (s : string) : pystr := map ord (list_ascii_of_string s).

Fixpoint pystr_eqb (a b : pystr) : bool :=
  match a, b with
  | [], [] => true
  | x :: a', y :: b' => (x =? y) && pystr_eqb a' b'
  | _, _ => false
  end.

(** [s.startswith(p)] *)
Fixpoint startswith (p s : pystr) : bool :=
  match p, s with
  | [], _ => true
  | x :: p', y :: s' => (x =? y) && startswith p' s'
  | _ :: _, [] => false
  end.

(** The decimal digits of Unicode (category [Nd]) come in runs of ten,
    zero to nine; these are the code points of the zeros (Unicode 14, the
    database of Python 3.11). *)
Definition decimal_zeros : list Z :=
  [48; 1632; 1776; 1984; 2406; 2534; 2662; 2790; 2918; 3046; 3174; 3302;
   3430; 3558; 3664; 3792; 3872; 4160; 4240; 6112; 6160; 6470; 6608; 6784;
   6800; 6992; 7088; 7232; 7248; 42528; 43216; 43264; 43472; 43504; 43600;
   44016; 65296; 66720; 68912; 69734; 69872; 69942; 70096; 70384; 70736;
   70864; 71248; 71360; 71472; 71904; 72016; 72784; 73040; 73120; 92768;
   92864; 93008; 120782; 120792; 120802; 120812; 120822; 123200; 123632;
   125264; 130032].

Definition zero_of (c : Z) : option Z :=
  find (fun z => (z <=? c) && (c <=? z + 9)) decimal_zeros.

(** [\d] in a [str] pattern: every decimal digit of Unicode. *)
Definition is_digit (c : Z) : bool :=
  match zero_of c with Some _ => true | None => false end.

(** [[lo-hi]] *)
Definition in_range (lo hi : Z) (c : Z) : bool := (lo <=? c) && (c <=? hi).

(** The value [int] gives to a digit. *)
Definition digit_val (c : Z) : Z :=
  match zero_of c with Some z => c - z | None => 0 end.

(** The regular expression that [_strptime] builds for ['%Y-%m-%d'], each
    group as the list of its matches in the order a backtracking matcher
    tries them. *)
Definition matcher (A : Type) : Type := pystr -> list (A * pystr).

Definition one_char (p : Z -> bool) : matcher Z :=
  fun s => match s with
           | c :: rest => if p c then [(digit_val c, rest)] else []
           | [] => []
           end.

Definition two_chars (p1 p2 : Z -> bool) : matcher Z :=
  fun s => match s with
           | c1 :: c2 :: rest =>
               if p1 c1 && p2 c2 then [(10 * digit_val c1 + digit_val c2, rest)] else []
           | _ => []
           end.

(** [' [1-9]']: [int] skips the blank. *)
Definition blank_then (p : Z -> bool) : matcher Z :=
  fun s => match s with
           | c1 :: c2 :: rest =>
               if (c1 =? 32) && p c2 then [(digit_val c2, rest)] else []
           | _ => []
           end.

Definition alt {A} (m1 m2 : matcher A) : matcher A := fun s => m1 s ++ m2 s.

Definition literal (c : Z) : matcher unit :=
  fun s => match s with
           | x :: rest => if x =? c then [(tt, rest)] else []
           | [] => []
           end.

Definition seq_m {A B} (m : matcher A) (k : A -> matcher B) : matcher B :=
  fun s => flat_map (fun ar => k (fst ar) (snd ar)) (m s).

(** [(?P<Y>\d\d\d\d)] *)
Definition re_Y : matcher Z :=
  fun s => match s with
           | a :: b :: c :: d :: rest =>
               if is_digit a && is_digit b && is_digit c && is_digit d
               then [(1000 * digit_val a + 100 * digit_val b
                      + 10 * digit_val c + digit_val d, rest)]
               else []
           | _ => []
           end.

(** [(?P<m>1[0-2]|0[1-9]|[1-9])] *)
Definition re_m : matcher Z :=
  alt (two_chars (in_range 49 49) (in_range 48 50))
 (alt (two_chars (in_range 48 48) (in_range 49 57))
      (one_char (in_range 49 57))).

(** [(?P<d>3[0-1]|[1-2]\d|0[1-9]|[1-9]| [1-9])] *)
Definition re_d : matcher Z :=
  alt (two_chars (in_range 51 51) (in_range 48 49))
 (alt (two_chars (in_range 49 50) is_digit)
 (alt (two_chars (in_range 48 48) (in_range 49 57))
 (alt (one_char (in_range 49 57))
      (blank_then (in_range 49 57))))).

Definition re_ymd : matcher (Z * Z * Z) :=
  seq_m re_Y (fun y =>
  seq_m (literal (ord "-")) (fun _ =>
  seq_m re_m (fun m =>
  seq_m (literal (ord "-")) (fun _ =>
  seq_m re_d (fun d rest => [((y, m, d), rest)]))))).

(** [datetime.strptime(data_string, '%Y-%m-%d')]: the first match of the
    expression, nothing left over, and fields that make a date. *)
Definition strptime_ymd (data_string : pystr) : result date :=
  match re_ymd data_string with
  | [] => raise ValueError
  | ((y, m, d), rest) :: _ =>
      match rest with
      | _ :: _ => raise ValueError
      | [] => if check_date_fields y m d
              then ok {| year := y; month := m; day := d |}
              else raise ValueError
      end
  end.

(* ===================================================================== *)
(** ** Retention sweeper: [cleanup_old_files] *)

(** [s.split(sep)] for a separator of one character. *)
Fixpoint split_on (sep : Z) (s : pystr) : list pystr :=
  match s with
  | [] => [[]]
  | c :: s' =>
      if c =? sep then [] :: split_on sep s'
      else match split_on sep s' with
           | h :: t => (c :: h) :: t
           | [] => [[c]]
           end
  end.

(** [s.replace(old, '')], scanning from the left; [skip] counts the
    characters of a found occurrence still to drop. *)
Fixpoint remove_all (old : pystr) (skip : nat) (s : pystr) : pystr :=
  match s with
  | [] => []
  | c :: s' =>
      match skip with
      | S k => remove_all old k s'
      | O => if startswith old s then remove_all old (List.length old - 1) s'
             else c :: remove_all old O s'
      end
  end.

(** [file_path.name.split('_')[-1].replace('.json', '')] *)
Definition date_token (file_name : pystr) : pystr :=
  remove_all (codepoints ".json") 0 (last (split_on (ord "_") file_name) []).

(** [glob.glob(str(output_dir / "*.json"))] on the names of the directory:
    the name ends in [.json] and does not start with a dot. *)
Definition fnmatch_json (file_name : pystr) : bool :=
  (5 <=? List.length file_name)%nat
  && pystr_eqb (skipn (List.length file_name - 5) file_name) (codepoints ".json")
  && negb (startswith (codepoints ".") file_name).

Definition glob_json (directory : list pystr) : list pystr :=
  filter fnmatch_json directory.

(** [file_path.unlink()] *)
Definition unlink (file_name : pystr) (directory : list pystr) : list pystr :=
  filter (fun f => negb (pystr_eqb f file_name)) directory.

(** Body of the loop: [ValueError] from the parse is caught and the file
    is passed over. *)
Definition sweep_file (current_date : date) (directory : list pystr)
    (file_name : pystr) : list pystr :=
  try_except
    (file_date <- strptime_ymd (date_token file_name) ;;
     ok (if 7 <? days_between current_date file_date
         then unlink file_name directory
         else directory))
    (fun _ => directory).

(** [cleanup_old_files] on a directory given by the names of the files
    in it; the result is the directory after the sweep.  [ds] is
    [context['ds']]. *)
Definition cleanup_old_files (ds : pystr) (directory : list pystr)
  : result (list pystr) :=
  current_date <- strptime_ymd ds ;;
  ok (fold_left (sweep_file current_date) (glob_json directory) directory).

(* ===================================================================== *)
(** ** Report renderer: [src/generate_dashboard.py] *)

(** The filters a default [jinja2] environment knows
    ([jinja2.filters.FILTERS]); [Template(_)] compiles against them. *)
Definition jinja_default_filters : list string :=
  ["abs"; "attr"; "batch"; "capitalize"; "center"; "count"; "d"; "default";
   "dictsort"; "e"; "escape"; "filesizeformat"; "first"; "float";
   "forceescape"; "format"; "groupby"; "indent"; "int"; "join"; "last";
   "length"; "list"; "lower"; "items"; "map"; "min"; "max"; "pprint";
   "random"; "reject"; "rejectattr"; "replace"; "reverse"; "round"; "safe";
   "select"; "selectattr"; "slice"; "sort"; "string"; "striptags"; "sum";
   "title"; "trim"; "truncate"; "unique"; "upper"; "urlencode"; "urlize";
   "wordcount"; "wordwrap"; "xmlattr"; "tojson"].

(** The filters the template applies, in order; both stand in the script
    block, outside every [if]. *)
Definition template_filters : list string := ["tojsonfilter"; "tojsonfilter"].

(** The blocks of the rendered page with the values they show. *)
Inductive html_block : Type :=
| HeaderBlock (generated_on : string)
| MetricsBlock (repositories stars_total forks_total orgs : Z)
| TopStarredTable (rows : list RankingRow)
| LanguagesChart
| OrganizationsChart
| TopContributorsTable (rows : list TopContributor)
| ScriptBlock (languages_data : list (string * Z))
              (org_data : list (string * OrgStats)).

(** Compilation of the template: a filter that is not registered is an
    error of the template. *)
Definition compile_template (filters : list string) : result unit :=
  match find (fun f => negb (existsb (String.eqb f) jinja_default_filters)) filters with
  | Some f => raise (TemplateAssertionError ("No filter named '" ++ f ++ "'."))
  | None => ok tt
  end.

(** [template.render(summary_data=summary_data)]; the contributor table
    stands under [{% if summary_data.contribution_analysis %}]. *)
Definition render (summary_data : SummaryReport) : list html_block :=
  [HeaderBlock (substring 0 19 (generation_timestamp summary_data));
   MetricsBlock (total_repositories summary_data) (total_stars summary_data)
                (total_forks summary_data) (total_organizations summary_data);
   TopStarredTable (firstn 15 (top_starred_repositories summary_data));
   LanguagesChart;
   OrganizationsChart]
  ++ match contribution_analysis summary_data with
     | Some analysis => [TopContributorsTable (firstn 10 (top_contributors analysis))]
     | None => []
     end
  ++ [ScriptBlock (top_languages summary_data) (organization_breakdown summary_data)].

Definition create_dashboard_html (summary_data : SummaryReport) : result (list html_block) :=
  _ <- compile_template template_filters ;;
  ok (render summary_data).

(* ===================================================================== *)
(** ** Vocabulary of the statements *)

(** Falling order of a key. *)
Definition desc {A} (key : A -> Z) (a b : A) : Prop := key b <= key a.

(** Sum of a weight over the rows of one group. *)
Definition group_sum {A} (key : A -> string) (w : A -> Z) (l : list A) (k : string) : Z :=
  zsum (map w (filter (fun a => String.eqb (key a) k) l)).

(** A run respects backpressure when no fetch directly follows a quota
    reading below the threshold: a sleep has to stand between them. *)
Fixpoint backpressure_respected (trace : list event) : bool :=
  match trace with
  | [] => true
  | e :: rest =>
      match e, rest with
      | QuotaInspected r, Fetch _ :: _ =>
          negb (r <? quota_threshold) && backpressure_respected rest
      | _, _ => backpressure_respected rest
      end
  end.

(** What one repository adds to [contribution_data]. *)
Definition records_of (api : GitHubApi) (max_contributors : Z) (date : string)
    (repo : RepositoryRecord) : list RepositoryContribution :=
  match collect_repository_contributors api (full_name repo) max_contributors with
  | Some info => [with_repo_metadata info repo date]
  | None => []
  end.

(** The contributor records of a snapshot, in input order. *)
Definition all_contributors (contrib_data : list RepositoryContribution)
  : list ContributorRecord :=
  flat_map contributors contrib_data.

Definition has_login (l : string) (c : ContributorRecord) : bool :=
  String.eqb (login c) l.

(** Sum of the contributions recorded for a login. *)
Definition contributions_of (l : string) (contrib_data : list RepositoryContribution) : Z :=
  zsum (map contributions (filter (has_login l) (all_contributors contrib_data))).

(** Number of contributor records carrying a login. *)
Definition occurrences_of (l : string) (contrib_data : list RepositoryContribution) : Z :=
  zlen (filter (has_login l) (all_contributors contrib_data)).

(** The distinct repositories whose entry lists a login. *)
Definition repos_with (l : string) (contrib_data : list RepositoryContribution)
  : list string :=
  unique (map repo_full_name
              (filter (fun e => existsb (has_login l) (contributors e)) contrib_data)).

(** What the records of a login add up to: the sum of its contributions,
    the number of its records, the links of its first record. *)
Definition activity_of (l : string) (records : list ContributorRecord) : Activity :=
  {| total_contributions := zsum (map contributions (filter (has_login l) records));
     repos_contributed := zlen (filter (has_login l) records);
     act_avatar_url := match find (has_login l) records with
                       | Some c => avatar_url c
                       | None => EmptyString
                       end;
     act_html_url := match find (has_login l) records with
                     | Some c => html_url c
                     | None => EmptyString
                     end |}.

(** One row per login, logins in order of first occurrence. *)
Definition activity_table (records : list ContributorRecord) : list (string * Activity) :=
  map (fun l => (l, activity_of l records)) (unique (map login records)).

(** The logins of a snapshot in order of first occurrence. *)
Definition logins_of (contrib_data : list RepositoryContribution) : list string :=
  unique (map login (all_contributors contrib_data)).

(** A contributor snapshot as the data model has it: one entry per
    repository, one record per login within an entry. *)
Definition well_formed_contributions (contrib_data : list RepositoryContribution) : Prop :=
  NoDup (map repo_full_name contrib_data)
  /\ forall e, In e contrib_data -> NoDup (map login (contributors e)).

Definition is_present {A} (o : option A) : bool :=
  match o with Some _ => true | None => false end.

Definition same_value (a b : option string) : bool :=
  match a, b with
  | Some x, Some y => String.eqb x y
  | None, None => true
  | _, _ => false
  end.

(** Number of records whose classification in column [col] is [k]. *)
Definition count_where (col : RepositoryRecord -> option string) (k : option string)
    (repos : list RepositoryRecord) : Z :=
  zlen (filter (fun r => same_value (col r) k) repos).

Definition valid_date (d : date) : Prop :=
  check_date_fields (year d) (month d) (day d) = true.

(** The scheduler's [ds]: [YYYY-MM-DD] with leading zeros. *)
Definition digit_char (n : Z) : Z := 48 + n.

Definition ds_of_date (d : date) : pystr :=
  [digit_char (year d / 1000); digit_char (year d / 100 mod 10);
   digit_char (year d / 10 mod 10); digit_char (year d mod 10); ord "-";
   digit_char (month d / 10); digit_char (month d mod 10); ord "-";
   digit_char (day d / 10); digit_char (day d mod 10)].

(** The three kinds of snapshot file the tasks write. *)
Inductive snapshot_kind : Type := ReposRaw | Contributions | GithubSummary.

Definition stem (k : snapshot_kind) : string :=
  match k with
  | ReposRaw => "repos_raw"
  | Contributions => "contributions"
  | GithubSummary => "github_summary"
  end.

(** The name [<front>_<YYYY-MM-DD>.json]. *)
Definition dated_name (front : pystr) (d : date) : pystr :=
  front ++ ord "_" :: ds_of_date d ++ codepoints ".json".

Definition snapshot_name (k : snapshot_kind) (d : date) : pystr :=
  dated_name (codepoints (stem k)) d.

(** The test the loop makes on a name, and the names it removes: the
    token of the name is a date more than seven days back by the day
    numbers, and the name is one the glob yields. *)
Definition due (current_date : date) (file_name : pystr) : bool :=
  match strptime_ymd (date_token file_name) with
  | inr d => 7 <? days_between current_date d
  | inl _ => false
  end.

Definition expiredb (current_date : date) (file_name : pystr) : bool :=
  fnmatch_json file_name && due current_date file_name.

(** A name that starts with a dot. *)
Definition hidden (file_name : pystr) : Prop :=
  exists rest, file_name = ord "." :: rest.

(** An entry the pattern [*.json] stands for: its name ends in [.json]
    and does not start with a dot. *)
Definition json_entry (file_name : pystr) : Prop :=
  (exists front, file_name = front ++ codepoints ".json") /\ ~ hidden file_name.

(** The calendar, told without day numbers.  A year is a leap year when
    it is a multiple of 4 and not of 100, or a multiple of 400. *)
Definition leap_year (y : Z) : bool :=
  ((y mod 4 =? 0) && negb (y mod 100 =? 0)) || (y mod 400 =? 0).

Definition month_length (y m : Z) : Z :=
  if m =? 2 then (if leap_year y then 29 else 28)
  else if (m =? 4) || (m =? 6) || (m =? 9) || (m =? 11) then 30
  else 31.

(** A date of the calendar that [datetime] can hold. *)
Definition calendar_date (d : date) : Prop :=
  1 <= year d <= 9999 /\ 1 <= month d <= 12
  /\ 1 <= day d <= month_length (year d) (month d).

(** A month and a day of it, in whatever year. *)
Definition day_of_a_month (d : date) : Prop :=
  1 <= month d <= 12 /\ 1 <= day d <= month_length (year d) (month d).

(** The day after [d]. *)
Definition tomorrow (d : date) : date :=
  if day d <? month_length (year d) (month d)
  then {| year := year d; month := month d; day := day d + 1 |}
  else if month d <? 12
       then {| year := year d; month := month d + 1; day := 1 |}
       else {| year := year d + 1; month := 1; day := 1 |}.

(** The date [n] days after [d]. *)
Definition days_later (n : nat) (d : date) : date := Nat.iter n tomorrow d.

(** [d] lies more than [k] days before [ref]. *)
Definition older_than (k : nat) (ref d : date) : Prop :=
  exists n, (k < n)%nat /\ days_later n d = ref.

(** A name whose date token reads as a date more than seven days before
    the reference date. *)
Definition overdue (current_date : date) (file_name : pystr) : Prop :=
  exists d, strptime_ymd (date_token file_name) = ok d
            /\ older_than 7 current_date d.

(* ===================================================================== *)
(** ** Sample data *)

Definition mk_repo (org repo_name : string) (s f : Z) (lang : option string)
  : RepositoryRecord :=
  {| organization := org; name := repo_name;
     full_name := (org ++ "/" ++ repo_name)%string;
     stars := s; forks := f; watchers := s; open_issues := 0;
     language := lang; size := 1; updated_at := None; archived := false;
     has_wiki := false; has_pages := false; has_issues := true;
     license := None; topics := []; collection_date := "2024-03-10" |}.

Definition repo_A : RepositoryRecord := mk_repo "acme" "A" 100 10 (Some "Python").
Definition repo_B : RepositoryRecord := mk_repo "acme" "B" 300 5 None.
Definition repo_C : RepositoryRecord := mk_repo "beta" "C" 300 20 (Some "Python").

Definition mk_contributor (l : string) (n : Z) : ContributorRecord :=
  {| login := l; contributions := n;
     avatar_url := ("https://avatars.example/" ++ l)%string;
     html_url := ("https://github.com/" ++ l)%string;
     ctype := "User" |}.

Definition mk_contribution (repo : RepositoryRecord) (total : Z)
    (cs : list ContributorRecord) : RepositoryContribution :=
  {| repo_full_name := full_name repo; total_contributors := total;
     contributors := cs; contrib_organization := organization repo;
     repo_stars := stars repo; contrib_collection_date := "2024-03-10" |}.

Definition sample_contributions : list RepositoryContribution :=
  [mk_contribution repo_A 2 [mk_contributor "alice" 10; mk_contributor "bob" 25];
   mk_contribution repo_B 1 [mk_contributor "alice" 15]].

Definition sample_fs : FileSystem :=
  {| repo_snapshots := fun p =>
       if String.eqb p "repos_raw_2024-03-10.json"
       then Some [repo_A; repo_B; repo_C] else None;
     contrib_snapshots := fun p =>
       if String.eqb p "contributions_2024-03-10.json" then Some sample_contributions
       else if String.eqb p "contributions_empty.json" then Some []
       else None |}.

Definition sample_api_repo (n : string) : ApiRepository :=
  {| api_name := n; api_full_name := ("acme/" ++ n)%string;
     stargazers_count := 7; forks_count := 1; watchers_count := 7;
     open_issues_count := 0; api_language := None; api_size := 1;
     api_updated_at := None; api_archived := false; api_has_wiki := false;
     api_has_pages := false; api_has_issues := true; api_license := None |}.

(** An API on which the organization [ghost] and the repository
    [acme/broken] cannot be fetched, every other repository lists three
    contributors, and the quota stands at 5 of 5000. *)
Definition sample_api : GitHubApi :=
  {| get_organization := fun o =>
       if String.eqb o "ghost" then raise (GithubException 404) else ok tt;
     get_repos := fun o => ok [sample_api_repo "one"; sample_api_repo "two"];
     get_topics := fun _ => ok [];
     get_repo := fun n =>
       if String.eqb n "acme/broken" then raise (GithubException 404) else ok tt;
     get_contributors := fun _ =>
       ok [mk_contributor "alice" 10; mk_contributor "bob" 25; mk_contributor "carol" 1];
     rate_limit_in_org := fun _ _ =>
       ok {| remaining := 5; limit := 5000; reset := Timestamp 1710064800 |};
     rate_limit_after := fun _ =>
       ok {| remaining := 5; limit := 5000; reset := Timestamp 1710064800 |} |}.

Definition sample_directory : list pystr :=
  map codepoints
      ["repos_raw_2024-03-09.json"; "contributions_2024-03-05.json";
       "github_summary_2024-03-02.json"; "repos_raw_2024-02-29.json";
       "notes.json"; "repos_raw_2020-01-01.csv"].

(** A name whose year is written in Arabic-Indic digits, a hidden file,
    and an entry with a date in its name that is no [*.json] file. *)
Definition arabic_indic_name : pystr :=
  codepoints "repos_raw_" ++ [1634; 1632; 1634; 1632] ++ codepoints "-01-01.json".

Definition hidden_name : pystr := codepoints ".repos_raw_2020-01-01.json".

Definition dated_entry_without_suffix : pystr := codepoints "repos_raw_2020-01-01".

(** A contributor snapshot that lists one repository twice, as a run over
    a repository snapshot with a repeated record writes it. *)
Definition repeated_contributions : list RepositoryContribution :=
  [mk_contribution repo_A 1 [mk_contributor "alice" 10];
   mk_contribution repo_A 1 [mk_contributor "alice" 10]].

(** A snapshot of two organizations with [2^62] stars each. *)
Definition wide_fs : FileSystem :=
  {| repo_snapshots := fun p =>
       if String.eqb p "repos_raw_wide.json"
       then Some [mk_repo "acme" "A" (2 ^ 62) 0 None; mk_repo "beta" "C" (2 ^ 62) 0 None]
       else None;
     contrib_snapshots := fun _ => None |}.

Definition eleven_repos : list RepositoryRecord :=
  map (fun ns => mk_repo "acme" (fst ns) (snd ns) 0 None)
      [("r01", 110); ("r02", 100); ("r03", 90); ("r04", 80); ("r05", 70);
       ("r06", 60); ("r07", 50); ("r08", 40); ("r09", 30); ("r10", 20);
       ("r11", 10)].

(* ===================================================================== *)
(** ** The scheduler's tasks and processor: [dags/github_data_collection_dag.py],
       [dags/utils/data_processor.py] *)

(** [GitHubDataCollector.get_organization_repos] *)
Definition get_organization_repos (api : GitHubApi) (org_name : string)
  : list ApiRepository :=
  try_except (_ <- get_organization api org_name ;; get_repos api org_name)
             (fun _ => []).

(** The task [collect_contribution_data]: the fifty repositories of most
    stars, one entry appended for each.  The client's call answers with a
    list whatever happens, so the [try] around the body has nothing to
    catch. *)
Definition dag_collect_contribution_data (api : GitHubApi)
    (repos_data : list RepositoryRecord) (ds : string) : list RepositoryContribution :=
  fold_left (fun contribution_data repo =>
               contribution_data
               ++ try_except (ok [dag_repo_contributions api repo ds]) (fun _ => []))
            (py_slice_to 50 (sorted_desc stars repos_data)) [].

(** One row of [organization_statistics]: the columns of the script's
    breakdown and the sum of [size]. *)
Record ProcessorOrgStats : Type := {
  po_stats : OrgStats;
  po_size_sum : Z
}.

(** The four columns the processor keeps in its ranking lists. *)
Record ProcessorRow : Type := {
  pr_full_name : string;
  pr_stars : Z;
  pr_forks : Z;
  pr_language : option string
}.

Record ContributionStatistics : Type := {
  total_contributors_analyzed : Z;
  cs_average_contributors_per_repo : Q;
  cs_top_contributors : list TopContributor
}.

Record ProcessorSummary : Type := {
  ps_collection_date : string;
  ps_total_repositories : Z;
  ps_total_organizations : Z;
  ps_organizations : list string;
  ps_total_stars : Z;
  ps_total_forks : Z;
  ps_total_open_issues : Z;
  ps_organization_statistics : list (string * ProcessorOrgStats);
  ps_top_languages : list (string * Z);
  ps_top_repositories_by_stars : list ProcessorRow;
  ps_top_repositories_by_forks : list ProcessorRow;
  ps_contribution_statistics : ContributionStatistics
}.

Definition processor_row (r : RepositoryRecord) : ProcessorRow :=
  {| pr_full_name := full_name r;
     pr_stars := stars r;
     pr_forks := forks r;
     pr_language := language r |}.

(** [total_contributors / len(contrib_data) if contrib_data else 0] *)
Definition avg_contributors (total : Z) (contrib_data : list RepositoryContribution)
  : result Q :=
  match contrib_data with
  | [] => ok (inject_Z 0)
  | _ :: _ => py_truediv total (zlen contrib_data)
  end.

(** [DataProcessor.create_summary_report]: both files are opened first,
    then the frame is built and grouped; [now] stands for
    [datetime.now().isoformat()]. *)
Definition create_summary_report (fs : FileSystem) (now repo_file contrib_file : string)
  : result ProcessorSummary :=
  match repo_snapshots fs repo_file with
  | None => raise (FileNotFoundError repo_file)
  | Some repos_data =>
      match contrib_snapshots fs contrib_file with
      | None => raise (FileNotFoundError contrib_file)
      | Some contrib_data =>
          match repos_data with
          | [] => raise (KeyError "organization")
          | _ :: _ =>
              let total_contributors := zsum (map total_contributors contrib_data) in
              avg <- avg_contributors total_contributors contrib_data ;;
              ok {| ps_collection_date := now;
                    ps_total_repositories := zlen repos_data;
                    ps_total_organizations :=
                      nunique (map (fun r => Some (organization r)) repos_data);
                    ps_organizations := unique (map organization repos_data);
                    ps_total_stars := int64_sum (map stars repos_data);
                    ps_total_forks := int64_sum (map forks repos_data);
                    ps_total_open_issues := int64_sum (map open_issues repos_data);
                    ps_organization_statistics :=
                      map (fun kg => (fst kg,
                                      {| po_stats := agg_group (snd kg);
                                         po_size_sum := int64_sum (map size (snd kg)) |}))
                          (groupby_organization repos_data);
                    ps_top_languages := firstn 10 (value_counts (map language repos_data));
                    ps_top_repositories_by_stars :=
                      map processor_row (nlargest 20 stars repos_data);
                    ps_top_repositories_by_forks :=
                      map processor_row (nlargest 20 forks repos_data);
                    ps_contribution_statistics :=
                      {| total_contributors_analyzed := total_contributors;
                         cs_average_contributors_per_repo := avg;
                         cs_top_contributors :=
                           map contributor_row
                               (firstn 20 (sorted_desc
                                             (fun kv => total_contributions (snd kv))
                                             (contributor_activity contrib_data))) |} |}
          end
      end
  end.

(* ===================================================================== *)
(** ** More vocabulary *)

(** The API with another answer to the quota query made inside an
    organization. *)
Definition with_org_quota (api : GitHubApi)
    (quota : string -> Z -> result RateLimit) : GitHubApi :=
  {| get_organization := get_organization api;
     get_repos := get_repos api;
     get_topics := get_topics api;
     get_repo := get_repo api;
     get_contributors := get_contributors api;
     rate_limit_in_org := quota;
     rate_limit_after := rate_limit_after api |}.

(** The names fetched in a run, in order. *)
Definition fetched (trace : list event) : list string :=
  flat_map (fun e => match e with Fetch r => [r] | _ => [] end) trace.

(** The quota readings of a run, in order. *)
Definition readings (trace : list event) : list Z :=
  flat_map (fun e => match e with QuotaInspected r => [r] | _ => [] end) trace.

(** Rising order of strings, as [sorted] gives it. *)
Definition asc (a b : string) : Prop := String.ltb b a = false.

(** The topics of a repository, empty when the call raises. *)
Definition topics_or_empty (api : GitHubApi) (repo : ApiRepository) : list string :=
  try_except (get_topics api (api_full_name repo)) (fun _ => []).

(** Nine repositories that can be fetched, and the same with one that
    cannot be fetched in front. *)
Definition nine_repos : list RepositoryRecord := firstn 9 eleven_repos.

Definition nine_repos_and_a_broken_one : list RepositoryRecord :=
  mk_repo "acme" "broken" 500 0 None :: nine_repos.

(** The sample API with the quota endpoint refusing. *)
Definition quota_down_api : GitHubApi :=
  {| get_organization := get_organization sample_api;
     get_repos := get_repos sample_api;
     get_topics := get_topics sample_api;
     get_repo := get_repo sample_api;
     get_contributors := get_contributors sample_api;
     rate_limit_in_org := fun _ _ => raise (GithubException 403);
     rate_limit_after := fun _ => raise (GithubException 403) |}.

(* ===================================================================== *)
(** * Properties *)

(* ===================================================================== *)
(** ** Stable sorting *)

Section StableSortFacts.
Variable A : Type.
Variable ahead : A -> A -> bool.

Lemma insert_perm (x : A) (l : list A) :
    Permutation (insert ahead x l) (x :: l).
  Proof.
    induction l as [|y l IH]; simpl.
    - apply Permutation_refl.
    - destruct (ahead y x).
      + eapply perm_trans; [apply perm_skip, IH | apply perm_swap].
      + apply Permutation_refl.
  Qed.

Lemma stable_sort_perm (l : list A) : Permutation (stable_sort ahead l) l.
  Proof.
    induction l as [|x l IH]; simpl.
    - constructor.
    - eapply perm_trans; [apply insert_perm | apply perm_skip, IH].
  Qed.

Lemma stable_sort_length (l : list A) :
    List.length (stable_sort ahead l) = List.length l.
  Proof. apply Permutation_length, stable_sort_perm. Qed.

Lemma stable_sort_In (l : list A) (x : A) :
    In x (stable_sort ahead l) <-> In x l.
  Proof.
    split; apply Permutation_in;
      [apply stable_sort_perm | apply Permutation_sym, stable_sort_perm].
  Qed.
End StableSortFacts.

Section SortedDesc.
Variable A : Type.
Variable key : A -> Z.

Lemma insert_desc (x : A) (l : list A) :
    StronglySorted (desc key) l ->
    StronglySorted (desc key) (insert (fun y x => key x <? key y) x l).
  Proof.
    induction 1 as [|y l Hs IH Hy]; simpl.
    - repeat constructor.
    - destruct (Z.ltb_spec (key x) (key y)) as [Hlt|Hge].
      + constructor; [exact IH|].
        rewrite Forall_forall in *. intros z Hz.
        apply (Permutation_in _ (insert_perm _ x l)) in Hz.
        destruct Hz as [<-|Hz]; [unfold desc; lia | auto].
      + constructor; [constructor; assumption|].
        constructor; [exact Hge|].
        rewrite Forall_forall in *. intros z Hz.
        specialize (Hy z Hz). unfold desc in *. lia.
  Qed.

Lemma sorted_desc_sorted (l : list A) : StronglySorted (desc key) (sorted_desc key l).
  Proof.
    unfold sorted_desc. induction l as [|x l IH]; simpl.
    - constructor.
    - apply insert_desc, IH.
  Qed.

  (** An element moves in front of another only when their keys differ. *)
Lemma insert_ties (k : Z) (x : A) (l : list A) :
    filter (fun a => key a =? k) (insert (fun y x => key x <? key y) x l)
    = filter (fun a => key a =? k) (x :: l).
  Proof.
    induction l as [|y l IH]; [reflexivity|].
    simpl insert. destruct (Z.ltb_spec (key x) (key y)) as [Hlt|Hge]; [|reflexivity].
    simpl in *. rewrite IH.
    destruct (Z.eqb_spec (key y) k), (Z.eqb_spec (key x) k); try reflexivity; lia.
  Qed.

Lemma sorted_desc_ties (k : Z) (l : list A) :
    filter (fun a => key a =? k) (sorted_desc key l)
    = filter (fun a => key a =? k) l.
  Proof.
    unfold sorted_desc. induction l as [|x l IH]; [reflexivity|].
    simpl stable_sort. rewrite insert_ties. simpl. now rewrite IH.
  Qed.

Lemma sorted_desc_perm (l : list A) : Permutation (sorted_desc key l) l.
  Proof. apply stable_sort_perm. Qed.

Lemma sorted_desc_In (l : list A) (x : A) : In x (sorted_desc key l) <-> In x l.
  Proof. apply stable_sort_In. Qed.
End SortedDesc.

(* ===================================================================== *)
(** ** Ranking lists *)

Lemma nlargest_spec (A : Type) (key : A -> Z) (n : nat) (l : list A) :
  exists ranked,
    Permutation ranked l
    /\ StronglySorted (desc key) ranked
    /\ (forall k, filter (fun a => key a =? k) ranked = filter (fun a => key a =? k) l)
    /\ nlargest n key l = firstn n ranked.
Proof.
  exists (sorted_desc key l). split; [apply sorted_desc_perm|].
  split; [apply sorted_desc_sorted|].
  split; [intro k; apply sorted_desc_ties | reflexivity].
Qed.

(** C2, as the code has it: each ranking list is the snapshot in falling
    order of its one key, [stars] for the first and [forks] for the
    second; rows that tie on the key keep their input order, the other
    count is not consulted; the list is cut to 25 rows.  On A (100, 10),
    B (300, 5), C (300, 20) the ranking by stars is B, C, A. *)
Theorem rankings_by_one_key_then_input_order (repos : list RepositoryRecord) :
  (exists ranked,
      Permutation ranked repos
      /\ StronglySorted (desc stars) ranked
      /\ (forall k, filter (fun r => stars r =? k) ranked
                    = filter (fun r => stars r =? k) repos)
      /\ top_starred repos = map ranking_row (firstn 25 ranked))
  /\ (exists ranked,
      Permutation ranked repos
      /\ StronglySorted (desc forks) ranked
      /\ (forall k, filter (fun r => forks r =? k) ranked
                    = filter (fun r => forks r =? k) repos)
      /\ top_forked repos = map ranking_row (firstn 25 ranked))
  /\ top_starred [repo_A; repo_B; repo_C] = map ranking_row [repo_B; repo_C; repo_A].
Proof.
  split; [|split].
  - destruct (nlargest_spec stars 25 repos) as (ranked & Hp & Hs & Ht & Hn).
    exists ranked. unfold top_starred. rewrite Hn. auto.
  - destruct (nlargest_spec forks 25 repos) as (ranked & Hp & Hs & Ht & Hn).
    exists ranked. unfold top_forked. rewrite Hn. auto.
  - reflexivity.
Qed.

(** C2 fails as stated: B and C tie on stars and C has more forks, yet B,
    which comes first in the input, is ranked first. *)
Lemma top_starred_ignores_forks_on_ties :
  top_starred [repo_A; repo_B; repo_C] <> map ranking_row [repo_C; repo_B; repo_A]
  /\ map rk_full_name (top_starred [repo_A; repo_B; repo_C])
     = ["acme/B"; "beta/C"; "acme/A"].
Proof.
  split; [|reflexivity].
  intro H. apply (f_equal (map rk_full_name)) in H. vm_compute in H. discriminate H.
Qed.

(* ===================================================================== *)
(** ** Distinct values and grouped sums *)

Lemma zsum_app (l1 l2 : list Z) : zsum (l1 ++ l2) = zsum l1 + zsum l2.
Proof. induction l1 as [|x l1 IH]; simpl; lia. Qed.

Lemma zsum_perm (l1 l2 : list Z) : Permutation l1 l2 -> zsum l1 = zsum l2.
Proof. induction 1; simpl; lia. Qed.

Lemma zlen_cons (A : Type) (x : A) (l : list A) : zlen (x :: l) = 1 + zlen l.
Proof. unfold zlen. simpl List.length. lia. Qed.

Lemma zlen_nonneg (A : Type) (l : list A) : 0 <= zlen l.
Proof. unfold zlen. lia. Qed.

Lemma zlen_app (A : Type) (l1 l2 : list A) : zlen (l1 ++ l2) = zlen l1 + zlen l2.
Proof. unfold zlen. rewrite length_app. lia. Qed.

Lemma In_unique (x : string) (l : list string) : In x (unique l) <-> In x l.
Proof.
  induction l as [|y l IH]; simpl; [tauto|].
  rewrite filter_In, IH, negb_true_iff, String.eqb_neq.
  destruct (string_dec y x); [tauto|].
  split; [tauto|]. intros [H|H]; [tauto|]. right. split; congruence.
Qed.

Lemma NoDup_filter (A : Type) (p : A -> bool) (l : list A) :
  NoDup l -> NoDup (filter p l).
Proof.
  induction 1 as [|x l Hx Hl IH]; simpl; [constructor|].
  destruct (p x); [constructor|]; auto.
  rewrite filter_In. tauto.
Qed.

Lemma NoDup_unique (l : list string) : NoDup (unique l).
Proof.
  induction l as [|x l IH]; simpl; constructor.
  - rewrite filter_In, String.eqb_refl. simpl. intros [_ H]. discriminate H.
  - apply NoDup_filter, IH.
Qed.

Lemma filter_id (A : Type) (p : A -> bool) (l : list A) :
  (forall x, In x l -> p x = true) -> filter p l = l.
Proof.
  induction l as [|x l IH]; simpl; intros H; [reflexivity|].
  rewrite (H x) by auto. f_equal. apply IH. auto.
Qed.

Lemma unique_NoDup (l : list string) : NoDup l -> unique l = l.
Proof.
  induction 1 as [|x l Hx Hl IH]; simpl; [reflexivity|].
  rewrite IH. f_equal. apply filter_id. intros y Hy.
  apply negb_true_iff, String.eqb_neq. congruence.
Qed.

Lemma unique_snoc (l : list string) (x : string) :
  unique (l ++ [x]) = if existsb (String.eqb x) l then unique l else unique l ++ [x].
Proof.
  induction l as [|y l IH]; simpl; [reflexivity|].
  rewrite IH. destruct (String.eqb_spec x y) as [->|Hxy]; simpl.
  - destruct (existsb (String.eqb y) l); [reflexivity|].
    rewrite filter_app. simpl. rewrite String.eqb_refl. simpl.
    now rewrite app_nil_r.
  - destruct (existsb (String.eqb x) l); [reflexivity|].
    rewrite filter_app. simpl.
    destruct (String.eqb_spec x y); [contradiction|reflexivity].
Qed.

(** Summing a weight group by group over distinct keys that cover the
    rows gives the sum over all rows. *)
Section GroupedSums.
Variable A : Type.
Variable key : A -> string.
Variable w : A -> Z.

Lemma indicator_sum (x : string) (c : Z) (ks : list string) :
    NoDup ks -> In x ks ->
    zsum (map (fun k => if String.eqb x k then c else 0) ks) = c.
  Proof.
    induction 1 as [|k ks Hk Hks IH]; simpl; [tauto|].
    intros [->|Hin].
    - rewrite String.eqb_refl.
      assert (E : zsum (map (fun k => if String.eqb x k then c else 0) ks) = 0).
      { clear IH Hks. induction ks as [|k ks IH]; simpl; [reflexivity|].
        destruct (String.eqb_spec x k) as [->|_]; [exfalso; apply Hk; left; reflexivity|].
        rewrite IH; [reflexivity|]. intro H. apply Hk. now right. }
      lia.
    - destruct (String.eqb_spec x k) as [->|_]; [contradiction|].
      rewrite IH by assumption. lia.
  Qed.

Lemma zsum_map_plus (B : Type) (f g : B -> Z) (l : list B) :
    zsum (map (fun b => f b + g b) l) = zsum (map f l) + zsum (map g l).
  Proof. induction l as [|b l IH]; simpl; lia. Qed.

Lemma grouped_sums_total (ks : list string) (l : list A) :
    NoDup ks -> (forall a, In a l -> In (key a) ks) ->
    zsum (map (group_sum key w l) ks) = zsum (map w l).
  Proof.
    intros Hnd. induction l as [|a l IH]; intros Hcov.
    - clear Hnd Hcov. induction ks as [|k ks IHk]; simpl; [reflexivity|].
      rewrite IHk. reflexivity.
    - simpl. rewrite <- IH by (intros; apply Hcov; now right).
      rewrite <- (@indicator_sum (key a) (w a) ks Hnd (Hcov a (or_introl eq_refl))) at 1.
      rewrite <- zsum_map_plus. f_equal. apply map_ext. intro k.
      unfold group_sum. simpl. destruct (String.eqb (key a) k); reflexivity.
  Qed.
End GroupedSums.

(* ===================================================================== *)
(** ** Sums of [int64] columns *)

Lemma wrap64_small (z : Z) : - 2 ^ 63 <= z < 2 ^ 63 -> wrap64 z = z.
Proof. intro H. unfold wrap64. rewrite Z.mod_small; lia. Qed.

Lemma wrap64_int64 (z : Z) : int64 (wrap64 z).
Proof.
  unfold int64, wrap64. pose proof (Z.mod_pos_bound (z + 2 ^ 63) (2 ^ 64)). lia.
Qed.

Lemma wrap64_add (a b : Z) : wrap64 (wrap64 a + b) = wrap64 (a + b).
Proof.
  unfold wrap64. f_equal.
  replace ((a + 2 ^ 63) mod 2 ^ 64 - 2 ^ 63 + b + 2 ^ 63)
    with ((a + 2 ^ 63) mod 2 ^ 64 + b) by lia.
  rewrite Zplus_mod_idemp_l. f_equal. lia.
Qed.

(** Sums that wrapped around add up, with wrap-around, to the sum that
    wraps around once. *)
Lemma wrap64_zsum_map (B : Type) (g : B -> Z) (l : list B) :
  wrap64 (zsum (map (fun b => wrap64 (g b)) l)) = wrap64 (zsum (map g l)).
Proof.
  induction l as [|b l IH]; [reflexivity|]. cbn [map zsum fold_right].
  fold (zsum (map (fun b => wrap64 (g b)) l)). fold (zsum (map g l)).
  rewrite wrap64_add, Z.add_comm, <- wrap64_add, IH, wrap64_add. f_equal. lia.
Qed.

Lemma zsum_filter_bounds (B : Type) (w : B -> Z) (p : B -> bool) (l : list B) :
  (forall x, In x l -> 0 <= w x) ->
  0 <= zsum (map w (filter p l)) <= zsum (map w l).
Proof.
  induction l as [|x l IH]; intro H; [simpl; lia|].
  assert (0 <= w x) by (apply H; now left).
  assert (0 <= zsum (map w (filter p l)) <= zsum (map w l))
    by (apply IH; intros; apply H; now right).
  simpl. destruct (p x); simpl; lia.
Qed.

(* ===================================================================== *)
(** ** Histograms *)

Lemma zsum_ones (A : Type) (l : list A) : zsum (map (fun _ => 1) l) = zlen l.
Proof. induction l as [|x l IH]; [reflexivity|]. rewrite zlen_cons. simpl. rewrite IH. lia. Qed.

Lemma count_eq_group (k : string) (l : list string) :
  count_eq k l = group_sum (fun a => a) (fun _ => 1) l k.
Proof.
  unfold count_eq, group_sum. rewrite zsum_ones. f_equal.
  apply filter_ext. intro a. apply String.eqb_sym.
Qed.

Lemma count_eq_pos (k : string) (l : list string) : In k l -> 0 < count_eq k l.
Proof.
  unfold count_eq. induction l as [|x l IH]; simpl; [tauto|].
  intros [->|H].
  - rewrite String.eqb_refl, zlen_cons. pose proof (zlen_nonneg (filter (String.eqb k) l)). lia.
  - destruct (String.eqb k x); [rewrite zlen_cons|]; specialize (IH H); lia.
Qed.

Lemma In_firstn (A : Type) (n : nat) (l : list A) (x : A) :
  In x (firstn n l) -> In x l.
Proof.
  intro H. rewrite <- (firstn_skipn n l). apply in_or_app. now left.
Qed.

Lemma firstn_sum_le (A : Type) (f : A -> Z) (n : nat) (l : list A) :
  (forall x, In x l -> 0 <= f x) ->
  zsum (map f (firstn n l)) <= zsum (map f l).
Proof.
  intro H. rewrite <- (firstn_skipn n l) at 2. rewrite map_app, zsum_app.
  assert (0 <= zsum (map f (skipn n l))); [|lia].
  assert (Hs : forall x, In x (skipn n l) -> 0 <= f x).
  { intros x Hx. apply H. rewrite <- (firstn_skipn n l). apply in_or_app. now right. }
  induction (skipn n l) as [|y t IH]; simpl; [lia|].
  specialize (Hs y (or_introl eq_refl)) as Hy.
  assert (0 <= zsum (map f t)) by (apply IH; intros; apply Hs; now right). lia.
Qed.

Lemma dropna_cons (A : Type) (o : option A) (col : list (option A)) :
  dropna (o :: col) = match o with Some a => a :: dropna col | None => dropna col end.
Proof. destruct o; reflexivity. Qed.

Section ValueCounts.
Variable col : list (option string).

Lemma value_counts_In (k : string) (n : Z) :
    In (k, n) (value_counts col) -> n = count_eq k (dropna col) /\ In k (dropna col).
  Proof.
    unfold value_counts. rewrite sorted_desc_In, in_map_iff.
    intros (k' & [= -> <-] & Hk). rewrite In_unique in Hk. auto.
  Qed.

Lemma value_counts_keys : NoDup (map fst (value_counts col)).
  Proof.
    unfold value_counts.
    apply (Permutation_NoDup (l := unique (dropna col))); [|apply NoDup_unique].
    apply Permutation_sym.
    eapply perm_trans; [apply Permutation_map, sorted_desc_perm|].
    rewrite map_map. simpl. rewrite map_id. apply Permutation_refl.
  Qed.

Lemma value_counts_total : zsum (map snd (value_counts col)) = zlen (dropna col).
  Proof.
    unfold value_counts.
    rewrite (zsum_perm (Permutation_map snd (sorted_desc_perm snd _))).
    rewrite map_map. simpl.
    rewrite (map_ext _ _ (fun k => count_eq_group k (dropna col))).
    rewrite grouped_sums_total.
    - apply zsum_ones.
    - apply NoDup_unique.
    - intros a Ha. now apply In_unique.
  Qed.
End ValueCounts.

Section Columns.
Variable f : RepositoryRecord -> option string.

Lemma dropna_present_only (repos : list RepositoryRecord) :
    dropna (map f (filter (fun r => is_present (f r)) repos)) = dropna (map f repos).
  Proof.
    induction repos as [|r repos IH]; [reflexivity|].
    simpl. destruct (f r) eqn:E; simpl; [rewrite E; simpl|]; now rewrite IH.
  Qed.

Lemma count_eq_dropna (k : string) (repos : list RepositoryRecord) :
    count_eq k (dropna (map f repos)) = count_where f (Some k) repos.
  Proof.
    unfold count_eq, count_where. induction repos as [|r repos IH]; [reflexivity|].
    simpl. destruct (f r) as [a|]; simpl; [|exact IH].
    rewrite (String.eqb_sym k a). destruct (String.eqb a k); [|exact IH].
    rewrite !zlen_cons. now rewrite IH.
  Qed.

Lemma null_and_present (repos : list RepositoryRecord) :
    zlen (dropna (map f repos)) + count_where f None repos = zlen repos.
  Proof.
    unfold count_where. induction repos as [|r repos IH]; [reflexivity|].
    cbn [map filter]. rewrite dropna_cons.
    destruct (f r); cbn [same_value]; rewrite !zlen_cons; lia.
  Qed.

Lemma notna_sum_dropna (repos : list RepositoryRecord) :
    notna_sum (map f repos) = zlen (dropna (map f repos)).
  Proof.
    unfold notna_sum. induction repos as [|r repos IH]; [reflexivity|].
    cbn [map filter]. rewrite dropna_cons.
    destruct (f r); rewrite ?zlen_cons; lia.
  Qed.

Lemma isna_sum_count (repos : list RepositoryRecord) :
    isna_sum (map f repos) = count_where f None repos.
  Proof.
    unfold isna_sum, count_where. induction repos as [|r repos IH]; [reflexivity|].
    cbn [map filter]. destruct (f r); cbn [same_value]; rewrite ?zlen_cons; lia.
  Qed.

  (** A histogram cut to its first [n] rows: every row counts the records
      of exactly its value, null records are in none of them. *)
Lemma histogram_spec (n : nat) (repos : list RepositoryRecord) :
    let h := firstn n (value_counts (map f repos)) in
    (forall k c, In (k, c) h -> c = count_where f (Some k) repos /\ 0 < c)
    /\ h = firstn n (value_counts (map f (filter (fun r => is_present (f r)) repos)))
    /\ NoDup (map fst h)
    /\ zsum (map snd h) + count_where f None repos <= zlen repos.
  Proof.
    simpl. split; [|split; [|split]].
    - intros k c H. apply In_firstn, value_counts_In in H. destruct H as [-> H].
      split; [apply count_eq_dropna | now apply count_eq_pos].
    - unfold value_counts. now rewrite dropna_present_only.
    - rewrite <- firstn_map.
      pose proof (value_counts_keys (map f repos)) as H.
      rewrite <- (firstn_skipn n (map fst (value_counts (map f repos)))) in H.
      now apply NoDup_app_remove_r in H.
    - rewrite <- (null_and_present repos), <- value_counts_total.
      apply Z.add_le_mono_r, firstn_sum_le.
      intros [k c] H. apply value_counts_In in H. destruct H as [-> H].
      apply count_eq_pos in H. simpl. lia.
  Qed.
End Columns.

(* ===================================================================== *)
(** ** The summary report *)

Lemma py_truediv_nonzero (a b : Z) :
  b <> 0 -> py_truediv a b = ok (Qmake (a * Z.sgn b) (Z.to_pos (Z.abs b))).
Proof.
  intro H. unfold py_truediv. destruct (Z.eqb_spec b 0); [contradiction|reflexivity].
Qed.

Lemma contribution_section_ok (e : RepositoryContribution) (l : list RepositoryContribution) :
  exists a, contribution_section (e :: l) = ok a
            /\ repositories_analyzed a = zlen (e :: l)
            /\ ca_total_contributors a = zsum (map total_contributors (e :: l))
            /\ top_contributors a = top_contributors_of (e :: l)
            /\ average_contributors_per_repo a
               = Qmake (zsum (map total_contributors (e :: l)) * 1)
                       (Z.to_pos (zlen (e :: l))).
Proof.
  unfold contribution_section. rewrite py_truediv_nonzero.
  - eexists. split; [reflexivity|]. cbn [repositories_analyzed ca_total_contributors
      top_contributors average_contributors_per_repo].
    repeat split.
  - rewrite zlen_cons. pose proof (zlen_nonneg l). lia.
Qed.

(** The optional block never raises: the quotient is only formed over a
    list that has an entry. *)
Lemma load_contribution_analysis_ok (fs : FileSystem) (contrib_file : option string) :
  exists a, load_contribution_analysis fs contrib_file = ok a.
Proof.
  unfold load_contribution_analysis.
  destruct contrib_file as [path|]; [|eauto].
  destruct (String.eqb path ""); [eauto|].
  destruct (contrib_snapshots fs path) as [[|e l]|]; eauto.
  destruct (contribution_section_ok e l) as (a & -> & _). simpl. eauto.
Qed.

Lemma generate_summary_report_fields (fs : FileSystem) (now repo_file : string)
    (contrib_file : option string) (r : RepositoryRecord) (rest : list RepositoryRecord) :
  repo_snapshots fs repo_file = Some (r :: rest) ->
  exists s,
    generate_summary_report fs now repo_file contrib_file = ok s
    /\ load_contribution_analysis fs contrib_file = ok (contribution_analysis s)
    /\ total_repositories s = zlen (r :: rest)
    /\ total_stars s = int64_sum (map stars (r :: rest))
    /\ organization_breakdown s = org_stats (r :: rest)
    /\ top_languages s = language_counts (r :: rest)
    /\ license_distribution s = license_counts (r :: rest)
    /\ repositories_with_license s = notna_sum (map license (r :: rest))
    /\ repositories_without_license s = isna_sum (map license (r :: rest)).
Proof.
  intro H. unfold generate_summary_report. rewrite H.
  destruct (load_contribution_analysis_ok fs contrib_file) as [a Ha]. rewrite Ha.
  eexists. split; [reflexivity|]. simpl. repeat split.
Qed.

(** C1, as the code has it: on a snapshot that has a record the report is
    produced, whatever the records leave null.  A record whose [language]
    is null is in no row of the language histogram: each row counts the
    records of exactly its language, the histogram is the one of the
    snapshot without its null records, and there is no row for the
    unknown.  The same holds for [license], whose null records are
    counted apart, in [repositories_without_license]. *)
Theorem histograms_leave_null_records_out (fs : FileSystem) (now repo_file : string)
    (contrib_file : option string) (r : RepositoryRecord) (rest : list RepositoryRecord) :
  repo_snapshots fs repo_file = Some (r :: rest) ->
  exists s,
    generate_summary_report fs now repo_file contrib_file = ok s
    /\ (forall k c, In (k, c) (top_languages s) ->
                    c = count_where language (Some k) (r :: rest) /\ 0 < c)
    /\ top_languages s
       = language_counts (filter (fun x => is_present (language x)) (r :: rest))
    /\ zsum (map snd (top_languages s)) + count_where language None (r :: rest)
       <= total_repositories s
    /\ (forall k c, In (k, c) (license_distribution s) ->
                    c = count_where license (Some k) (r :: rest) /\ 0 < c)
    /\ license_distribution s
       = license_counts (filter (fun x => is_present (license x)) (r :: rest))
    /\ zsum (map snd (license_distribution s)) + count_where license None (r :: rest)
       <= total_repositories s
    /\ repositories_without_license s = count_where license None (r :: rest).
Proof.
  intro H.
  destruct (@generate_summary_report_fields fs now repo_file contrib_file r rest H)
    as (s & Hs & _ & Hn & _ & _ & Hl & Hd & _ & Hw).
  exists s. split; [exact Hs|].
  destruct (histogram_spec language 15 (r :: rest)) as (L1 & L2 & _ & L4).
  destruct (histogram_spec license 10 (r :: rest)) as (D1 & D2 & _ & D4).
  rewrite Hl, Hd, Hn, Hw. unfold language_counts, license_counts.
  split; [exact L1|]. split; [exact L2|]. split; [exact L4|].
  split; [exact D1|]. split; [exact D2|]. split; [exact D4|].
  apply isna_sum_count.
Qed.

Lemma histograms_leave_null_records_out_witness :
  repo_snapshots sample_fs "repos_raw_2024-03-10.json" = Some [repo_A; repo_B; repo_C]
  /\ exists s,
    generate_summary_report sample_fs "2024-03-10T06:00:00"
      "repos_raw_2024-03-10.json" None = ok s
    /\ (forall k c, In (k, c) (top_languages s) ->
                    c = count_where language (Some k) [repo_A; repo_B; repo_C] /\ 0 < c)
    /\ top_languages s
       = language_counts (filter (fun x => is_present (language x)) [repo_A; repo_B; repo_C])
    /\ zsum (map snd (top_languages s)) + count_where language None [repo_A; repo_B; repo_C]
       <= total_repositories s
    /\ (forall k c, In (k, c) (license_distribution s) ->
                    c = count_where license (Some k) [repo_A; repo_B; repo_C] /\ 0 < c)
    /\ license_distribution s
       = license_counts (filter (fun x => is_present (license x)) [repo_A; repo_B; repo_C])
    /\ zsum (map snd (license_distribution s)) + count_where license None [repo_A; repo_B; repo_C]
       <= total_repositories s
    /\ repositories_without_license s = count_where license None [repo_A; repo_B; repo_C].
Proof.
  split; [reflexivity|].
  apply (@histograms_leave_null_records_out sample_fs "2024-03-10T06:00:00"
           "repos_raw_2024-03-10.json" None repo_A [repo_B; repo_C]).
  reflexivity.
Defined.

(** C1 fails as stated: B has no language and no record has a license;
    the language histogram holds the two Python records only, the
    license histogram is empty, and neither has a row for the unknown. *)
Lemma null_language_is_dropped_from_histogram :
  exists s,
    generate_summary_report sample_fs "2024-03-10T06:00:00"
      "repos_raw_2024-03-10.json" None = ok s
    /\ language repo_B = None
    /\ top_languages s = [("Python", 2)]
    /\ dict_get "unknown" (top_languages s) = None
    /\ license_distribution s = []
    /\ dict_get "unknown" (license_distribution s) = None.
Proof.
  eexists. split; [reflexivity|]. repeat split.
Qed.

(* ===================================================================== *)
(** ** Organization breakdown *)

Lemma org_stats_keys (repos : list RepositoryRecord) :
  map fst (org_stats repos) = sorted_strings (unique (map organization repos)).
Proof.
  unfold org_stats, groupby_organization. rewrite !map_map. simpl. apply map_id.
Qed.

Lemma org_stats_int64_column (w : RepositoryRecord -> Z) (col : OrgStats -> Z)
    (repos : list RepositoryRecord) :
  (forall g, col (agg_group g) = int64_sum (map w g)) ->
  map (fun kv => col (snd kv)) (org_stats repos)
  = map (fun k => wrap64 (group_sum organization w repos k))
        (sorted_strings (unique (map organization repos))).
Proof.
  intro H. unfold org_stats, groupby_organization. rewrite !map_map.
  apply map_ext. intro o. simpl. apply H.
Qed.

Lemma org_keys_nodup (repos : list RepositoryRecord) :
  NoDup (sorted_strings (unique (map organization repos))).
Proof.
  eapply Permutation_NoDup; [apply Permutation_sym, stable_sort_perm|].
  apply NoDup_unique.
Qed.

Lemma org_keys_cover (repos : list RepositoryRecord) (x : RepositoryRecord) :
  In x repos -> In (organization x) (sorted_strings (unique (map organization repos))).
Proof. intro H. apply stable_sort_In, In_unique, in_map, H. Qed.

(** A summed column of the breakdown against the sum of the whole
    column: the two agree modulo [2^64], and they are equal, and equal to
    the sum of the values, when the values are not negative and add up to
    less than [2^63]. *)
Lemma breakdown_int64_column (w : RepositoryRecord -> Z) (col : OrgStats -> Z)
    (repos : list RepositoryRecord) :
  (forall g, col (agg_group g) = int64_sum (map w g)) ->
  wrap64 (zsum (map (fun kv => col (snd kv)) (org_stats repos))) = int64_sum (map w repos)
  /\ ((forall x, In x repos -> 0 <= w x) ->
      zsum (map w repos) < 2 ^ 63 ->
      zsum (map (fun kv => col (snd kv)) (org_stats repos)) = zsum (map w repos)
      /\ int64_sum (map w repos) = zsum (map w repos)).
Proof.
  intro H. rewrite (org_stats_int64_column w col repos H). unfold int64_sum.
  assert (T : zsum (map (group_sum organization w repos)
                        (sorted_strings (unique (map organization repos))))
              = zsum (map w repos)).
  { apply grouped_sums_total; [apply org_keys_nodup|]. intros a Ha. now apply org_keys_cover. }
  split.
  - now rewrite wrap64_zsum_map, T.
  - intros Hpos Hlt.
    assert (Z0 : 0 <= zsum (map w repos)).
    { pose proof (zsum_filter_bounds w (fun _ => false) repos Hpos) as B.
      lia. }
    split; [|apply wrap64_small; lia].
    rewrite <- T. f_equal. apply map_ext. intro k. apply wrap64_small.
    unfold group_sum.
    pose proof (zsum_filter_bounds w (fun a => String.eqb (organization a) k) repos Hpos).
    lia.
Qed.

(** C9, as the code has it: the star sums of the rows of the organization
    breakdown and the [total_stars] of the report are [int64] sums.  On a
    snapshot whose star counts are not negative and add up to less than
    [2^63] the row sums add up to [total_stars], which is then the sum of
    the star counts; on every snapshot of [int64] star counts the two
    agree modulo [2^64].  The rows are the partition of the snapshot by
    organization, one row for each organization. *)
Theorem organization_star_sums_add_up_within_int64 (fs : FileSystem) (now repo_file : string)
    (contrib_file : option string) (r : RepositoryRecord) (rest : list RepositoryRecord) :
  repo_snapshots fs repo_file = Some (r :: rest) ->
  exists s,
    generate_summary_report fs now repo_file contrib_file = ok s
    /\ ((forall x, In x (r :: rest) -> 0 <= stars x) ->
        zsum (map stars (r :: rest)) < 2 ^ 63 ->
        zsum (map (fun kv => stars_sum (snd kv)) (organization_breakdown s)) = total_stars s
        /\ total_stars s = zsum (map stars (r :: rest)))
    /\ ((forall x, In x (r :: rest) -> int64 (stars x)) ->
        wrap64 (zsum (map (fun kv => stars_sum (snd kv)) (organization_breakdown s)))
        = total_stars s
        /\ forall o st, In (o, st) (organization_breakdown s) ->
             stars_sum st
             = int64_sum (map stars (filter (fun x => String.eqb (organization x) o)
                                            (r :: rest))))
    /\ NoDup (map fst (organization_breakdown s))
    /\ (forall x, In x (r :: rest) -> In (organization x) (map fst (organization_breakdown s))).
Proof.
  intro H.
  destruct (@generate_summary_report_fields fs now repo_file contrib_file r rest H)
    as (s & Hs & _ & _ & Ht & Ho & _).
  exists s. split; [exact Hs|]. rewrite Ho, Ht, org_stats_keys.
  destruct (breakdown_int64_column stars stars_sum (r :: rest) (fun g => eq_refl))
    as [Hmod Hexact].
  split; [|split; [|split]].
  - intros Hpos Hlt. destruct (Hexact Hpos Hlt) as [E1 E2]. rewrite E2. auto.
  - intros _. split; [exact Hmod|].
    intros o st Hin. unfold org_stats, groupby_organization in Hin.
    rewrite map_map in Hin. apply in_map_iff in Hin.
    destruct Hin as (k & [= <- <-] & _). reflexivity.
  - apply org_keys_nodup.
  - intros x Hx. now apply org_keys_cover.
Qed.

Lemma organization_star_sums_add_up_within_int64_witness :
  repo_snapshots sample_fs "repos_raw_2024-03-10.json" = Some [repo_A; repo_B; repo_C]
  /\ exists s,
    generate_summary_report sample_fs "2024-03-10T06:00:00"
      "repos_raw_2024-03-10.json" None = ok s
    /\ zsum (map (fun kv => stars_sum (snd kv)) (organization_breakdown s)) = total_stars s
    /\ total_stars s = zsum (map stars [repo_A; repo_B; repo_C])
    /\ total_stars s = 700.
Proof.
  split; [reflexivity|].
  destruct (@organization_star_sums_add_up_within_int64 sample_fs "2024-03-10T06:00:00"
              "repos_raw_2024-03-10.json" None repo_A [repo_B; repo_C] eq_refl)
    as (s & Hs & Hexact & _).
  exists s. split; [exact Hs|].
  destruct Hexact as [E1 E2].
  - intros x [<-|[<-|[<-|[]]]]; vm_compute; discriminate.
  - vm_compute. reflexivity.
  - split; [exact E1|]. split; [exact E2|]. rewrite E2. reflexivity.
Defined.

(** C9 fails as stated: with [2^62] stars in each of two organizations
    the two row sums are [2^62] each and add up to [2^63], and the report
    gives [- 2^63] as [total_stars]. *)
Lemma star_total_wraps_around :
  exists s,
    generate_summary_report wide_fs "2024-03-10T06:00:00" "repos_raw_wide.json" None = ok s
    /\ map (fun kv => (fst kv, stars_sum (snd kv))) (organization_breakdown s)
       = [("acme", 2 ^ 62); ("beta", 2 ^ 62)]
    /\ zsum (map (fun kv => stars_sum (snd kv)) (organization_breakdown s)) = 2 ^ 63
    /\ total_stars s = - 2 ^ 63
    /\ zsum (map (fun kv => stars_sum (snd kv)) (organization_breakdown s)) <> total_stars s.
Proof.
  eexists. split; [reflexivity|]. split; [reflexivity|]. split; [reflexivity|].
  split; [reflexivity|]. vm_compute. discriminate.
Qed.

(* ===================================================================== *)
(** ** The optional contributor section *)

Lemma generate_summary_report_inv (fs : FileSystem) (now repo_file : string)
    (contrib_file : option string) (s : SummaryReport) :
  generate_summary_report fs now repo_file contrib_file = ok s ->
  exists r rest,
    repo_snapshots fs repo_file = Some (r :: rest)
    /\ load_contribution_analysis fs contrib_file = ok (contribution_analysis s).
Proof.
  unfold generate_summary_report.
  destruct (repo_snapshots fs repo_file) as [[|r rest]|]; try discriminate.
  destruct (load_contribution_analysis_ok fs contrib_file) as [a Ha]. rewrite Ha.
  simpl. intros [= <-]. exists r, rest. split; reflexivity.
Qed.

Lemma load_contribution_analysis_some (fs : FileSystem) (contrib_file : option string)
    (a : ContributionAnalysis) :
  load_contribution_analysis fs contrib_file = ok (Some a) ->
  exists path e l,
    contrib_file = Some path
    /\ contrib_snapshots fs path = Some (e :: l)
    /\ contribution_section (e :: l) = ok a.
Proof.
  unfold load_contribution_analysis.
  destruct contrib_file as [path|]; [|discriminate].
  destruct (String.eqb path ""); [discriminate|].
  destruct (contrib_snapshots fs path) as [[|e l]|] eqn:E; try discriminate.
  destruct (contribution_section_ok e l) as (a' & Ha' & _). rewrite Ha'. simpl.
  intros [= <-]. exists path, e, l. auto.
Qed.

Lemma load_contribution_analysis_absent (fs : FileSystem) (path : string) :
  contrib_snapshots fs path = None \/ contrib_snapshots fs path = Some [] ->
  load_contribution_analysis fs (Some path) = ok None.
Proof.
  unfold load_contribution_analysis.
  destruct (String.eqb path ""); [reflexivity|]. intros [-> | ->]; reflexivity.
Qed.

(** C10: a contributor path at which there is no file, or whose file
    holds the empty array, gives the report of a run without contributor
    input, with no [contribution_analysis]; the report is never lost to a
    division by zero, since a section that is present was computed over a
    list with an entry, whose length is the divisor. *)
Theorem missing_or_empty_contributions_as_absent (fs : FileSystem)
    (now repo_file path : string) :
  contrib_snapshots fs path = None \/ contrib_snapshots fs path = Some [] ->
  generate_summary_report fs now repo_file (Some path)
  = generate_summary_report fs now repo_file None
  /\ (forall s, generate_summary_report fs now repo_file (Some path) = ok s ->
                contribution_analysis s = None)
  /\ (forall contrib_file,
        generate_summary_report fs now repo_file contrib_file <> raise ZeroDivisionError)
  /\ (forall contrib_file s a,
        generate_summary_report fs now repo_file contrib_file = ok s ->
        contribution_analysis s = Some a ->
        exists p e l,
          contrib_file = Some p
          /\ contrib_snapshots fs p = Some (e :: l)
          /\ repositories_analyzed a = zlen (e :: l)
          /\ 0 < repositories_analyzed a
          /\ average_contributors_per_repo a
             = Qmake (ca_total_contributors a * 1) (Z.to_pos (repositories_analyzed a))).
Proof.
  intro H. pose proof (@load_contribution_analysis_absent fs path H) as Habs.
  split; [|split; [|split]].
  - unfold generate_summary_report. rewrite Habs. reflexivity.
  - intros s Hs. apply generate_summary_report_inv in Hs.
    destruct Hs as (_ & _ & _ & Hl). rewrite Habs in Hl. now injection Hl.
  - intros contrib_file. unfold generate_summary_report.
    destruct (repo_snapshots fs repo_file) as [[|r rest]|]; try discriminate.
    destruct (load_contribution_analysis_ok fs contrib_file) as [a ->]. discriminate.
  - intros contrib_file s a Hs Ha. apply generate_summary_report_inv in Hs.
    destruct Hs as (_ & _ & _ & Hl). rewrite Ha in Hl.
    apply load_contribution_analysis_some in Hl. destruct Hl as (p & e & l & -> & Hp & Hc).
    destruct (contribution_section_ok e l) as (a' & Ha' & Hn & Ht & _ & Hq).
    rewrite Ha' in Hc. injection Hc as <-.
    exists p, e, l. rewrite Hn, Ht. repeat split; assumption.
Qed.

Lemma missing_or_empty_contributions_as_absent_witness :
  (contrib_snapshots sample_fs "contributions_empty.json" = None
   \/ contrib_snapshots sample_fs "contributions_empty.json" = Some [])
  /\ generate_summary_report sample_fs "2024-03-10T06:00:00"
       "repos_raw_2024-03-10.json" (Some "contributions_empty.json")
     = generate_summary_report sample_fs "2024-03-10T06:00:00"
         "repos_raw_2024-03-10.json" None.
Proof.
  split; [right; reflexivity|].
  apply (@missing_or_empty_contributions_as_absent sample_fs "2024-03-10T06:00:00"
           "repos_raw_2024-03-10.json" "contributions_empty.json").
  right; reflexivity.
Defined.

(* ===================================================================== *)
(** ** Rendering *)

Lemma absent_input_no_section (fs : FileSystem) (now repo_file : string) (s : SummaryReport) :
  generate_summary_report fs now repo_file None = ok s -> contribution_analysis s = None.
Proof.
  intro H. apply generate_summary_report_inv in H. destruct H as (_ & _ & _ & H).
  simpl in H. now injection H.
Qed.

(** The guard of the template does its work: without the section the page
    has no contributor table. *)
Lemma render_omits_absent_section (s : SummaryReport) (rows : list TopContributor) :
  contribution_analysis s = None -> ~ In (TopContributorsTable rows) (render s).
Proof.
  intros H. unfold render. rewrite H. simpl. intuition discriminate.
Qed.

(** The template cannot be compiled, whatever the report. *)
Lemma create_dashboard_html_raises (s : SummaryReport) :
  create_dashboard_html s = raise (TemplateAssertionError "No filter named 'tojsonfilter'.").
Proof. reflexivity. Qed.

(** C7, the code at a report made without contributor input: the report
    has no contributor section and the page body would carry no
    contributor table, but [create_dashboard_html] raises: the template
    names the filter [tojsonfilter], which the environment it is compiled
    in does not have. *)
Theorem dashboard_of_report_without_contributors_raises :
  exists s,
    generate_summary_report sample_fs "2024-03-10T06:00:00"
      "repos_raw_2024-03-10.json" None = ok s
    /\ contribution_analysis s = None
    /\ (forall rows, ~ In (TopContributorsTable rows) (render s))
    /\ create_dashboard_html s
       = raise (TemplateAssertionError "No filter named 'tojsonfilter'.").
Proof.
  eexists. split; [reflexivity|]. split; [reflexivity|]. split; [|reflexivity].
  intro rows. apply render_omits_absent_section. reflexivity.
Qed.

(* ===================================================================== *)
(** ** Collectors *)

Lemma fold_left_append (A B : Type) (f : A -> list B) (l : list A) (acc : list B) :
  fold_left (fun all x => all ++ f x) l acc = acc ++ flat_map f l.
Proof.
  revert acc. induction l as [|x l IH]; intro acc; simpl.
  - now rewrite app_nil_r.
  - now rewrite IH, app_assoc.
Qed.

Lemma collect_all_organizations_flat (api : GitHubApi) (orgs : list string)
    (max_repos : Z) (date : string) :
  collect_all_organizations api orgs max_repos date
  = map (set_collection_date date)
        (flat_map (fun org => collect_organization_repos api org max_repos) orgs).
Proof. unfold collect_all_organizations. now rewrite fold_left_append. Qed.

(** The count that is stored is the length of the list that is stored. *)
Lemma collect_repository_contributors_total (api : GitHubApi) (repo_full_name : string)
    (max_contributors : Z) (info : ContributionData) :
  collect_repository_contributors api repo_full_name max_contributors = Some info ->
  cd_total_contributors info = zlen (cd_contributors info)
  /\ exists listed,
       get_contributors api repo_full_name = ok listed
       /\ cd_contributors info = py_slice_to max_contributors listed.
Proof.
  unfold collect_repository_contributors, contributors_body.
  destruct (get_repo api repo_full_name); [discriminate|].
  destruct (get_contributors api repo_full_name) as [e|listed]; [discriminate|].
  simpl. intros [= <-]. simpl. split; [reflexivity|]. exists listed. auto.
Qed.

Section ContributionLoop.
Variable api : GitHubApi.
Variable max_contributors : Z.
Variable date : string.

Lemma rate_limit_management_events (i : Z) (events : list event) :
    rate_limit_management api i = ok events ->
    events = [] \/ exists r, events = [QuotaInspected r].
  Proof.
    unfold rate_limit_management. destruct (i mod 10 =? 0).
    - destruct (rate_limit_after api i) as [e|q]; [discriminate|].
      simpl. intros [= <-]. right. eauto.
    - intros [= <-]. now left.
  Qed.

  (** The script has no sleep in it. *)
Lemma contribution_loop_never_sleeps (top_repos : list RepositoryRecord) :
    forall i data trace,
      contribution_loop api max_contributors date i top_repos = ok (data, trace) ->
      forall s, ~ In (Sleep s) trace.
  Proof.
    induction top_repos as [|repo rest IH]; intros i data trace H s; simpl in H.
    - injection H as <- <-. simpl. tauto.
    - destruct (rate_limit_management api i) as [e|inspected] eqn:E; [discriminate|].
      simpl in H.
      destruct (contribution_loop api max_contributors date (i + 1) rest)
        as [e|[d t]] eqn:L; [discriminate|].
      simpl in H. injection H as <- <-.
      intros [Hin|Hin]; [discriminate|]. apply in_app_or in Hin.
      destruct Hin as [Hin|Hin]; [|exact (IH _ _ _ L s Hin)].
      apply rate_limit_management_events in E.
      destruct E as [->|[r ->]]; simpl in Hin; intuition discriminate.
  Qed.

Hypothesis quota_answers : forall i, exists q, rate_limit_after api i = ok q.

Lemma rate_limit_management_ok (i : Z) :
    exists events, rate_limit_management api i = ok events.
  Proof.
    unfold rate_limit_management. destruct (i mod 10 =? 0); [|eauto].
    destruct (quota_answers i) as [q ->]. simpl. eauto.
  Qed.

  (** While the quota query answers, the loop runs to its end and appends
      for each repository what that repository alone gives. *)
Lemma contribution_loop_records (top_repos : list RepositoryRecord) :
    forall i, exists trace,
      contribution_loop api max_contributors date i top_repos
      = ok (flat_map (records_of api max_contributors date) top_repos, trace).
  Proof.
    induction top_repos as [|repo rest IH]; intro i; simpl.
    - eauto.
    - destruct (rate_limit_management_ok i) as [events ->].
      destruct (IH (i + 1)) as [trace ->]. simpl. eauto.
  Qed.
End ContributionLoop.

(** C8, as the code has it.  An organization whose fetch raises is
    reported on the console and gives no record, and the run over a list
    with it produces the records of the run over the list without it, the
    organization loop being total.  A repository whose fetch raises is
    reported on the console and left out of the contributor output; the
    run over a list with it ends with the records of the run over the
    list without it as long as the quota query answers, which the loop
    makes after every tenth repository, outside the [try]. *)
Theorem failed_entity_is_reported_and_skipped (api : GitHubApi)
    (max_repos max_contributors : Z) (date : string) :
  (forall org orgs1 orgs2 e,
     organization_body api org max_repos = raise e ->
     organization_error_log api org max_repos = [ErrorCollectingData org e]
     /\ collect_organization_repos api org max_repos = []
     /\ collect_all_organizations api (orgs1 ++ org :: orgs2) max_repos date
        = collect_all_organizations api (orgs1 ++ orgs2) max_repos date)
  /\ (forall repo e,
        contributors_body api (full_name repo) max_contributors = raise e ->
        contributors_error_log api (full_name repo) max_contributors
        = [ErrorCollectingContributors (full_name repo) e]
        /\ collect_repository_contributors api (full_name repo) max_contributors = None
        /\ records_of api max_contributors date repo = [])
  /\ (forall repo repos1 repos2 e,
        contributors_body api (full_name repo) max_contributors = raise e ->
        (forall i, exists q, rate_limit_after api i = ok q) ->
        exists trace_with trace_without,
          contribution_loop api max_contributors date 1 (repos1 ++ repo :: repos2)
          = ok (flat_map (records_of api max_contributors date) (repos1 ++ repos2),
                trace_with)
          /\ contribution_loop api max_contributors date 1 (repos1 ++ repos2)
             = ok (flat_map (records_of api max_contributors date) (repos1 ++ repos2),
                   trace_without)).
Proof.
  assert (R : forall repo e,
             contributors_body api (full_name repo) max_contributors = raise e ->
             collect_repository_contributors api (full_name repo) max_contributors = None).
  { intros repo e Hrepo. unfold collect_repository_contributors. now rewrite Hrepo. }
  split; [|split].
  - intros org orgs1 orgs2 e Horg.
    assert (O : collect_organization_repos api org max_repos = []).
    { unfold collect_organization_repos. now rewrite Horg. }
    split; [unfold organization_error_log; now rewrite Horg|]. split; [exact O|].
    rewrite !collect_all_organizations_flat, !flat_map_app. simpl. now rewrite O.
  - intros repo e Hrepo.
    split; [unfold contributors_error_log; now rewrite Hrepo|].
    split; [exact (R repo e Hrepo)|].
    unfold records_of. now rewrite (R repo e Hrepo).
  - intros repo repos1 repos2 e Hrepo Hquota.
    destruct (@contribution_loop_records api max_contributors date Hquota
                (repos1 ++ repo :: repos2) 1) as [t1 H1].
    destruct (@contribution_loop_records api max_contributors date Hquota
                (repos1 ++ repos2) 1) as [t2 H2].
    exists t1, t2. split; [|exact H2].
    rewrite H1. do 2 f_equal. rewrite !flat_map_app. simpl.
    unfold records_of at 2. now rewrite (R repo e Hrepo).
Qed.

Lemma failed_entity_is_reported_and_skipped_witness :
  organization_body sample_api "ghost" 50 = raise (GithubException 404)
  /\ contributors_body sample_api (full_name (mk_repo "acme" "broken" 9 1 None)) 20
     = raise (GithubException 404)
  /\ (forall i, exists q, rate_limit_after sample_api i = ok q)
  /\ organization_error_log sample_api "ghost" 50
     = [ErrorCollectingData "ghost" (GithubException 404)]
  /\ collect_all_organizations sample_api (["acme"] ++ "ghost" :: ["beta"]) 50 "2024-03-10"
     = collect_all_organizations sample_api (["acme"] ++ ["beta"]) 50 "2024-03-10"
  /\ contributors_error_log sample_api "acme/broken" 20
     = [ErrorCollectingContributors "acme/broken" (GithubException 404)]
  /\ exists trace_with trace_without,
       contribution_loop sample_api 20 "2024-03-10" 1
         ([repo_A] ++ mk_repo "acme" "broken" 9 1 None :: [repo_B])
       = ok (flat_map (records_of sample_api 20 "2024-03-10") ([repo_A] ++ [repo_B]),
             trace_with)
       /\ contribution_loop sample_api 20 "2024-03-10" 1 ([repo_A] ++ [repo_B])
          = ok (flat_map (records_of sample_api 20 "2024-03-10") ([repo_A] ++ [repo_B]),
                trace_without).
Proof.
  pose proof (@failed_entity_is_reported_and_skipped sample_api 50 20 "2024-03-10")
    as (Horg & Hrepo & Hloop).
  split; [reflexivity|]. split; [reflexivity|].
  split; [intro i; eexists; reflexivity|].
  destruct (Horg "ghost" ["acme"] ["beta"] (GithubException 404) eq_refl)
    as (L1 & _ & L2).
  destruct (Hrepo (mk_repo "acme" "broken" 9 1 None) (GithubException 404) eq_refl)
    as (L3 & _).
  split; [exact L1|]. split; [exact L2|]. split; [exact L3|].
  apply (Hloop (mk_repo "acme" "broken" 9 1 None) [repo_A] [repo_B]
           (GithubException 404) eq_refl).
  intro i. eexists. reflexivity.
Defined.

(** C8 fails as stated for the contributor collector.  While the quota
    endpoint refuses, nine repositories are collected without a quota
    query and give nine entries; with a repository that cannot be fetched
    among them the loop reaches its tenth round, makes the quota query,
    which is outside the [try], and the run ends on its exception with no
    output. *)
Lemma failing_repository_brings_the_quota_query :
  contributors_body quota_down_api "acme/broken" 20 = raise (GithubException 404)
  /\ collect_contributions quota_down_api nine_repos_and_a_broken_one 20 30 "2024-03-10"
     = raise (GithubException 403)
  /\ exists data trace,
       collect_contributions quota_down_api nine_repos 20 30 "2024-03-10" = ok (data, trace)
       /\ map repo_full_name data = map full_name nine_repos
       /\ zlen data = 9.
Proof.
  split; [reflexivity|]. split; [reflexivity|].
  do 2 eexists. split; [reflexivity|]. split; reflexivity.
Qed.

(** The client's quota check does not get to its sleep: below the
    threshold the wait cannot be computed, and at the threshold or above
    there is nothing to wait for. *)
Lemma check_rate_limit_does_not_sleep (core : RateLimit) (now : Z) :
  (remaining core < quota_threshold -> check_rate_limit core now = raise TypeError)
  /\ (quota_threshold <= remaining core ->
      check_rate_limit core now = ok [QuotaInspected (remaining core)]).
Proof.
  unfold check_rate_limit.
  destruct (Z.ltb_spec (remaining core) quota_threshold); split; intro; try lia; reflexivity.
Qed.

(** C3, the code at a repository with three contributors and a cap of
    two: the listing is cut before it is counted, so the script stores 2
    as [total_contributors], the length of the capped list, and the
    summary adds up that 2; the scheduler's task counts before it cuts
    and stores 3 for the same repository. *)
Theorem capped_length_is_stored_as_total :
  get_contributors sample_api "acme/one"
  = ok [mk_contributor "alice" 10; mk_contributor "bob" 25; mk_contributor "carol" 1]
  /\ collect_repository_contributors sample_api "acme/one" 2
     = Some {| cd_repo_full_name := "acme/one";
               cd_total_contributors := 2;
               cd_contributors := [mk_contributor "alice" 10; mk_contributor "bob" 25] |}
  /\ (exists data trace a,
        collect_contributions sample_api [mk_repo "acme" "one" 7 1 None] 2 30 "2024-03-10"
        = ok (data, trace)
        /\ map total_contributors data = [2]
        /\ contribution_section data = ok a
        /\ ca_total_contributors a = 2)
  /\ total_contributors
       (dag_repo_contributions sample_api (mk_repo "acme" "one" 7 1 None) "2024-03-10") = 3.
Proof.
  split; [reflexivity|]. split; [reflexivity|]. split; [|reflexivity].
  do 3 eexists. split; [reflexivity|]. split; [reflexivity|]. split; reflexivity.
Qed.

(** C5, the code at eleven repositories with the quota at 5 of 5000: after
    the tenth repository the quota is read and printed, and the eleventh
    fetch follows at once; the run has no sleep in it. *)
Theorem low_quota_is_printed_and_not_waited_for :
  exists data trace,
    collect_contributions sample_api eleven_repos 20 30 "2024-03-10" = ok (data, trace)
    /\ trace = [Fetch "acme/r01"; Fetch "acme/r02"; Fetch "acme/r03"; Fetch "acme/r04";
                Fetch "acme/r05"; Fetch "acme/r06"; Fetch "acme/r07"; Fetch "acme/r08";
                Fetch "acme/r09"; Fetch "acme/r10"; QuotaInspected 5; Fetch "acme/r11"]
    /\ 5 < quota_threshold
    /\ backpressure_respected trace = false
    /\ (forall s, ~ In (Sleep s) trace).
Proof.
  do 2 eexists. split; [reflexivity|]. split; [reflexivity|].
  split; [reflexivity|]. split; [reflexivity|].
  intros s H. simpl in H. intuition discriminate.
Qed.

(* ===================================================================== *)
(** ** Contributor leaderboard *)

Lemma fold_left_flat_map (A B S : Type) (f : S -> B -> S) (g : A -> list B)
    (l : list A) (s : S) :
  fold_left (fun acc a => fold_left f (g a) acc) l s = fold_left f (flat_map g l) s.
Proof.
  revert s. induction l as [|a l IH]; intro s; simpl; [reflexivity|].
  rewrite fold_left_app. apply IH.
Qed.

Lemma existsb_eqb_In (k : string) (ks : list string) :
  existsb (String.eqb k) ks = true <-> In k ks.
Proof.
  rewrite existsb_exists. split.
  - intros (x & Hx & E). apply String.eqb_eq in E. now subst.
  - intro H. exists k. split; [exact H | apply String.eqb_refl].
Qed.

Lemma existsb_unique (k : string) (ks : list string) :
  existsb (String.eqb k) (unique ks) = existsb (String.eqb k) ks.
Proof.
  apply eq_true_iff_eq. now rewrite !existsb_eqb_In, In_unique.
Qed.

Lemma find_app (A : Type) (p : A -> bool) (l1 l2 : list A) :
  find p (l1 ++ l2) = match find p l1 with Some x => Some x | None => find p l2 end.
Proof.
  induction l1 as [|x l1 IH]; simpl; [reflexivity|]. destruct (p x); [reflexivity|exact IH].
Qed.

Section DictFacts.
Variable V : Type.

Lemma dict_mem_table (f : string -> V) (k : string) (ks : list string) :
    dict_mem k (map (fun l => (l, f l)) ks) = existsb (String.eqb k) ks.
  Proof.
    unfold dict_mem. induction ks as [|x ks IH]; simpl; [reflexivity|].
    now rewrite IH, (String.eqb_sym x k).
  Qed.

Lemma dict_update_table (f : string -> V) (g : V -> V) (k : string) (ks : list string) :
    NoDup ks ->
    dict_update k g (map (fun l => (l, f l)) ks)
    = map (fun l => (l, if String.eqb l k then g (f l) else f l)) ks.
  Proof.
    induction 1 as [|x ks Hx Hks IH]; simpl; [reflexivity|].
    destruct (String.eqb_spec x k) as [->|Hne].
    - f_equal. apply map_ext_in. intros l Hl.
      destruct (String.eqb_spec l k); [subst; contradiction|reflexivity].
    - f_equal. exact IH.
  Qed.

Lemma dict_update_snoc (g : V -> V) (k : string) (v : V) (d : list (string * V)) :
    ~ In k (map fst d) ->
    dict_update k g (d ++ [(k, v)]) = d ++ [(k, g v)].
  Proof.
    induction d as [|[k' v'] d IH]; simpl; intro H.
    - now rewrite String.eqb_refl.
    - destruct (String.eqb_spec k' k) as [->|Hne]; [tauto|].
      f_equal. apply IH. tauto.
  Qed.
End DictFacts.

Lemma activity_eq (a b : Activity) :
  total_contributions a = total_contributions b ->
  repos_contributed a = repos_contributed b ->
  act_avatar_url a = act_avatar_url b ->
  act_html_url a = act_html_url b ->
  a = b.
Proof. destruct a, b; simpl; intros; subst; reflexivity. Qed.

Section ActivityOf.
Variable records : list ContributorRecord.
Variable c : ContributorRecord.

Lemma filter_login_snoc (l : string) :
    filter (has_login l) (records ++ [c])
    = filter (has_login l) records ++ (if String.eqb (login c) l then [c] else []).
  Proof.
    rewrite filter_app. simpl. unfold has_login at 2.
    destruct (String.eqb (login c) l); reflexivity.
  Qed.

Lemma find_login_snoc (l : string) :
    find (has_login l) (records ++ [c])
    = match find (has_login l) records with
      | Some x => Some x
      | None => if String.eqb (login c) l then Some c else None
      end.
  Proof.
    rewrite find_app. simpl. unfold has_login at 2.
    destruct (String.eqb (login c) l); reflexivity.
  Qed.

Lemma activity_of_other (l : string) :
    l <> login c -> activity_of l (records ++ [c]) = activity_of l records.
  Proof.
    intro H. unfold activity_of. rewrite filter_login_snoc, find_login_snoc.
    destruct (String.eqb_spec (login c) l) as [E|_]; [congruence|].
    rewrite app_nil_r. destruct (find (has_login l) records); reflexivity.
  Qed.

Lemma activity_of_seen :
    In (login c) (map login records) ->
    activity_of (login c) (records ++ [c])
    = {| total_contributions :=
           total_contributions (activity_of (login c) records) + contributions c;
         repos_contributed := repos_contributed (activity_of (login c) records) + 1;
         act_avatar_url := act_avatar_url (activity_of (login c) records);
         act_html_url := act_html_url (activity_of (login c) records) |}.
  Proof.
    intro H.
    assert (F : exists x, find (has_login (login c)) records = Some x).
    { apply in_map_iff in H. destruct H as (x & E & Hx).
      destruct (find (has_login (login c)) records) eqn:Fd; [eauto|].
      apply (find_none _ _ Fd) in Hx. unfold has_login in Hx.
      rewrite E, String.eqb_refl in Hx. discriminate. }
    destruct F as [x F]. unfold activity_of.
    rewrite filter_login_snoc, find_login_snoc, F, String.eqb_refl.
    apply activity_eq; simpl; try reflexivity.
    - rewrite map_app, zsum_app. simpl. lia.
    - rewrite zlen_app. reflexivity.
  Qed.

Lemma activity_of_new :
    ~ In (login c) (map login records) ->
    activity_of (login c) (records ++ [c])
    = {| total_contributions := 0 + contributions c;
         repos_contributed := 0 + 1;
         act_avatar_url := avatar_url c;
         act_html_url := html_url c |}.
  Proof.
    intro H.
    assert (N : filter (has_login (login c)) records = []
                /\ find (has_login (login c)) records = None).
    { clear -H. induction records as [|x l IH]; [auto|].
      cbn [filter find map In] in *.
      assert (Hx : has_login (login c) x = false).
      { unfold has_login. apply String.eqb_neq. tauto. }
      rewrite Hx. apply IH. tauto. }
    destruct N as [N F]. unfold activity_of.
    rewrite filter_login_snoc, find_login_snoc, F, N, String.eqb_refl.
    apply activity_eq; simpl; try reflexivity. lia.
  Qed.
End ActivityOf.

(** One round of the inner loop takes the table of the records seen so
    far to the table with the new record. *)
Lemma record_contributor_table (records : list ContributorRecord) (c : ContributorRecord) :
  record_contributor (activity_table records) c = activity_table (records ++ [c]).
Proof.
  unfold record_contributor, activity_table.
  rewrite dict_mem_table, existsb_unique, map_app.
  change (map login [c]) with [login c]. rewrite unique_snoc.
  destruct (existsb (String.eqb (login c)) (map login records)) eqn:E;
    cbv beta iota zeta.
  - apply existsb_eqb_In in E.
    rewrite dict_update_table by apply NoDup_unique.
    apply map_ext_in. intros l Hl. f_equal.
    destruct (String.eqb_spec l (login c)) as [->|Hne].
    + symmetry. now apply activity_of_seen.
    + symmetry. now apply activity_of_other.
  - assert (H : ~ In (login c) (map login records)).
    { intro H. apply existsb_eqb_In in H. congruence. }
    rewrite dict_update_snoc.
    + rewrite map_app. simpl. f_equal.
      * apply map_ext_in. intros l Hl. f_equal. symmetry. apply activity_of_other.
        intro El. apply H. rewrite <- El. now apply In_unique.
      * do 2 f_equal. symmetry. now apply activity_of_new.
    + rewrite map_map. simpl. rewrite map_id. now rewrite In_unique.
Qed.

Lemma contributor_activity_table (contrib_data : list RepositoryContribution) :
  contributor_activity contrib_data = activity_table (all_contributors contrib_data).
Proof.
  unfold contributor_activity, all_contributors. rewrite fold_left_flat_map.
  induction (flat_map contributors contrib_data) as [|c records IH] using rev_ind.
  - reflexivity.
  - now rewrite fold_left_app, IH; simpl; rewrite record_contributor_table.
Qed.

Lemma filter_map_comm (A B : Type) (f : A -> B) (p : B -> bool) (l : list A) :
  filter p (map f l) = map f (filter (fun x => p (f x)) l).
Proof.
  induction l as [|x l IH]; simpl; [reflexivity|].
  destruct (p (f x)); simpl; now rewrite IH.
Qed.

Lemma StronglySorted_map (A B : Type) (f : A -> B) (R : B -> B -> Prop) (l : list A) :
  StronglySorted (fun a b => R (f a) (f b)) l -> StronglySorted R (map f l).
Proof.
  induction 1 as [|x l Hs IH Hx]; simpl; constructor; [exact IH|].
  rewrite Forall_forall in *. intros y Hy. apply in_map_iff in Hy.
  destruct Hy as (z & <- & Hz). auto.
Qed.

Lemma NoDup_map_filter (A B : Type) (key : A -> B) (keep : A -> bool) (rows : list A)
    (distinct : NoDup (map key rows)) :
  NoDup (map key (filter keep rows)).
Proof.
  induction rows as [|x rows IH]; simpl; [constructor|].
  simpl in distinct. inversion distinct as [|? ? Hx Hrows]; subst.
  destruct (keep x); simpl; [constructor|]; auto.
  rewrite in_map_iff in *. intros (y & E & Hy). apply Hx. exists y.
  apply filter_In in Hy. tauto.
Qed.

(** Within one entry without repeated logins a login has one record or
    none. *)
Lemma one_record_per_login (l : string) (cl : list ContributorRecord) :
  NoDup (map login cl) ->
  zlen (filter (has_login l) cl) = if existsb (has_login l) cl then 1 else 0.
Proof.
  induction cl as [|x cl IH]; simpl; intro H; [reflexivity|].
  inversion H as [|? ? Hx Hcl]; subst. specialize (IH Hcl).
  destruct (has_login l x) eqn:E; simpl; [|exact IH].
  rewrite zlen_cons, IH.
  destruct (existsb (has_login l) cl) eqn:Ex; [|reflexivity].
  exfalso. apply Hx. apply existsb_exists in Ex. destruct Ex as (y & Hy & Ey).
  unfold has_login in *. apply String.eqb_eq in E, Ey. apply in_map_iff.
  exists y. split; [congruence|exact Hy].
Qed.

(** On a well formed snapshot the records of a login are as many as the
    distinct repositories that list it. *)
Lemma occurrences_are_distinct_repos (l : string) (contrib_data : list RepositoryContribution) :
  well_formed_contributions contrib_data ->
  occurrences_of l contrib_data = zlen (repos_with l contrib_data).
Proof.
  intros [Hrepos Hlogins]. unfold occurrences_of, repos_with, all_contributors.
  rewrite unique_NoDup by (apply NoDup_map_filter, Hrepos).
  clear Hrepos. induction contrib_data as [|e cs IH]; [reflexivity|].
  cbn [flat_map filter]. rewrite filter_app, zlen_app.
  rewrite one_record_per_login by (apply Hlogins; now left).
  rewrite IH by (intros; apply Hlogins; now right).
  destruct (existsb (has_login l) (contributors e)); [|reflexivity].
  cbn [map]. now rewrite zlen_cons.
Qed.

Lemma top_contributors_of_table (contrib_data : list RepositoryContribution) :
  top_contributors_of contrib_data
  = firstn 25 (map contributor_row
                   (sorted_desc (fun kv => total_contributions (snd kv))
                                (activity_table (all_contributors contrib_data)))).
Proof.
  unfold top_contributors_of. now rewrite contributor_activity_table, firstn_map.
Qed.

(** C4, as the code has it: every row of the leaderboard carries the sum
    of the contributions of its login over all contributor records of the
    snapshot, and in [repos_contributed] the number of those records.
    That number is the number of distinct repositories listing the login
    when the snapshot has one entry per repository and one record per
    login in an entry.  The rows are the logins in falling order of the
    sum, logins with the same sum in order of first occurrence in the
    input, cut to 25.  A login with 10 in A and 15 in B gets 25 and 2. *)
Theorem leaderboard_sums_contributions_and_counts_records
    (contrib_data : list RepositoryContribution) :
  (forall row, In row (top_contributors_of contrib_data) ->
     In (tc_login row) (logins_of contrib_data)
     /\ tc_total_contributions row = contributions_of (tc_login row) contrib_data
     /\ tc_repos_contributed row = occurrences_of (tc_login row) contrib_data
     /\ (well_formed_contributions contrib_data ->
         tc_repos_contributed row = zlen (repos_with (tc_login row) contrib_data)))
  /\ (exists ranked,
        top_contributors_of contrib_data = firstn 25 ranked
        /\ Permutation (map tc_login ranked) (logins_of contrib_data)
        /\ StronglySorted (desc tc_total_contributions) ranked
        /\ forall t,
             map tc_login (filter (fun row => tc_total_contributions row =? t) ranked)
             = filter (fun l => contributions_of l contrib_data =? t)
                      (logins_of contrib_data))
  /\ map (fun row => (tc_login row, tc_total_contributions row, tc_repos_contributed row))
         (top_contributors_of sample_contributions)
     = [("alice", 25, 2); ("bob", 25, 1)].
Proof.
  rewrite top_contributors_of_table.
  set (key := fun kv : string * Activity => total_contributions (snd kv)).
  set (table := activity_table (all_contributors contrib_data)).
  split; [|split].
  - intros row Hrow. apply In_firstn, in_map_iff in Hrow.
    destruct Hrow as ([l a] & <- & Hin). apply sorted_desc_In in Hin.
    unfold table, activity_table in Hin. apply in_map_iff in Hin.
    destruct Hin as (l' & [= -> <-] & Hl). simpl.
    split; [exact Hl|]. split; [reflexivity|]. split; [reflexivity|].
    intro Hwf. now apply occurrences_are_distinct_repos.
  - exists (map contributor_row (sorted_desc key table)).
    split; [reflexivity|]. split; [|split].
    + rewrite map_map.
      eapply perm_trans; [apply Permutation_map, sorted_desc_perm|].
      unfold table, activity_table. rewrite map_map. simpl. rewrite map_id.
      apply Permutation_refl.
    + apply StronglySorted_map. exact (sorted_desc_sorted key table).
    + intro t. rewrite filter_map_comm, map_map. simpl.
      change (fun x : string * Activity => total_contributions (snd x) =? t)
        with (fun x : string * Activity => key x =? t).
      rewrite sorted_desc_ties. unfold table, activity_table.
      rewrite filter_map_comm, map_map. simpl. now rewrite map_id.
  - reflexivity.
Qed.

(** C4 fails as stated: in a snapshot that lists the repository [acme/A]
    twice, with [alice] in both entries, the row of [alice] has 2 in
    [repos_contributed], and [alice] is listed by one repository. *)
Lemma repeated_repository_is_counted_twice :
  map repo_full_name repeated_contributions = ["acme/A"; "acme/A"]
  /\ map (fun row => (tc_login row, tc_total_contributions row, tc_repos_contributed row))
         (top_contributors_of repeated_contributions)
     = [("alice", 20, 2)]
  /\ repos_with "alice" repeated_contributions = ["acme/A"]
  /\ zlen (repos_with "alice" repeated_contributions) = 1.
Proof. repeat split. Qed.

(* ===================================================================== *)
(** ** Retention sweeper *)

Lemma pystr_eqb_eq (a b : pystr) : pystr_eqb a b = true <-> a = b.
Proof.
  revert b. induction a as [|x a IH]; intros [|y b]; simpl; split; try congruence.
  - rewrite andb_true_iff, Z.eqb_eq, IH. intros [-> ->]. reflexivity.
  - intros [= -> ->]. rewrite Z.eqb_refl. now apply IH.
Qed.

Lemma pystr_eqb_refl (a : pystr) : pystr_eqb a a = true.
Proof. now apply pystr_eqb_eq. Qed.

Lemma sweep_file_due (current_date : date) (directory : list pystr) (file_name : pystr) :
  sweep_file current_date directory file_name
  = if due current_date file_name then unlink file_name directory else directory.
Proof.
  unfold sweep_file, due.
  destruct (strptime_ymd (date_token file_name)) as [e|d]; simpl; [reflexivity|].
  destruct (7 <? days_between current_date d); reflexivity.
Qed.

Lemma filter_filter (A : Type) (p q : A -> bool) (l : list A) :
  filter p (filter q l) = filter (fun x => q x && p x) l.
Proof.
  induction l as [|x l IH]; simpl; [reflexivity|].
  destruct (q x); simpl; [destruct (p x)|]; now rewrite IH.
Qed.

(** The loop removes from the directory the visited names that are due. *)
Lemma sweep_fold (current_date : date) (files : list pystr) :
  forall directory,
    fold_left (sweep_file current_date) files directory
    = filter (fun g => negb (existsb (fun f => due current_date f && pystr_eqb g f) files))
             directory.
Proof.
  induction files as [|f files IH]; intro directory; simpl.
  - symmetry. now apply filter_id.
  - rewrite IH, sweep_file_due. destruct (due current_date f); simpl.
    + unfold unlink. rewrite filter_filter. apply filter_ext. intro g.
      now rewrite negb_orb.
    + reflexivity.
Qed.

Lemma cleanup_old_files_filter (ds : pystr) (current_date : date) (directory : list pystr) :
  strptime_ymd ds = ok current_date ->
  cleanup_old_files ds directory
  = ok (filter (fun f => negb (expiredb current_date f)) directory).
Proof.
  intro H. unfold cleanup_old_files. rewrite H. simpl. f_equal.
  rewrite sweep_fold. apply filter_ext_in. intros g Hg. f_equal.
  apply eq_true_iff_eq. unfold expiredb, glob_json.
  rewrite existsb_exists, andb_true_iff. split.
  - intros (f & Hf & E). apply andb_true_iff in E. destruct E as [E1 E2].
    apply pystr_eqb_eq in E2. subst f. apply filter_In in Hf. tauto.
  - intros [H1 H2]. exists g. rewrite filter_In, H2, pystr_eqb_refl. auto.
Qed.

(** The glob takes the entries that the pattern stands for. *)
Lemma fnmatch_json_spec (file_name : pystr) :
  fnmatch_json file_name = true <-> json_entry file_name.
Proof.
  unfold fnmatch_json, json_entry, hidden.
  rewrite !andb_true_iff, Nat.leb_le, pystr_eqb_eq, negb_true_iff. split.
  - intros [[Hlen Hend] Hdot]. split.
    + exists (firstn (List.length file_name - 5) file_name).
      rewrite <- Hend. symmetry. apply firstn_skipn.
    + intros [rest ->]. simpl in Hdot. discriminate.
  - intros [[front ->] Hdot]. rewrite length_app.
    change (List.length (codepoints ".json")) with 5%nat.
    replace (List.length front + 5 - 5)%nat with (List.length front) by lia.
    rewrite skipn_app, skipn_all, Nat.sub_diag.
    split; [split; [lia | reflexivity]|].
    destruct front as [|c front].
    + exfalso. apply Hdot. eexists. reflexivity.
    + change (startswith (codepoints ".") ((c :: front) ++ codepoints ".json"))
        with ((46 =? c) && true).
      destruct (Z.eqb_spec 46 c) as [<-|_]; [|reflexivity].
      exfalso. apply Hdot. eexists. reflexivity.
Qed.

(** *** Names written by the tasks *)

Lemma zero_of_digit_char (q : Z) : 0 <= q <= 9 -> zero_of (digit_char q) = Some 48.
Proof.
  intro H.
  assert (E : (48 <=? digit_char q) && (digit_char q <=? 48 + 9) = true).
  { unfold digit_char. apply andb_true_iff. split; apply Z.leb_le; lia. }
  unfold zero_of, decimal_zeros. cbn [find]. now rewrite E.
Qed.

Lemma is_digit_digit_char (q : Z) : 0 <= q <= 9 -> is_digit (digit_char q) = true.
Proof. intro H. unfold is_digit. now rewrite zero_of_digit_char. Qed.

Lemma digit_val_digit_char (q : Z) : 0 <= q <= 9 -> digit_val (digit_char q) = q.
Proof.
  intro H. unfold digit_val. rewrite zero_of_digit_char by exact H.
  unfold digit_char. lia.
Qed.

Lemma re_Y_digits (q1 q2 q3 q4 : Z) (rest : pystr) :
  0 <= q1 <= 9 -> 0 <= q2 <= 9 -> 0 <= q3 <= 9 -> 0 <= q4 <= 9 ->
  re_Y (digit_char q1 :: digit_char q2 :: digit_char q3 :: digit_char q4 :: rest)
  = [(1000 * q1 + 100 * q2 + 10 * q3 + q4, rest)].
Proof.
  intros H1 H2 H3 H4. unfold re_Y.
  rewrite !is_digit_digit_char, !digit_val_digit_char by assumption. reflexivity.
Qed.

Ltac each_case :=
  repeat match goal with
         | H : _ \/ _ |- _ => destruct H as [H|H]
         end;
  subst.

Lemma re_m_digits (m : Z) (rest : pystr) :
  1 <= m <= 12 ->
  exists tl, re_m (digit_char (m / 10) :: digit_char (m mod 10) :: rest) = (m, rest) :: tl.
Proof.
  intro H.
  assert (C : m = 1 \/ m = 2 \/ m = 3 \/ m = 4 \/ m = 5 \/ m = 6 \/ m = 7 \/ m = 8
              \/ m = 9 \/ m = 10 \/ m = 11 \/ m = 12) by lia.
  clear H. each_case; eexists; reflexivity.
Qed.

Lemma re_d_digits (d : Z) :
  1 <= d <= 31 ->
  exists tl, re_d [digit_char (d / 10); digit_char (d mod 10)] = (d, []) :: tl.
Proof.
  intro H.
  assert (C : d = 1 \/ d = 2 \/ d = 3 \/ d = 4 \/ d = 5 \/ d = 6 \/ d = 7 \/ d = 8
              \/ d = 9 \/ d = 10 \/ d = 11 \/ d = 12 \/ d = 13 \/ d = 14 \/ d = 15
              \/ d = 16 \/ d = 17 \/ d = 18 \/ d = 19 \/ d = 20 \/ d = 21 \/ d = 22
              \/ d = 23 \/ d = 24 \/ d = 25 \/ d = 26 \/ d = 27 \/ d = 28 \/ d = 29
              \/ d = 30 \/ d = 31) by lia.
  clear H. each_case; eexists; reflexivity.
Qed.

(** The first match of a sequence is the first match of the continuation
    on the first match of the head. *)
Lemma seq_m_first (A B : Type) (m : matcher A) (k : A -> matcher B)
    (s rest : pystr) (a : A) (tl : list (A * pystr)) (x : B * pystr) :
  m s = (a, rest) :: tl ->
  (exists tl', k a rest = x :: tl') ->
  exists tl'', seq_m m k s = x :: tl''.
Proof.
  intros H [tl' K]. unfold seq_m. rewrite H. simpl. rewrite K. simpl. eauto.
Qed.

Lemma days_in_month_le (y m : Z) : 1 <= m <= 12 -> days_in_month y m <= 31.
Proof.
  intro H. unfold days_in_month. destruct ((m =? 2) && is_leap y); [lia|].
  assert (C : m = 1 \/ m = 2 \/ m = 3 \/ m = 4 \/ m = 5 \/ m = 6 \/ m = 7 \/ m = 8
              \/ m = 9 \/ m = 10 \/ m = 11 \/ m = 12) by lia.
  clear H. each_case; simpl; lia.
Qed.

Lemma valid_date_bounds (d : date) :
  valid_date d ->
  1 <= year d <= 9999 /\ 1 <= month d <= 12 /\ 1 <= day d <= 31.
Proof.
  unfold valid_date, check_date_fields. rewrite !andb_true_iff, !Z.leb_le.
  intros H. pose proof (@days_in_month_le (year d) (month d)). lia.
Qed.

Lemma year_digits (y : Z) :
  1 <= y <= 9999 ->
  0 <= y / 1000 <= 9 /\ 0 <= y / 100 mod 10 <= 9 /\ 0 <= y / 10 mod 10 <= 9
  /\ 0 <= y mod 10 <= 9
  /\ 1000 * (y / 1000) + 100 * (y / 100 mod 10) + 10 * (y / 10 mod 10) + y mod 10 = y.
Proof. intro H. Z.to_euclidean_division_equations. lia. Qed.

Lemma two_digits (n : Z) : 1 <= n <= 31 -> 0 <= n / 10 <= 9 /\ 0 <= n mod 10 <= 9.
Proof. intro H. Z.to_euclidean_division_equations. lia. Qed.

(** A date written as the scheduler writes it parses back to itself. *)
Lemma strptime_ds_of_date (d : date) : valid_date d -> strptime_ymd (ds_of_date d) = ok d.
Proof.
  intro V. destruct (valid_date_bounds V) as (Hy & Hm & Hd).
  destruct (year_digits Hy) as (Q1 & Q2 & Q3 & Q4 & E).
  unfold strptime_ymd, ds_of_date.
  assert (M : exists tl,
             re_ymd [digit_char (year d / 1000); digit_char (year d / 100 mod 10);
                     digit_char (year d / 10 mod 10); digit_char (year d mod 10);
                     ord "-"; digit_char (month d / 10); digit_char (month d mod 10);
                     ord "-"; digit_char (day d / 10); digit_char (day d mod 10)]
             = ((year d, month d, day d), []) :: tl).
  { unfold re_ymd.
    eapply seq_m_first; [apply (re_Y_digits _ Q1 Q2 Q3 Q4)|]. rewrite E.
    eapply seq_m_first; [reflexivity|].
    destruct (re_m_digits (ord "-" :: [digit_char (day d / 10); digit_char (day d mod 10)]) Hm)
      as [tlm Rm].
    eapply seq_m_first; [exact Rm|].
    eapply seq_m_first; [reflexivity|].
    destruct (re_d_digits Hd) as [tld Rd].
    eapply seq_m_first; [exact Rd|]. eauto. }
  destruct M as [tl ->]. unfold valid_date in V. rewrite V. now destruct d.
Qed.

(** What [strptime] returns passed the check of the fields. *)
Lemma strptime_ymd_valid (s : pystr) (d : date) : strptime_ymd s = ok d -> valid_date d.
Proof.
  unfold strptime_ymd. destruct (re_ymd s) as [|[[[y m] dd] rest] tl]; [discriminate|].
  destruct rest; [|discriminate].
  destruct (check_date_fields y m dd) eqn:E; [|discriminate].
  intros [= <-]. exact E.
Qed.

Lemma split_on_single (sep : Z) (s : pystr) :
  Forall (fun c => c <> sep) s -> split_on sep s = [s].
Proof.
  induction s as [|c s IH]; simpl; intro H; [reflexivity|].
  inversion H as [|? ? Hc Hs]; subst.
  destruct (Z.eqb_spec c sep); [contradiction|]. now rewrite IH.
Qed.

Lemma split_on_after_sep (sep : Z) (p s : pystr) :
  exists h t, split_on sep (p ++ sep :: s) = (h :: t) ++ split_on sep s.
Proof.
  induction p as [|c p IH]; simpl.
  - rewrite Z.eqb_refl. exists [], []. reflexivity.
  - destruct IH as (h & t & ->). destruct (c =? sep).
    + exists [], (h :: t). reflexivity.
    + exists (c :: h), t. reflexivity.
Qed.

Lemma last_app_cons (A : Type) (l : list A) (x d : A) (l' : list A) :
  last (l ++ x :: l') d = last (x :: l') d.
Proof.
  induction l as [|y l IH]; [reflexivity|].
  simpl app. rewrite <- IH. simpl. destruct (l ++ x :: l') eqn:E; [|reflexivity].
  now destruct l.
Qed.

(** The last segment of a name is what follows its last separator. *)
Lemma last_segment (sep : Z) (p s : pystr) :
  Forall (fun c => c <> sep) s ->
  last (split_on sep (p ++ sep :: s)) [] = s.
Proof.
  intro H. destruct (split_on_after_sep sep p s) as (h & t & ->).
  rewrite (@split_on_single sep s H). now rewrite last_app_cons.
Qed.

Lemma remove_json_suffix (s : pystr) :
  Forall (fun c => c <> ord ".") s ->
  remove_all (codepoints ".json") 0 (s ++ codepoints ".json") = s.
Proof.
  induction s as [|c s IH]; intro H; [reflexivity|].
  inversion H as [|? ? Hc Hs]; subst.
  change (remove_all (codepoints ".json") 0 ((c :: s) ++ codepoints ".json"))
    with (if (ord "." =? c)
             && startswith (codepoints "json") (s ++ codepoints ".json")
          then remove_all (codepoints ".json") 4 (s ++ codepoints ".json")
          else c :: remove_all (codepoints ".json") 0 (s ++ codepoints ".json")).
  destruct (Z.eqb_spec (ord ".") c) as [E|_]; [congruence|].
  simpl andb. cbv iota. now rewrite IH.
Qed.

Lemma ds_of_date_chars (d : date) :
  valid_date d ->
  Forall (fun c => 48 <= c <= 57 \/ c = ord "-") (ds_of_date d).
Proof.
  intro V. destruct (valid_date_bounds V) as (Hy & Hm & Hd).
  destruct (year_digits Hy) as (Q1 & Q2 & Q3 & Q4 & _).
  assert (1 <= month d <= 31) as Hm' by lia.
  destruct (two_digits Hm') as [M1 M2]. destruct (two_digits Hd) as [D1 D2].
  unfold ds_of_date, digit_char.
  repeat (apply Forall_cons; [first [left; lia | now right]|]).
  apply Forall_nil.
Qed.

Lemma ds_of_date_without (d : date) (sep : Z) :
  valid_date d -> ~ 48 <= sep <= 57 -> sep <> ord "-" ->
  Forall (fun c => c <> sep) (ds_of_date d).
Proof.
  intros V H1 H2. eapply Forall_impl; [|apply ds_of_date_chars, V].
  intros c [Hc|Hc] E; subst; [lia|congruence].
Qed.

(** The token of a dated name is its date. *)
Lemma date_token_dated_name (front : pystr) (d : date) :
  valid_date d -> date_token (dated_name front d) = ds_of_date d.
Proof.
  intro V. unfold date_token, dated_name.
  rewrite last_segment.
  - apply remove_json_suffix.
    apply ds_of_date_without; [exact V|change (ord ".") with 46; lia|discriminate].
  - apply Forall_app. split.
    + apply ds_of_date_without; [exact V|change (ord "_") with 95; lia|discriminate].
    + simpl. repeat (apply Forall_cons; [discriminate|]). apply Forall_nil.
Qed.

Lemma json_entry_dated_name (front : pystr) (d : date) :
  ~ hidden front -> json_entry (dated_name front d).
Proof.
  intro Hf. unfold json_entry, dated_name. split.
  - exists (front ++ ord "_" :: ds_of_date d).
    rewrite <- app_assoc. reflexivity.
  - intros [rest E]. destruct front as [|c front].
    + discriminate E.
    + apply Hf. exists front. simpl in E. congruence.
Qed.

Lemma expiredb_dated_name (current_date : date) (front : pystr) (d : date) :
  valid_date d -> ~ hidden front ->
  expiredb current_date (dated_name front d) = (7 <? days_between current_date d).
Proof.
  intros V Hf. unfold expiredb, due.
  rewrite (proj2 (fnmatch_json_spec _) (json_entry_dated_name d Hf)).
  now rewrite date_token_dated_name, strptime_ds_of_date.
Qed.

(** *** The calendar and the day numbers *)

Lemma leap_year_is_leap (y : Z) : leap_year y = is_leap y.
Proof.
  unfold leap_year, is_leap.
  destruct (Z.eqb_spec (y mod 4) 0), (Z.eqb_spec (y mod 100) 0),
           (Z.eqb_spec (y mod 400) 0); try reflexivity; exfalso;
    Z.to_euclidean_division_equations; lia.
Qed.

Ltac each_month m :=
  let C := fresh "C" in
  assert (C : m = 1 \/ m = 2 \/ m = 3 \/ m = 4 \/ m = 5 \/ m = 6 \/ m = 7 \/ m = 8
              \/ m = 9 \/ m = 10 \/ m = 11 \/ m = 12) by lia;
  repeat match goal with
         | H : _ \/ _ |- _ => destruct H as [H|H]
         end;
  subst m.

Lemma month_length_days_in_month (y m : Z) :
  1 <= m <= 12 -> month_length y m = days_in_month y m.
Proof.
  intro H. unfold month_length, days_in_month. rewrite leap_year_is_leap.
  each_month m; simpl; destruct (is_leap y); reflexivity.
Qed.

Lemma valid_date_calendar (d : date) : valid_date d <-> calendar_date d.
Proof.
  unfold valid_date, calendar_date, check_date_fields.
  rewrite !andb_true_iff, !Z.leb_le. split.
  - intros H. rewrite month_length_days_in_month by lia. lia.
  - intros H. rewrite <- month_length_days_in_month by lia. lia.
Qed.

Lemma calendar_date_day (d : date) : calendar_date d -> day_of_a_month d.
Proof. unfold calendar_date, day_of_a_month. tauto. Qed.

Lemma month_length_bounds (y m : Z) : 28 <= month_length y m <= 31.
Proof.
  unfold month_length. destruct (m =? 2); [destruct (leap_year y); lia|].
  destruct ((m =? 4) || (m =? 6) || (m =? 9) || (m =? 11)); lia.
Qed.

Lemma tomorrow_day (d : date) : day_of_a_month d -> day_of_a_month (tomorrow d).
Proof.
  unfold day_of_a_month, tomorrow. intros [Hm Hd].
  destruct (Z.ltb_spec (day d) (month_length (year d) (month d))); simpl.
  - lia.
  - destruct (Z.ltb_spec (month d) 12); simpl.
    + pose proof (month_length_bounds (year d) (month d + 1)). lia.
    + pose proof (month_length_bounds (year d + 1) 1). lia.
Qed.

Lemma days_before_year_step (y : Z) :
  days_before_year (y + 1) = days_before_year y + 365 + (if is_leap y then 1 else 0).
Proof.
  unfold days_before_year, is_leap. replace (y + 1 - 1) with y by lia.
  destruct (Z.eqb_spec (y mod 4) 0), (Z.eqb_spec (y mod 100) 0),
           (Z.eqb_spec (y mod 400) 0); simpl;
    Z.to_euclidean_division_equations; lia.
Qed.

Lemma days_before_month_step (y m : Z) :
  1 <= m <= 11 ->
  days_before_month y (m + 1) = days_before_month y m + month_length y m.
Proof.
  intro H. unfold days_before_month, month_length. rewrite leap_year_is_leap.
  assert (C : m = 1 \/ m = 2 \/ m = 3 \/ m = 4 \/ m = 5 \/ m = 6 \/ m = 7 \/ m = 8
              \/ m = 9 \/ m = 10 \/ m = 11) by lia.
  clear H. each_case; simpl; destruct (is_leap y); reflexivity.
Qed.

Lemma days_before_december (y : Z) :
  days_before_month y 12 + month_length y 12 = 365 + (if is_leap y then 1 else 0).
Proof. unfold days_before_month, month_length. simpl. destruct (is_leap y); reflexivity. Qed.

(** The day number of the next day is the next number. *)
Lemma toordinal_tomorrow (d : date) :
  day_of_a_month d -> toordinal (tomorrow d) = toordinal d + 1.
Proof.
  unfold day_of_a_month, tomorrow, toordinal. intros [Hm Hd].
  destruct (Z.ltb_spec (day d) (month_length (year d) (month d))); simpl.
  - lia.
  - destruct (Z.ltb_spec (month d) 12); simpl.
    + rewrite days_before_month_step by lia. lia.
    + assert (month d = 12) as E by lia.
      pose proof (days_before_december (year d)) as D. rewrite <- E in D at 1 2.
      rewrite days_before_year_step.
      change (days_before_month (year d + 1) 1) with 0. lia.
Qed.

Lemma days_later_day (n : nat) (d : date) :
  day_of_a_month d -> day_of_a_month (days_later n d).
Proof.
  intro H. induction n as [|n IH]; [exact H|]. simpl. now apply tomorrow_day.
Qed.

Lemma toordinal_days_later (n : nat) (d : date) :
  day_of_a_month d -> toordinal (days_later n d) = toordinal d + Z.of_nat n.
Proof.
  intro H. induction n as [|n IH]; [simpl; lia|].
  change (days_later (S n) d) with (tomorrow (days_later n d)).
  rewrite toordinal_tomorrow by now apply days_later_day. lia.
Qed.

Lemma days_before_year_mono (y1 y2 : Z) :
  y1 <= y2 -> days_before_year y1 <= days_before_year y2.
Proof.
  intro H. replace y2 with (y1 + Z.of_nat (Z.to_nat (y2 - y1))) by lia.
  induction (Z.to_nat (y2 - y1)) as [|n IH]; [replace (y1 + Z.of_nat 0) with y1; lia|].
  replace (y1 + Z.of_nat (S n)) with (y1 + Z.of_nat n + 1) by lia.
  rewrite days_before_year_step. destruct (is_leap (y1 + Z.of_nat n)); lia.
Qed.

Lemma days_before_month_mono (y m1 m2 : Z) :
  1 <= m1 -> m1 <= m2 -> m2 <= 12 ->
  days_before_month y m1 <= days_before_month y m2.
Proof.
  intros H1 H H2. replace m2 with (m1 + Z.of_nat (Z.to_nat (m2 - m1))) in * by lia.
  induction (Z.to_nat (m2 - m1)) as [|n IH]; [replace (m1 + Z.of_nat 0) with m1; lia|].
  replace (m1 + Z.of_nat (S n)) with (m1 + Z.of_nat n + 1) in * by lia.
  rewrite days_before_month_step by lia.
  pose proof (month_length_bounds y (m1 + Z.of_nat n)). lia.
Qed.

(** Day numbers follow the order of the calendar: first the year, then
    the month, then the day. *)
Lemma toordinal_by_year (d1 d2 : date) :
  day_of_a_month d1 -> day_of_a_month d2 -> year d1 < year d2 ->
  toordinal d1 < toordinal d2.
Proof.
  unfold day_of_a_month, toordinal. intros [M1 D1] [M2 D2] H.
  pose proof (@days_before_year_mono (year d1 + 1) (year d2)) as Y.
  rewrite days_before_year_step in Y.
  pose proof (@days_before_month_mono (year d1) (month d1) 12) as B1.
  pose proof (days_before_december (year d1)) as Dec.
  pose proof (@days_before_month_mono (year d2) 1 (month d2)) as B2.
  change (days_before_month (year d2) 1) with 0 in B2.
  assert (L : days_before_month (year d1) (month d1) + day d1
              <= 365 + (if is_leap (year d1) then 1 else 0)).
  { destruct (Z.eq_dec (month d1) 12) as [E|N].
    - rewrite E in *. lia.
    - pose proof (@days_before_month_step (year d1) (month d1)) as S1.
      pose proof (@days_before_month_mono (year d1) (month d1 + 1) 12) as S2.
      pose proof (month_length_bounds (year d1) 12). lia. }
  lia.
Qed.

Lemma toordinal_by_month (d1 d2 : date) :
  day_of_a_month d1 -> day_of_a_month d2 -> year d1 = year d2 ->
  month d1 < month d2 -> toordinal d1 < toordinal d2.
Proof.
  unfold day_of_a_month, toordinal. intros [M1 D1] [M2 D2] E H. rewrite <- E in *.
  pose proof (@days_before_month_step (year d1) (month d1)) as S1.
  pose proof (@days_before_month_mono (year d1) (month d1 + 1) (month d2)) as S2.
  lia.
Qed.

Lemma toordinal_inj (d1 d2 : date) :
  day_of_a_month d1 -> day_of_a_month d2 -> toordinal d1 = toordinal d2 -> d1 = d2.
Proof.
  intros H1 H2 E.
  assert (Y : year d1 = year d2).
  { destruct (Z.lt_total (year d1) (year d2)) as [L|[L|L]]; [|exact L|].
    - pose proof (toordinal_by_year H1 H2 L). lia.
    - pose proof (toordinal_by_year H2 H1 L). lia. }
  assert (M : month d1 = month d2).
  { destruct (Z.lt_total (month d1) (month d2)) as [L|[L|L]]; [|exact L|].
    - pose proof (toordinal_by_month H1 H2 Y L). lia.
    - pose proof (@toordinal_by_month d2 d1 H2 H1 (eq_sym Y) L). lia. }
  assert (D : day d1 = day d2).
  { unfold toordinal in E. rewrite Y, M in E. lia. }
  destruct d1, d2. simpl in *. congruence.
Qed.

(** Counting days on the calendar and subtracting day numbers come to
    the same. *)
Lemma days_later_days_between (n : nat) (d ref : date) :
  day_of_a_month d -> day_of_a_month ref ->
  (days_later n d = ref <-> days_between ref d = Z.of_nat n).
Proof.
  intros Hd Href. unfold days_between. split.
  - intros <-. rewrite toordinal_days_later by exact Hd. lia.
  - intro E. apply toordinal_inj; [now apply days_later_day | exact Href |].
    rewrite toordinal_days_later by exact Hd. lia.
Qed.

Lemma older_than_days_between (k : nat) (ref d : date) :
  day_of_a_month d -> day_of_a_month ref ->
  (older_than k ref d <-> Z.of_nat k < days_between ref d).
Proof.
  intros Hd Href. unfold older_than. split.
  - intros (n & Hn & E). apply (days_later_days_between n Hd Href) in E. lia.
  - intro H. exists (Z.to_nat (days_between ref d)). split; [lia|].
    apply (days_later_days_between _ Hd Href). lia.
Qed.

Lemma valid_date_day (d : date) : valid_date d -> day_of_a_month d.
Proof. intro V. now apply calendar_date_day, valid_date_calendar. Qed.

(** For a name whose token parses, the test of the loop says that the
    date lies more than seven days before the reference date. *)
Lemma due_overdue (current_date : date) (file_name : pystr) :
  valid_date current_date ->
  (due current_date file_name = true <-> overdue current_date file_name).
Proof.
  intro V. unfold due, overdue.
  destruct (strptime_ymd (date_token file_name)) as [e|d] eqn:E.
  - split; [discriminate|]. intros (d & H & _). discriminate.
  - pose proof (strptime_ymd_valid _ E) as Vd.
    rewrite Z.ltb_lt. split.
    + intro H. exists d. split; [reflexivity|].
      apply older_than_days_between; [now apply valid_date_day ..|exact H].
    + intros (d' & [= <-] & H).
      now apply (older_than_days_between 7 (valid_date_day Vd) (valid_date_day V)) in H.
Qed.




(* ===================================================================== *)
(** * Further properties *)

(** ** Repository collector *)

Lemma length_py_slice_to (A : Type) (n : Z) (l : list A) :
  zlen (py_slice_to n l)
  = if 0 <=? n then Z.min n (zlen l) else Z.max 0 (zlen l + n).
Proof.
  unfold py_slice_to, zlen. destruct (Z.leb_spec 0 n); rewrite length_firstn; lia.
Qed.

Lemma py_slice_to_prefix (A : Type) (n : Z) (l : list A) :
  exists k, py_slice_to n l = firstn k l.
Proof. unfold py_slice_to. destruct (0 <=? n); eauto. Qed.

Section ProcessRepos.
Variable api : GitHubApi.
Variable org_name : string.

(** What the loop returns, when it returns, is one record per repository,
    in order. *)
Lemma process_repos_inv (repos : list ApiRepository) :
  forall i repo_data,
    process_repos api org_name i repos = ok repo_data ->
    repo_data = map (fun repo => repo_data_of org_name repo (topics_or_empty api repo)) repos.
Proof.
  induction repos as [|repo rest IH]; intros i repo_data H; simpl in H.
  - now injection H as <-.
  - destruct (get_topics api (api_full_name repo)) as [e|t] eqn:T; [discriminate|].
    simpl in H.
    destruct (if i mod 20 =? 0
              then rate_limit_check (rate_limit_in_org api org_name i)
              else ok true) as [e|b]; [discriminate|]. simpl in H.
    destruct (process_repos api org_name (i + 1) rest) as [e|l] eqn:L; [discriminate|].
    simpl in H. injection H as <-. cbn [map]. unfold topics_or_empty at 1. rewrite T.
    simpl. f_equal. exact (IH _ _ L).
Qed.

Lemma process_repos_topics_failure (repos : list ApiRepository) (repo : ApiRepository)
    (e : exn) :
  In repo repos -> get_topics api (api_full_name repo) = raise e ->
  forall i, exists e', process_repos api org_name i repos = raise e'.
Proof.
  intros Hin He. induction repos as [|r rest IH]; [contradiction|]. intro i. simpl.
  destruct Hin as [->|Hin].
  - rewrite He. simpl. eauto.
  - destruct (get_topics api (api_full_name r)) as [e0|t]; simpl; [eauto|].
    destruct (if i mod 20 =? 0
              then rate_limit_check (rate_limit_in_org api org_name i)
              else ok true) as [e0|b]; simpl; [eauto|].
    destruct (IH Hin (i + 1)) as [e' ->]. simpl. eauto.
Qed.

Lemma process_repos_ok (repos : list ApiRepository) :
  (forall repo, In repo repos -> exists t, get_topics api (api_full_name repo) = ok t) ->
  (forall i, exists q, rate_limit_in_org api org_name i = ok q) ->
  forall i,
    process_repos api org_name i repos
    = ok (map (fun repo => repo_data_of org_name repo (topics_or_empty api repo)) repos).
Proof.
  intros Ht Hq. induction repos as [|repo rest IH]; intro i; simpl; [reflexivity|].
  unfold topics_or_empty at 1.
  destruct (Ht repo (or_introl eq_refl)) as [t T]. rewrite !T. simpl.
  assert (Q : exists b, (if i mod 20 =? 0
                         then rate_limit_check (rate_limit_in_org api org_name i)
                         else ok true) = ok b).
  { destruct (i mod 20 =? 0); [|eauto]. destruct (Hq i) as [q ->]. simpl. eauto. }
  destruct Q as [b ->]. simpl.
  rewrite IH by (intros; apply Ht; now right). reflexivity.
Qed.
End ProcessRepos.

Lemma collect_organization_repos_cases (api : GitHubApi) (org_name : string) (max_repos : Z) :
  collect_organization_repos api org_name max_repos = []
  \/ exists listed,
       get_repos api org_name = ok listed
       /\ collect_organization_repos api org_name max_repos
          = map (fun repo => repo_data_of org_name repo (topics_or_empty api repo))
                (py_slice_to max_repos listed).
Proof.
  unfold collect_organization_repos, organization_body.
  destruct (get_organization api org_name) as [e|u]; simpl; [now left|].
  destruct (get_repos api org_name) as [e|listed]; simpl; [now left|].
  destruct (process_repos api org_name 1 (py_slice_to max_repos listed)) as [e|l] eqn:P;
    simpl; [now left|].
  right. exists listed. split; [reflexivity|]. exact (process_repos_inv _ _ _ _ P).
Qed.

Lemma organization_records_shape (api : GitHubApi) (org_name : string) (max_repos : Z) :
  (0 <= max_repos -> zlen (collect_organization_repos api org_name max_repos) <= max_repos)
  /\ (forall r, In r (collect_organization_repos api org_name max_repos) ->
                organization r = org_name).
Proof.
  destruct (collect_organization_repos_cases api org_name max_repos)
    as [->|(listed & _ & ->)].
  - split; [intro H; exact H|]. intros r [].
  - split.
    + intro H. unfold zlen. rewrite length_map. fold (zlen (py_slice_to max_repos listed)).
      rewrite length_py_slice_to. destruct (Z.leb_spec 0 max_repos); lia.
    + intros r Hr. apply in_map_iff in Hr. destruct Hr as (repo & <- & _). reflexivity.
Qed.

(** X1: whatever the API answers, an organization yields records of that
    organization only and, for a cap that is not negative, no more than the
    cap. *)
Theorem organization_records_are_capped_and_tagged (api : GitHubApi) (org_name : string)
    (max_repos : Z) :
  (0 <= max_repos -> zlen (collect_organization_repos api org_name max_repos) <= max_repos)
  /\ (forall r, In r (collect_organization_repos api org_name max_repos) ->
                organization r = org_name).
Proof. apply organization_records_shape. Qed.

(** X2: an organization is collected whole or not at all.  When every call
    answers, the records are those of the first [max_repos] repositories of
    the listing, in the order of the listing; when the topics of one of
    them cannot be fetched, the organization yields nothing, the records
    built before the failure included. *)
Theorem organization_is_collected_whole_or_not_at_all (api : GitHubApi)
    (org_name : string) (max_repos : Z) (listed : list ApiRepository) :
  get_organization api org_name = ok tt ->
  get_repos api org_name = ok listed ->
  ((forall repo, In repo (py_slice_to max_repos listed) ->
                 exists t, get_topics api (api_full_name repo) = ok t) ->
   (forall i, exists q, rate_limit_in_org api org_name i = ok q) ->
   collect_organization_repos api org_name max_repos
   = map (fun repo => repo_data_of org_name repo (topics_or_empty api repo))
         (py_slice_to max_repos listed)
   /\ map full_name (collect_organization_repos api org_name max_repos)
      = map api_full_name (py_slice_to max_repos listed))
  /\ (forall repo e, In repo (py_slice_to max_repos listed) ->
                     get_topics api (api_full_name repo) = raise e ->
                     collect_organization_repos api org_name max_repos = []).
Proof.
  intros Ho Hl. unfold collect_organization_repos, organization_body.
  rewrite Ho, Hl. simpl. split.
  - intros Ht Hq. rewrite (process_repos_ok _ _ _ Ht Hq). simpl.
    split; [reflexivity|]. rewrite map_map. reflexivity.
  - intros repo e Hin He.
    destruct (process_repos_topics_failure api org_name _ _ Hin He 1) as [e' ->].
    reflexivity.
Qed.

Lemma organization_is_collected_whole_or_not_at_all_witness :
  get_organization sample_api "acme" = ok tt
  /\ get_repos sample_api "acme" = ok [sample_api_repo "one"; sample_api_repo "two"]
  /\ map full_name (collect_organization_repos sample_api "acme" 1) = ["acme/one"].
Proof.
  split; [reflexivity|]. split; [reflexivity|].
  destruct (@organization_is_collected_whole_or_not_at_all sample_api "acme" 1
              [sample_api_repo "one"; sample_api_repo "two"] eq_refl eq_refl) as [H _].
  destruct H as [_ H].
  - intros repo _. eexists. reflexivity.
  - intro i. eexists. reflexivity.
  - rewrite H. reflexivity.
Defined.

(** The loop gives the same records under any two quota answers. *)
Lemma process_repos_quota_irrelevant (api : GitHubApi) (org_name : string)
    (q1 q2 : string -> Z -> result RateLimit) (repos : list ApiRepository) :
  (forall i, exists q, q1 org_name i = ok q) ->
  (forall i, exists q, q2 org_name i = ok q) ->
  forall i,
    process_repos (with_org_quota api q1) org_name i repos
    = process_repos (with_org_quota api q2) org_name i repos.
Proof.
  intros H1 H2. induction repos as [|repo rest IH]; intro i; simpl; [reflexivity|].
  destruct (get_topics api (api_full_name repo)) as [e|t]; simpl; [reflexivity|].
  rewrite IH. destruct (i mod 20 =? 0); [|reflexivity].
  destruct (H1 i) as [a ->], (H2 i) as [b ->]. reflexivity.
Qed.

(** X3: a low quota never stops or shortens the collection of an
    organization: as long as the quota query answers, the records do not
    depend on what it answers. *)
Theorem low_quota_does_not_change_the_records (api : GitHubApi) (org_name : string)
    (max_repos : Z) (q1 q2 : string -> Z -> result RateLimit) :
  (forall i, exists q, q1 org_name i = ok q) ->
  (forall i, exists q, q2 org_name i = ok q) ->
  collect_organization_repos (with_org_quota api q1) org_name max_repos
  = collect_organization_repos (with_org_quota api q2) org_name max_repos.
Proof.
  intros H1 H2. unfold collect_organization_repos, organization_body. simpl.
  destruct (get_organization api org_name); simpl; [reflexivity|].
  destruct (get_repos api org_name); simpl; [reflexivity|].
  now rewrite (process_repos_quota_irrelevant api org_name q1 q2 _ H1 H2).
Qed.

Lemma low_quota_does_not_change_the_records_witness :
  (forall i, exists q,
      (fun (_ : string) (_ : Z) => ok {| remaining := 0; limit := 5000; reset := Timestamp 0 |})
        "acme" i = ok q)
  /\ collect_organization_repos
       (with_org_quota sample_api
          (fun _ _ => ok {| remaining := 0; limit := 5000; reset := Timestamp 0 |})) "acme" 50
     = collect_organization_repos
         (with_org_quota sample_api
            (fun _ _ => ok {| remaining := 5000; limit := 5000; reset := Timestamp 0 |})) "acme" 50.
Proof.
  split; [intro i; eexists; reflexivity|].
  apply (@low_quota_does_not_change_the_records sample_api "acme" 50
           (fun _ _ => ok {| remaining := 0; limit := 5000; reset := Timestamp 0 |})
           (fun _ _ => ok {| remaining := 5000; limit := 5000; reset := Timestamp 0 |}));
    intro i; eexists; reflexivity.
Defined.

Lemma zlen_flat_map_le (A B : Type) (f : A -> list B) (bound : Z) (l : list A) :
  (forall a, In a l -> zlen (f a) <= bound) ->
  zlen (flat_map f l) <= zlen l * bound.
Proof.
  induction l as [|a l IH]; intro H; [reflexivity|]. cbn [flat_map].
  rewrite zlen_app, zlen_cons.
  assert (zlen (f a) <= bound) by (apply H; now left).
  assert (zlen (flat_map f l) <= zlen l * bound) by (apply IH; intros; apply H; now right).
  lia.
Qed.

(** X4: the output of a run is the concatenation of what each organization
    yields, in the order of the organizations; every record carries the
    date of the run and the name of one of the organizations asked for, and
    for a cap that is not negative there are no more than cap times the
    number of organizations. *)
Theorem run_output_is_stamped_and_bounded (api : GitHubApi) (orgs1 orgs2 : list string)
    (max_repos : Z) (date : string) :
  collect_all_organizations api (orgs1 ++ orgs2) max_repos date
  = collect_all_organizations api orgs1 max_repos date
    ++ collect_all_organizations api orgs2 max_repos date
  /\ (forall r, In r (collect_all_organizations api orgs1 max_repos date) ->
                collection_date r = date /\ In (organization r) orgs1)
  /\ (0 <= max_repos ->
      zlen (collect_all_organizations api orgs1 max_repos date) <= zlen orgs1 * max_repos).
Proof.
  rewrite !collect_all_organizations_flat. split; [|split].
  - now rewrite flat_map_app, map_app.
  - intros r Hr. apply in_map_iff in Hr. destruct Hr as (r0 & <- & Hr0).
    apply in_flat_map in Hr0. destruct Hr0 as (org & Horg & Hr0). simpl.
    split; [reflexivity|].
    now rewrite (proj2 (organization_records_shape api org max_repos) r0 Hr0).
  - intro H. unfold zlen at 1. rewrite length_map.
    apply zlen_flat_map_le. intros org _.
    now apply organization_records_shape.
Qed.

(** ** Contributor collector *)

Lemma StronglySorted_firstn (A : Type) (R : A -> A -> Prop) (k : nat) (l : list A) :
  StronglySorted R l -> StronglySorted R (firstn k l).
Proof.
  intro H. revert k. induction H as [|x l Hs IH Hx]; intro k.
  - rewrite firstn_nil. constructor.
  - destruct k; simpl; constructor; [apply IH|].
    rewrite Forall_forall in *. intros y Hy. apply Hx. eapply In_firstn, Hy.
Qed.

Lemma StronglySorted_split (A : Type) (R : A -> A -> Prop) (k : nat) (l : list A) :
  StronglySorted R l ->
  forall a b, In a (firstn k l) -> In b (skipn k l) -> R a b.
Proof.
  intro H. revert k. induction H as [|x l Hs IH Hx]; intros k a b Ha Hb.
  - rewrite firstn_nil in Ha. contradiction.
  - destruct k; simpl in *; [contradiction|]. destruct Ha as [<-|Ha].
    + rewrite Forall_forall in Hx. apply Hx.
      rewrite <- (firstn_skipn k l). apply in_or_app. now right.
    + exact (IH k a b Ha Hb).
Qed.

(** A cut of the ranked list takes the rows of largest key. *)
Lemma ranked_prefix_spec (A : Type) (key : A -> Z) (k : nat) (l : list A) :
  exists rest,
    Permutation (firstn k (sorted_desc key l) ++ rest) l
    /\ StronglySorted (desc key) (firstn k (sorted_desc key l))
    /\ forall a b, In a (firstn k (sorted_desc key l)) -> In b rest -> key b <= key a.
Proof.
  exists (skipn k (sorted_desc key l)). split; [|split].
  - rewrite firstn_skipn. apply sorted_desc_perm.
  - apply StronglySorted_firstn, sorted_desc_sorted.
  - intros a b. apply (StronglySorted_split k (sorted_desc_sorted key l)).
Qed.

(** X5: the repositories selected for the contributor run are the head of
    the snapshot ranked by falling stars: they are in falling order of
    stars and no repository left out has more stars than one taken.  A cap
    that is not negative takes that many, or all when there are fewer; a
    negative cap, which the command line accepts, leaves out that many
    from the end of the ranking instead of taking none. *)
Theorem selection_takes_the_most_starred (repos_data : list RepositoryRecord)
    (max_repos : Z) :
  (exists rest,
      Permutation (select_top_repos repos_data max_repos ++ rest) repos_data
      /\ StronglySorted (desc stars) (select_top_repos repos_data max_repos)
      /\ forall a b, In a (select_top_repos repos_data max_repos) -> In b rest ->
                     stars b <= stars a)
  /\ zlen (select_top_repos repos_data max_repos)
     = if 0 <=? max_repos then Z.min max_repos (zlen repos_data)
       else Z.max 0 (zlen repos_data + max_repos).
Proof.
  split.
  - unfold select_top_repos.
    destruct (py_slice_to_prefix max_repos (sorted_desc stars repos_data)) as [k ->].
    apply ranked_prefix_spec.
  - unfold select_top_repos. rewrite length_py_slice_to.
    unfold zlen, sorted_desc. now rewrite stable_sort_length.
Qed.

Lemma In_select_top_repos (repos_data : list RepositoryRecord) (max_repos : Z)
    (repo : RepositoryRecord) :
  In repo (select_top_repos repos_data max_repos) -> In repo repos_data.
Proof.
  unfold select_top_repos.
  destruct (py_slice_to_prefix max_repos (sorted_desc stars repos_data)) as [k ->].
  intro H. apply In_firstn in H. now apply sorted_desc_In in H.
Qed.

Section ContributionRun.
Variable api : GitHubApi.
Variable max_contributors : Z.
Variable date : string.

Lemma records_of_entry (repo : RepositoryRecord) (e : RepositoryContribution) :
  In e (records_of api max_contributors date repo) ->
  repo_full_name e = full_name repo
  /\ total_contributors e = zlen (contributors e)
  /\ (0 <= max_contributors -> zlen (contributors e) <= max_contributors)
  /\ contrib_collection_date e = date
  /\ repo_stars e = stars repo
  /\ contrib_organization e = organization repo.
Proof.
  unfold records_of.
  destruct (collect_repository_contributors api (full_name repo) max_contributors)
    as [info|] eqn:C; [|intros []].
  intros [<-|[]]. simpl.
  destruct (collect_repository_contributors_total _ _ _ C) as (T & listed & _ & S).
  assert (N : cd_repo_full_name info = full_name repo).
  { unfold collect_repository_contributors, contributors_body in C.
    destruct (get_repo api (full_name repo)); [discriminate|].
    destruct (get_contributors api (full_name repo)); [discriminate|].
    simpl in C. now injection C as <-. }
  repeat split; try assumption.
  intro H. rewrite S, length_py_slice_to.
  destruct (Z.leb_spec 0 max_contributors); lia.
Qed.

Lemma zlen_records_of (repo : RepositoryRecord) :
  zlen (records_of api max_contributors date repo) <= 1.
Proof.
  unfold records_of.
  destruct (collect_repository_contributors api (full_name repo) max_contributors);
    unfold zlen; simpl; lia.
Qed.

Lemma rate_limit_management_cases (i : Z) (events : list event) :
  rate_limit_management api i = ok events ->
  (i mod 10 <> 0 /\ events = [])
  \/ (i mod 10 = 0 /\ exists q, rate_limit_after api i = ok q
                                /\ events = [QuotaInspected (remaining q)]).
Proof.
  unfold rate_limit_management. destruct (Z.eqb_spec (i mod 10) 0) as [E|E].
  - destruct (rate_limit_after api i) as [e|q]; [discriminate|].
    simpl. intros [= <-]. right. eauto.
  - intros [= <-]. now left.
Qed.

Lemma tenth_step (i : Z) :
  (if i mod 10 =? 0 then 1 else 0) = i / 10 - (i - 1) / 10.
Proof.
  destruct (Z.eqb_spec (i mod 10) 0); Z.to_euclidean_division_equations; lia.
Qed.

(** What a run that ends has appended, fetched and read. *)
Lemma contribution_loop_inv (top_repos : list RepositoryRecord) :
  forall i data trace,
    contribution_loop api max_contributors date i top_repos = ok (data, trace) ->
    data = flat_map (records_of api max_contributors date) top_repos
    /\ fetched trace = map full_name top_repos
    /\ zlen (readings trace) = (i + zlen top_repos - 1) / 10 - (i - 1) / 10.
Proof.
  induction top_repos as [|repo rest IH]; intros i data trace H; simpl in H.
  - injection H as <- <-. repeat split. unfold zlen. simpl.
    replace (i + 0 - 1) with (i - 1) by lia. lia.
  - destruct (rate_limit_management api i) as [e|inspected] eqn:E; [discriminate|].
    simpl in H.
    destruct (contribution_loop api max_contributors date (i + 1) rest)
      as [e|[d t]] eqn:L; [discriminate|].
    simpl in H. injection H as <- <-.
    destruct (IH _ _ _ L) as (Hd & Hf & Hr).
    assert (F : fetched inspected = []
                /\ zlen (readings inspected) = if i mod 10 =? 0 then 1 else 0).
    { destruct (rate_limit_management_cases _ E) as [[N ->]|(N & q & _ & ->)].
      - destruct (Z.eqb_spec (i mod 10) 0); [contradiction|]. now split.
      - rewrite N. now split. }
    destruct F as [F1 F2]. split; [|split].
    + cbn [flat_map]. unfold records_of at 1. now rewrite Hd.
    + unfold fetched in *. cbn [flat_map map]. rewrite flat_map_app, F1, Hf. reflexivity.
    + unfold readings in *. cbn [flat_map]. rewrite flat_map_app.
      cbn [app]. rewrite zlen_app, F2, Hr, tenth_step, zlen_cons.
      replace (i + 1 + zlen rest - 1) with (i + (1 + zlen rest) - 1) by lia.
      replace (i + 1 - 1) with i by lia. lia.
Qed.

Lemma records_sorted (top_repos : list RepositoryRecord) :
  StronglySorted (desc stars) top_repos ->
  StronglySorted (desc repo_stars)
                 (flat_map (records_of api max_contributors date) top_repos).
Proof.
  induction 1 as [|repo rest Hs IH Hx]; [constructor|]. cbn [flat_map].
  assert (T : Forall (fun e => repo_stars e <= stars repo)
                     (flat_map (records_of api max_contributors date) rest)).
  { rewrite Forall_forall in *. intros e He. apply in_flat_map in He.
    destruct He as (r & Hr & He). apply records_of_entry in He.
    destruct He as (_ & _ & _ & _ & -> & _). exact (Hx r Hr). }
  unfold records_of at 1.
  destruct (collect_repository_contributors api (full_name repo) max_contributors);
    [|exact IH].
  simpl. constructor; [exact IH|]. exact T.
Qed.

(** A run of ten repositories or more is lost when the quota query after
    the tenth raises. *)
Lemma contribution_loop_aborts (e : exn) (top_repos : list RepositoryRecord) :
  rate_limit_after api 10 = raise e ->
  forall i, 1 <= i <= 10 -> 10 < i + zlen top_repos ->
            contribution_loop api max_contributors date i top_repos = raise e.
Proof.
  intro H. induction top_repos as [|repo rest IH]; intros i Hi Hn.
  - unfold zlen in Hn. simpl in Hn. lia.
  - simpl. unfold rate_limit_management.
    destruct (Z.eq_dec i 10) as [->|Hne].
    + simpl. rewrite H. reflexivity.
    + assert (N : (i mod 10 =? 0) = false).
      { apply Z.eqb_neq. Z.to_euclidean_division_equations. lia. }
      rewrite N. simpl. rewrite IH; [reflexivity|lia|rewrite zlen_cons in Hn; lia].
Qed.
End ContributionRun.

(** X6: every entry the contributor run writes stores as
    [total_contributors] the length of its own contributor list, which a
    cap that is not negative bounds; it carries the date of the run and
    the name, stars and organization of a repository of the snapshot; the
    entries are in falling order of stars, and there are no more of them
    than repositories selected. *)
Theorem contribution_entries_are_consistent (api : GitHubApi)
    (repos_data : list RepositoryRecord) (max_contributors max_repos : Z) (date : string)
    (data : list RepositoryContribution) (trace : list event) :
  collect_contributions api repos_data max_contributors max_repos date = ok (data, trace) ->
  (forall e, In e data ->
     total_contributors e = zlen (contributors e)
     /\ (0 <= max_contributors -> zlen (contributors e) <= max_contributors)
     /\ contrib_collection_date e = date
     /\ exists repo, In repo repos_data
                     /\ repo_full_name e = full_name repo
                     /\ repo_stars e = stars repo
                     /\ contrib_organization e = organization repo)
  /\ StronglySorted (desc repo_stars) data
  /\ zlen data <= zlen (select_top_repos repos_data max_repos).
Proof.
  unfold collect_contributions. intro H.
  apply contribution_loop_inv in H. destruct H as (-> & _ & _).
  split; [|split].
  - intros e He. apply in_flat_map in He. destruct He as (repo & Hrepo & He).
    apply records_of_entry in He. destruct He as (N & T & B & D & S & O).
    repeat split; try assumption.
    exists repo. split; [now apply In_select_top_repos in Hrepo|]. auto.
  - apply records_sorted.
    unfold select_top_repos.
    destruct (py_slice_to_prefix max_repos (sorted_desc stars repos_data)) as [k ->].
    apply StronglySorted_firstn, sorted_desc_sorted.
  - rewrite <- (Z.mul_1_r (zlen (select_top_repos repos_data max_repos))).
    apply zlen_flat_map_le. intros repo _. apply zlen_records_of.
Qed.

Lemma contribution_entries_are_consistent_witness :
  collect_contributions sample_api [repo_A; repo_B; repo_C] 2 30 "2024-03-10"
  = ok (flat_map (records_of sample_api 2 "2024-03-10") [repo_B; repo_C; repo_A],
        [Fetch "acme/B"; Fetch "beta/C"; Fetch "acme/A"])
  /\ zlen (flat_map (records_of sample_api 2 "2024-03-10") [repo_B; repo_C; repo_A])
     <= zlen (select_top_repos [repo_A; repo_B; repo_C] 30).
Proof.
  split; [reflexivity|].
  apply (@contribution_entries_are_consistent sample_api [repo_A; repo_B; repo_C] 2 30
           "2024-03-10" _ [Fetch "acme/B"; Fetch "beta/C"; Fetch "acme/A"]).
  reflexivity.
Defined.

(** X7: a contributor run that ends has fetched every selected repository
    once, in ranking order, whether the fetch succeeded or not; it has read
    the quota once for every full ten of them, and it has never slept. *)
Theorem run_fetches_each_selected_repository_once (api : GitHubApi)
    (repos_data : list RepositoryRecord) (max_contributors max_repos : Z) (date : string)
    (data : list RepositoryContribution) (trace : list event) :
  collect_contributions api repos_data max_contributors max_repos date = ok (data, trace) ->
  fetched trace = map full_name (select_top_repos repos_data max_repos)
  /\ zlen (readings trace) = zlen (select_top_repos repos_data max_repos) / 10
  /\ forall s, ~ In (Sleep s) trace.
Proof.
  unfold collect_contributions. intro H. split; [|split].
  - now apply contribution_loop_inv in H.
  - apply contribution_loop_inv in H. destruct H as (_ & _ & ->).
    replace (1 + zlen (select_top_repos repos_data max_repos) - 1)
      with (zlen (select_top_repos repos_data max_repos)) by lia.
    change ((1 - 1) / 10) with 0. lia.
  - exact (contribution_loop_never_sleeps _ _ _ _ _ H).
Qed.

Lemma run_fetches_each_selected_repository_once_witness :
  (exists data trace,
      collect_contributions sample_api eleven_repos 20 30 "2024-03-10" = ok (data, trace)
      /\ zlen (readings trace) = zlen (select_top_repos eleven_repos 30) / 10).
Proof.
  do 2 eexists. split; [reflexivity|].
  eapply (@run_fetches_each_selected_repository_once sample_api eleven_repos 20 30
            "2024-03-10").
  reflexivity.
Defined.

(** X8: the quota query stands outside the [try]: when ten repositories
    or more are selected and the query made after the tenth raises, the
    run ends in that exception and no contributor data is written, the
    entries collected so far included. *)
Theorem failed_quota_query_loses_the_run (api : GitHubApi)
    (repos_data : list RepositoryRecord) (max_contributors max_repos : Z) (date : string)
    (e : exn) :
  10 <= zlen (select_top_repos repos_data max_repos) ->
  rate_limit_after api 10 = raise e ->
  collect_contributions api repos_data max_contributors max_repos date = raise e.
Proof.
  intros Hn He. unfold collect_contributions.
  apply contribution_loop_aborts; [exact He|lia|lia].
Qed.

Lemma failed_quota_query_loses_the_run_witness :
  10 <= zlen (select_top_repos eleven_repos 30)
  /\ rate_limit_after quota_down_api 10 = raise (GithubException 403)
  /\ collect_contributions quota_down_api eleven_repos 20 30 "2024-03-10"
     = raise (GithubException 403).
Proof.
  split; [vm_compute; discriminate|]. split; [reflexivity|].
  apply (@failed_quota_query_loses_the_run quota_down_api eleven_repos 20 30 "2024-03-10"
           (GithubException 403)).
  - vm_compute. discriminate.
  - reflexivity.
Defined.

(** ** Summary aggregator *)

Lemma generate_summary_report_all_fields (fs : FileSystem) (now repo_file : string)
    (contrib_file : option string) (r : RepositoryRecord) (rest : list RepositoryRecord) :
  repo_snapshots fs repo_file = Some (r :: rest) ->
  exists s,
    generate_summary_report fs now repo_file contrib_file = ok s
    /\ total_repositories s = zlen (r :: rest)
    /\ total_forks s = int64_sum (map forks (r :: rest))
    /\ total_open_issues s = int64_sum (map open_issues (r :: rest))
    /\ organization_breakdown s = org_stats (r :: rest)
    /\ organizations s = sorted_strings (unique (map organization (r :: rest)))
    /\ total_organizations s
       = nunique (map (fun x => Some (organization x)) (r :: rest))
    /\ top_starred_repositories s = top_starred (r :: rest)
    /\ top_forked_repositories s = top_forked (r :: rest)
    /\ top_languages s = language_counts (r :: rest)
    /\ total_languages s = nunique (map language (r :: rest))
    /\ repositories_with_language s = notna_sum (map language (r :: rest))
    /\ repositories_with_license s = notna_sum (map license (r :: rest))
    /\ repositories_without_license s = isna_sum (map license (r :: rest))
    /\ largest_repo s = full_name (idxmax_size r rest).
Proof.
  intro H. unfold generate_summary_report. rewrite H.
  destruct (load_contribution_analysis_ok fs contrib_file) as [a ->].
  eexists. split; [reflexivity|]. simpl. repeat split.
Qed.

Lemma org_stats_column (w : RepositoryRecord -> Z) (col : OrgStats -> Z)
    (repos : list RepositoryRecord) :
  (forall g, col (agg_group g) = zsum (map w g)) ->
  map (fun kv => col (snd kv)) (org_stats repos)
  = map (group_sum organization w repos)
        (sorted_strings (unique (map organization repos))).
Proof.
  intro H. unfold org_stats, groupby_organization. rewrite !map_map.
  apply map_ext. intro o. simpl. apply H.
Qed.

(** X10: the organization breakdown partitions every additive column.
    The repository counts of its rows add up to [total_repositories].
    The fork sums and the sums of open issues are [int64] sums, as the
    totals are: on [int64] columns the rows add up to [total_forks] and
    to [total_open_issues] modulo [2^64], and exactly, to the sum of the
    column, when the values of the column are not negative and add up to
    less than [2^63]. *)
Theorem breakdown_adds_up_in_every_column (fs : FileSystem) (now repo_file : string)
    (contrib_file : option string) (r : RepositoryRecord) (rest : list RepositoryRecord) :
  repo_snapshots fs repo_file = Some (r :: rest) ->
  exists s,
    generate_summary_report fs now repo_file contrib_file = ok s
    /\ zsum (map (fun kv => name_count (snd kv)) (organization_breakdown s))
       = total_repositories s
    /\ ((forall x, In x (r :: rest) -> int64 (forks x)) ->
        wrap64 (zsum (map (fun kv => forks_sum (snd kv)) (organization_breakdown s)))
        = total_forks s)
    /\ ((forall x, In x (r :: rest) -> int64 (open_issues x)) ->
        wrap64 (zsum (map (fun kv => open_issues_sum (snd kv)) (organization_breakdown s)))
        = total_open_issues s)
    /\ ((forall x, In x (r :: rest) -> 0 <= forks x) ->
        zsum (map forks (r :: rest)) < 2 ^ 63 ->
        zsum (map (fun kv => forks_sum (snd kv)) (organization_breakdown s)) = total_forks s
        /\ total_forks s = zsum (map forks (r :: rest)))
    /\ ((forall x, In x (r :: rest) -> 0 <= open_issues x) ->
        zsum (map open_issues (r :: rest)) < 2 ^ 63 ->
        zsum (map (fun kv => open_issues_sum (snd kv)) (organization_breakdown s))
        = total_open_issues s
        /\ total_open_issues s = zsum (map open_issues (r :: rest))).
Proof.
  intro H.
  destruct (@generate_summary_report_all_fields fs now repo_file contrib_file r rest H)
    as (s & Hs & Hn & Hf & Hi & Ho & _).
  exists s. split; [exact Hs|]. rewrite Ho, Hn, Hf, Hi.
  destruct (breakdown_int64_column forks forks_sum (r :: rest) (fun g => eq_refl))
    as [Fmod Fexact].
  destruct (breakdown_int64_column open_issues open_issues_sum (r :: rest)
              (fun g => eq_refl)) as [Imod Iexact].
  split; [|split; [intros _; exact Fmod|split; [intros _; exact Imod|split]]].
  - rewrite (org_stats_column (fun _ => 1) name_count)
      by (intro g; simpl; now rewrite zsum_ones).
    rewrite grouped_sums_total;
      [apply zsum_ones | apply org_keys_nodup | intros a Ha; now apply org_keys_cover].
  - intros Hpos Hlt. destruct (Fexact Hpos Hlt) as [E1 E2]. rewrite E2. auto.
  - intros Hpos Hlt. destruct (Iexact Hpos Hlt) as [E1 E2]. rewrite E2. auto.
Qed.

Lemma breakdown_adds_up_in_every_column_witness :
  repo_snapshots sample_fs "repos_raw_2024-03-10.json" = Some [repo_A; repo_B; repo_C]
  /\ exists s,
       generate_summary_report sample_fs "2024-03-10T06:00:00"
         "repos_raw_2024-03-10.json" None = ok s
       /\ zsum (map (fun kv => name_count (snd kv)) (organization_breakdown s))
          = total_repositories s
       /\ zsum (map (fun kv => forks_sum (snd kv)) (organization_breakdown s))
          = total_forks s
       /\ total_forks s = 35.
Proof.
  split; [reflexivity|].
  destruct (@breakdown_adds_up_in_every_column sample_fs "2024-03-10T06:00:00"
              "repos_raw_2024-03-10.json" None repo_A [repo_B; repo_C] eq_refl)
    as (s & Hs & H1 & _ & _ & Hforks & _).
  exists s. split; [exact Hs|]. split; [exact H1|].
  destruct Hforks as [E1 E2].
  - intros x [<-|[<-|[<-|[]]]]; vm_compute; discriminate.
  - vm_compute. reflexivity.
  - split; [exact E1|]. rewrite E2. reflexivity.
Defined.

Lemma zmax_list_spec (l : list Z) :
  forall x, In (zmax_list x l) (x :: l) /\ forall y, In y (x :: l) -> y <= zmax_list x l.
Proof.
  unfold zmax_list. induction l as [|a l IH]; intro x; simpl.
  - split; [now left|]. intros y [<-|[]]. lia.
  - destruct (IH (Z.max x a)) as [Hin Hle]. split.
    + destruct Hin as [E|Hin]; [|now right; right].
      rewrite <- E. destruct (Z.max_spec x a) as [[_ ->]|[_ ->]]; auto.
    + intros y [<-|[<-|Hy]].
      * pose proof (Hle (Z.max x a) (or_introl eq_refl)). lia.
      * pose proof (Hle (Z.max x a) (or_introl eq_refl)). lia.
      * apply Hle. now right.
Qed.

Lemma column_max_spec (w : RepositoryRecord -> Z) (g : list RepositoryRecord) :
  g <> [] ->
  let m := match map w g with [] => 0 | x :: l => zmax_list x l end in
  (exists x, In x g /\ w x = m) /\ forall y, In y g -> w y <= m.
Proof.
  destruct g as [|a g]; [congruence|]. intros _. simpl.
  destruct (zmax_list_spec (map w g) (w a)) as [Hin Hle]. split.
  - change (w a :: map w g) with (map w (a :: g)) in Hin.
    apply in_map_iff in Hin. destruct Hin as (x & E & Hx). eauto.
  - intros y Hy. apply Hle. change (w a :: map w g) with (map w (a :: g)).
    now apply in_map.
Qed.

(** X11: in every row of the organization breakdown the [max] of stars
    and of forks is attained by a repository of that organization and is
    not exceeded by any, and the row stands for at least one repository. *)
Theorem breakdown_maxima_are_attained (fs : FileSystem) (now repo_file : string)
    (contrib_file : option string) (r : RepositoryRecord) (rest : list RepositoryRecord) :
  repo_snapshots fs repo_file = Some (r :: rest) ->
  exists s,
    generate_summary_report fs now repo_file contrib_file = ok s
    /\ forall o st, In (o, st) (organization_breakdown s) ->
         1 <= name_count st
         /\ (exists x, In x (r :: rest) /\ organization x = o /\ stars x = stars_max st)
         /\ (exists x, In x (r :: rest) /\ organization x = o /\ forks x = forks_max st)
         /\ forall y, In y (r :: rest) -> organization y = o ->
                      stars y <= stars_max st /\ forks y <= forks_max st.
Proof.
  intro H.
  destruct (@generate_summary_report_all_fields fs now repo_file contrib_file r rest H)
    as (s & Hs & _ & _ & _ & Ho & _).
  exists s. split; [exact Hs|]. rewrite Ho. intros o st Hin.
  unfold org_stats, groupby_organization in Hin. rewrite map_map in Hin.
  apply in_map_iff in Hin. destruct Hin as (k & E & Hk).
  pose proof (f_equal fst E) as E1. pose proof (f_equal snd E) as E2.
  cbn [fst snd] in E1, E2. subst o st. clear E.
  apply stable_sort_In, In_unique, in_map_iff in Hk. destruct Hk as (x0 & Ex & Hx0).
  remember (filter (fun x => String.eqb (organization x) k) (r :: rest)) as g eqn:Eg.
  assert (G : In x0 g).
  { rewrite Eg. apply filter_In. split; [exact Hx0|]. rewrite Ex. apply String.eqb_refl. }
  assert (N : g <> []) by (intro E; rewrite E in G; contradiction).
  assert (M : forall x, In x g <-> In x (r :: rest) /\ organization x = k).
  { intros x. rewrite Eg, filter_In, String.eqb_eq. reflexivity. }
  clear Eg.
  destruct (column_max_spec stars N) as [(xs & Hxs & Es) Ls].
  destruct (column_max_spec forks N) as [(xf & Hxf & Ef) Lf].
  unfold agg_group. cbn [name_count stars_max forks_max].
  split; [|split; [|split]].
  - destruct g as [|a g']; [congruence|]. rewrite zlen_cons.
    pose proof (zlen_nonneg g'). lia.
  - exists xs. destruct (proj1 (M xs) Hxs). auto.
  - exists xf. destruct (proj1 (M xf) Hxf). auto.
  - intros y Hy Ey.
    assert (In y g) by (apply M; auto).
    split; [now apply Ls | now apply Lf].
Qed.

Lemma breakdown_maxima_are_attained_witness :
  repo_snapshots sample_fs "repos_raw_2024-03-10.json" = Some [repo_A; repo_B; repo_C]
  /\ exists s,
       generate_summary_report sample_fs "2024-03-10T06:00:00"
         "repos_raw_2024-03-10.json" None = ok s
       /\ forall o st, In (o, st) (organization_breakdown s) ->
            1 <= name_count st
            /\ (exists x, In x [repo_A; repo_B; repo_C] /\ organization x = o
                          /\ stars x = stars_max st)
            /\ (exists x, In x [repo_A; repo_B; repo_C] /\ organization x = o
                          /\ forks x = forks_max st)
            /\ forall y, In y [repo_A; repo_B; repo_C] -> organization y = o ->
                         stars y <= stars_max st /\ forks y <= forks_max st.
Proof.
  split; [reflexivity|].
  apply (@breakdown_maxima_are_attained sample_fs "2024-03-10T06:00:00"
           "repos_raw_2024-03-10.json" None repo_A [repo_B; repo_C]).
  reflexivity.
Defined.

Lemma nlargest_takes_the_largest (A : Type) (key : A -> Z) (n : nat) (l : list A) :
  zlen (nlargest n key l) = Z.min (Z.of_nat n) (zlen l)
  /\ exists rest,
       Permutation (nlargest n key l ++ rest) l
       /\ forall a b, In a (nlargest n key l) -> In b rest -> key b <= key a.
Proof.
  unfold nlargest. split.
  - unfold zlen, sorted_desc. rewrite length_firstn, stable_sort_length. lia.
  - destruct (ranked_prefix_spec key n l) as (rest & P & _ & D). eauto.
Qed.

(** X12: each ranking list has 25 rows, or as many as the snapshot has
    records when these are fewer, and holds the records of largest key:
    no record left out of the list by stars has more stars than a record
    in it, and likewise for forks. *)
Theorem ranking_lists_hold_the_largest (fs : FileSystem) (now repo_file : string)
    (contrib_file : option string) (r : RepositoryRecord) (rest : list RepositoryRecord) :
  repo_snapshots fs repo_file = Some (r :: rest) ->
  exists s,
    generate_summary_report fs now repo_file contrib_file = ok s
    /\ zlen (top_starred_repositories s) = Z.min 25 (zlen (r :: rest))
    /\ zlen (top_forked_repositories s) = Z.min 25 (zlen (r :: rest))
    /\ (exists picked left_out,
          Permutation (picked ++ left_out) (r :: rest)
          /\ top_starred_repositories s = map ranking_row picked
          /\ forall a b, In a picked -> In b left_out -> stars b <= stars a)
    /\ (exists picked left_out,
          Permutation (picked ++ left_out) (r :: rest)
          /\ top_forked_repositories s = map ranking_row picked
          /\ forall a b, In a picked -> In b left_out -> forks b <= forks a).
Proof.
  intro H.
  destruct (@generate_summary_report_all_fields fs now repo_file contrib_file r rest H)
    as (s & Hs & _ & _ & _ & _ & _ & _ & Hts & Htf & _).
  exists s. split; [exact Hs|]. rewrite Hts, Htf. unfold top_starred, top_forked.
  destruct (nlargest_takes_the_largest stars 25 (r :: rest)) as (Ls & rs & Ps & Ds).
  destruct (nlargest_takes_the_largest forks 25 (r :: rest)) as (Lf & rf & Pf & Df).
  split; [|split; [|split]].
  - unfold zlen in *. rewrite length_map. exact Ls.
  - unfold zlen in *. rewrite length_map. exact Lf.
  - exists (nlargest 25 stars (r :: rest)), rs. auto.
  - exists (nlargest 25 forks (r :: rest)), rf. auto.
Qed.

Lemma ranking_lists_hold_the_largest_witness :
  repo_snapshots sample_fs "repos_raw_2024-03-10.json" = Some [repo_A; repo_B; repo_C]
  /\ exists s,
       generate_summary_report sample_fs "2024-03-10T06:00:00"
         "repos_raw_2024-03-10.json" None = ok s
       /\ zlen (top_starred_repositories s) = Z.min 25 (zlen [repo_A; repo_B; repo_C]).
Proof.
  split; [reflexivity|].
  destruct (@ranking_lists_hold_the_largest sample_fs "2024-03-10T06:00:00"
              "repos_raw_2024-03-10.json" None repo_A [repo_B; repo_C] eq_refl)
    as (s & Hs & Hn & _).
  exists s. split; [exact Hs | exact Hn].
Defined.

Section HistogramOrder.
Variable f : RepositoryRecord -> option string.
Variable repos : list RepositoryRecord.

(** The rows of a histogram before the cut: one for each value present,
    by falling count, values of the same count in order of first
    appearance. *)
Lemma value_counts_order :
  Permutation (map fst (value_counts (map f repos))) (unique (dropna (map f repos)))
  /\ StronglySorted (desc snd) (value_counts (map f repos))
  /\ forall c,
       map fst (filter (fun kc => snd kc =? c) (value_counts (map f repos)))
       = filter (fun k => count_where f (Some k) repos =? c)
                (unique (dropna (map f repos))).
Proof.
  unfold value_counts. split; [|split].
  - eapply perm_trans; [apply Permutation_map, sorted_desc_perm|].
    rewrite map_map. simpl. rewrite map_id. apply Permutation_refl.
  - apply sorted_desc_sorted.
  - intro c. rewrite sorted_desc_ties, filter_map_comm, map_map. simpl.
    rewrite map_id. apply filter_ext. intro k. now rewrite count_eq_dropna.
Qed.

Lemma histogram_cut (n : nat) :
  zlen (firstn n (value_counts (map f repos))) <= Z.of_nat n
  /\ StronglySorted (desc snd) (firstn n (value_counts (map f repos)))
  /\ zlen (value_counts (map f repos)) = nunique (map f repos).
Proof.
  split; [|split].
  - unfold zlen. rewrite length_firstn. lia.
  - apply StronglySorted_firstn, value_counts_order.
  - unfold zlen, nunique, value_counts, sorted_desc, zlen.
    now rewrite stable_sort_length, length_map.
Qed.
End HistogramOrder.



Lemma zlen_unique_le (l : list string) : zlen (unique l) <= zlen l.
Proof.
  unfold zlen. apply inj_le, NoDup_incl_length; [apply NoDup_unique|].
  intros x Hx. now apply In_unique.
Qed.

(** X14: the counters of the report are consistent: licensed and
    unlicensed repositories add up to all repositories, the repositories
    with a language and those a null language leaves out add up to all
    repositories, and there are no more distinct languages than
    repositories with a language. *)
Theorem presence_counters_add_up (fs : FileSystem) (now repo_file : string)
    (contrib_file : option string) (r : RepositoryRecord) (rest : list RepositoryRecord) :
  repo_snapshots fs repo_file = Some (r :: rest) ->
  exists s,
    generate_summary_report fs now repo_file contrib_file = ok s
    /\ repositories_with_license s + repositories_without_license s = total_repositories s
    /\ repositories_with_language s + count_where language None (r :: rest)
       = total_repositories s
    /\ total_languages s <= repositories_with_language s.
Proof.
  intro H.
  destruct (@generate_summary_report_all_fields fs now repo_file contrib_file r rest H)
    as (s & Hs & Hn & _ & _ & _ & _ & _ & _ & _ & _ & Htl & Hwl & Hw & Hwo & _).
  exists s. split; [exact Hs|]. rewrite Hn, Htl, Hwl, Hw, Hwo.
  rewrite !notna_sum_dropna, isna_sum_count. unfold nunique.
  split; [apply null_and_present|]. split; [apply null_and_present|].
  apply zlen_unique_le.
Qed.

Lemma presence_counters_add_up_witness :
  repo_snapshots sample_fs "repos_raw_2024-03-10.json" = Some [repo_A; repo_B; repo_C]
  /\ exists s,
       generate_summary_report sample_fs "2024-03-10T06:00:00"
         "repos_raw_2024-03-10.json" None = ok s
       /\ repositories_with_license s + repositories_without_license s
          = total_repositories s.
Proof.
  split; [reflexivity|].
  destruct (@presence_counters_add_up sample_fs "2024-03-10T06:00:00"
              "repos_raw_2024-03-10.json" None repo_A [repo_B; repo_C] eq_refl)
    as (s & Hs & Hn & _).
  exists s. split; [exact Hs | exact Hn].
Defined.

(** The scan for the largest size keeps the first record that no earlier
    record equals or exceeds and no later record exceeds. *)
Lemma idxmax_size_scan (rest : list RepositoryRecord) :
  forall before best mid,
    (forall y, In y before -> size y < size best) ->
    (forall y, In y mid -> size y <= size best) ->
    exists before' after',
      before ++ best :: mid ++ rest = before' ++ idxmax_size best rest :: after'
      /\ (forall y, In y before' -> size y < size (idxmax_size best rest))
      /\ (forall y, In y after' -> size y <= size (idxmax_size best rest)).
Proof.
  unfold idxmax_size. induction rest as [|x rest IH]; intros before best mid Hb Hm.
  - exists before, mid. rewrite app_nil_r. auto.
  - cbn [fold_left]. destruct (Z.ltb_spec (size best) (size x)) as [Hlt|Hge].
    + destruct (IH (before ++ best :: mid) x []) as (b' & a' & E & P1 & P2).
      * intros y Hy. apply in_app_or in Hy. destruct Hy as [Hy|[<-|Hy]].
        -- specialize (Hb y Hy). lia.
        -- exact Hlt.
        -- specialize (Hm y Hy). lia.
      * intros y [].
      * exists b', a'. split; [|auto]. rewrite <- E. cbn [app].
        now rewrite <- !app_assoc.
    + destruct (IH before best (mid ++ [x])) as (b' & a' & E & P1 & P2).
      * exact Hb.
      * intros y Hy. apply in_app_or in Hy. destruct Hy as [Hy|[<-|[]]]; auto.
      * exists b', a'. split; [|auto]. rewrite <- E. now rewrite <- !app_assoc.
Qed.

(** X15: [largest_repo] names a record of largest size, and of several
    of that size the first in the snapshot. *)
Theorem largest_repo_is_the_first_of_largest_size (fs : FileSystem) (now repo_file : string)
    (contrib_file : option string) (r : RepositoryRecord) (rest : list RepositoryRecord) :
  repo_snapshots fs repo_file = Some (r :: rest) ->
  exists s x before after,
    generate_summary_report fs now repo_file contrib_file = ok s
    /\ largest_repo s = full_name x
    /\ r :: rest = before ++ x :: after
    /\ (forall y, In y before -> size y < size x)
    /\ (forall y, In y after -> size y <= size x).
Proof.
  intro H.
  destruct (@generate_summary_report_all_fields fs now repo_file contrib_file r rest H)
    as (s & Hs & _ & _ & _ & _ & _ & _ & _ & _ & _ & _ & _ & _ & _ & Hl).
  destruct (idxmax_size_scan rest [] r []) as (b & a & E & P1 & P2);
    try (intros y []).
  exists s, (idxmax_size r rest), b, a. auto.
Qed.

Lemma largest_repo_is_the_first_of_largest_size_witness :
  repo_snapshots sample_fs "repos_raw_2024-03-10.json" = Some [repo_A; repo_B; repo_C]
  /\ exists s x before after,
       generate_summary_report sample_fs "2024-03-10T06:00:00"
         "repos_raw_2024-03-10.json" None = ok s
       /\ largest_repo s = full_name x
       /\ [repo_A; repo_B; repo_C] = before ++ x :: after
       /\ (forall y, In y before -> size y < size x)
       /\ (forall y, In y after -> size y <= size x).
Proof.
  split; [reflexivity|].
  apply (@largest_repo_is_the_first_of_largest_size sample_fs "2024-03-10T06:00:00"
           "repos_raw_2024-03-10.json" None repo_A [repo_B; repo_C]).
  reflexivity.
Defined.

Lemma ltb_lt (a b : string) :
  String.ltb a b = true <-> OrderedTypeEx.String_as_OT.lt a b.
Proof.
  rewrite <- OrderedTypeEx.String_as_OT.cmp_lt. unfold String.ltb, OrderedTypeEx.String_as_OT.cmp.
  destruct (String.compare a b); split; congruence.
Qed.

Lemma asc_of_ltb (a b : string) : String.ltb a b = true -> asc a b.
Proof.
  unfold asc. intro H. destruct (String.ltb b a) eqn:E; [|reflexivity].
  apply ltb_lt in H, E.
  exfalso. apply (@OrderedTypeEx.String_as_OT.lt_not_eq a a
                    (@OrderedTypeEx.String_as_OT.lt_trans a b a H E)). reflexivity.
Qed.

Lemma asc_trans (a b c : string) : asc a b -> asc b c -> asc a c.
Proof.
  unfold asc. intros H1 H2. destruct (String.ltb c a) eqn:E; [|reflexivity].
  exfalso. apply ltb_lt in E.
  destruct (String.compare b a) eqn:C.
  - apply OrderedTypeEx.String_as_OT.cmp_eq in C. subst b.
    apply ltb_lt in E. congruence.
  - unfold String.ltb in H1. rewrite C in H1. discriminate.
  - assert (L : OrderedTypeEx.String_as_OT.lt a b).
    { apply OrderedTypeEx.String_as_OT.cmp_lt.
      unfold OrderedTypeEx.String_as_OT.cmp.
      rewrite String.compare_antisym, C. reflexivity. }
    pose proof (@OrderedTypeEx.String_as_OT.lt_trans c a b E L) as T.
    apply ltb_lt in T. congruence.
Qed.

Lemma sorted_strings_sorted (l : list string) : StronglySorted asc (sorted_strings l).
Proof.
  unfold sorted_strings. induction l as [|x l IH]; simpl; [constructor|].
  induction IH as [|y t Hs IHt Hy]; simpl.
  - repeat constructor.
  - destruct (String.ltb y x) eqn:E.
    + constructor; [exact IHt|].
      rewrite Forall_forall in *. intros z Hz.
      apply (Permutation_in _ (insert_perm _ x t)) in Hz.
      destruct Hz as [<-|Hz]; [now apply asc_of_ltb | auto].
    + constructor; [constructor; assumption|].
      constructor; [exact E|].
      rewrite Forall_forall in *. intros z Hz. apply (asc_trans (b := y)); [exact E|auto].
Qed.

Lemma dropna_map_Some (A B : Type) (f : A -> B) (l : list A) :
  dropna (map (fun x => Some (f x)) l) = map f l.
Proof.
  induction l as [|x l IH]; [reflexivity|]. cbn [map]. now rewrite dropna_cons, IH.
Qed.

(** X16: [organizations] lists each organization of the snapshot once, in
    rising order; it is the column of keys of the organization breakdown,
    and [total_organizations] is its length. *)
Theorem organizations_are_the_sorted_keys (fs : FileSystem) (now repo_file : string)
    (contrib_file : option string) (r : RepositoryRecord) (rest : list RepositoryRecord) :
  repo_snapshots fs repo_file = Some (r :: rest) ->
  exists s,
    generate_summary_report fs now repo_file contrib_file = ok s
    /\ organizations s = map fst (organization_breakdown s)
    /\ NoDup (organizations s)
    /\ StronglySorted asc (organizations s)
    /\ total_organizations s = zlen (organizations s)
    /\ forall o, In o (organizations s) <-> exists x, In x (r :: rest) /\ organization x = o.
Proof.
  intro H.
  destruct (@generate_summary_report_all_fields fs now repo_file contrib_file r rest H)
    as (s & Hs & _ & _ & _ & Hb & Ho & Hn & _).
  exists s. split; [exact Hs|]. rewrite Ho, Hb, Hn, org_stats_keys.
  split; [reflexivity|]. split; [apply org_keys_nodup|].
  split; [apply sorted_strings_sorted|]. split.
  - unfold nunique. rewrite dropna_map_Some. unfold zlen, sorted_strings.
    now rewrite stable_sort_length.
  - intro o. unfold sorted_strings. rewrite stable_sort_In, In_unique, in_map_iff.
    split; intros (x & A & B); exists x; auto.
Qed.

Lemma organizations_are_the_sorted_keys_witness :
  repo_snapshots sample_fs "repos_raw_2024-03-10.json" = Some [repo_A; repo_B; repo_C]
  /\ exists s,
       generate_summary_report sample_fs "2024-03-10T06:00:00"
         "repos_raw_2024-03-10.json" None = ok s
       /\ organizations s = map fst (organization_breakdown s).
Proof.
  split; [reflexivity|].
  destruct (@organizations_are_the_sorted_keys sample_fs "2024-03-10T06:00:00"
              "repos_raw_2024-03-10.json" None repo_A [repo_B; repo_C] eq_refl)
    as (s & Hs & Hn & _).
  exists s. split; [exact Hs | exact Hn].
Defined.

(** ** Contributor leaderboard, without assumptions on the snapshot *)

Lemma activity_table_keys (records : list ContributorRecord) :
  map fst (activity_table records) = unique (map login records).
Proof. unfold activity_table. rewrite map_map. simpl. apply map_id. Qed.

Lemma activity_table_sums (records : list ContributorRecord) :
  zsum (map (fun kv => total_contributions (snd kv)) (activity_table records))
  = zsum (map contributions records)
  /\ zsum (map (fun kv => repos_contributed (snd kv)) (activity_table records))
     = zlen records.
Proof.
  unfold activity_table. rewrite !map_map. simpl. split.
  - change (fun x : string => zsum (map contributions (filter (has_login x) records)))
      with (group_sum login contributions records).
    apply grouped_sums_total; [apply NoDup_unique|].
    intros a Ha. now apply In_unique, in_map.
  - rewrite <- (zsum_ones records).
    rewrite (map_ext _ (group_sum login (fun _ => 1) records)).
    + apply grouped_sums_total; [apply NoDup_unique|].
      intros a Ha. now apply In_unique, in_map.
    + intro l. unfold group_sum. now rewrite zsum_ones.
Qed.

(** X17: the table from which the leaderboard is cut loses nothing and
    counts nothing twice: it has one row per login, the contributions of
    its rows add up to the contributions of all records of the snapshot,
    and the repository counts of its rows add up to the number of
    records.  With 25 logins or fewer the same holds of the leaderboard
    itself. *)
Theorem leaderboard_conserves_contributions (contrib_data : list RepositoryContribution) :
  NoDup (map fst (contributor_activity contrib_data))
  /\ zsum (map (fun kv => total_contributions (snd kv)) (contributor_activity contrib_data))
     = zsum (map contributions (all_contributors contrib_data))
  /\ zsum (map (fun kv => repos_contributed (snd kv)) (contributor_activity contrib_data))
     = zlen (all_contributors contrib_data)
  /\ (zlen (logins_of contrib_data) <= 25 ->
      zsum (map tc_total_contributions (top_contributors_of contrib_data))
      = zsum (map contributions (all_contributors contrib_data))).
Proof.
  rewrite top_contributors_of_table, contributor_activity_table.
  destruct (activity_table_sums (all_contributors contrib_data)) as [S1 S2].
  split; [rewrite activity_table_keys; apply NoDup_unique|].
  split; [exact S1|]. split; [exact S2|].
  intro H. rewrite firstn_all2.
  - rewrite map_map, <- S1. apply zsum_perm, Permutation_map, sorted_desc_perm.
  - rewrite length_map. unfold sorted_desc. rewrite stable_sort_length.
    unfold activity_table. rewrite length_map. unfold logins_of, zlen in H. lia.
Qed.

(** X18: on any snapshot, well formed or not, a row of the leaderboard
    counts in [repos_contributed] the records that carry its login, so a
    login listed twice for one repository counts twice; the count is at
    least one, and the profile links of the row are those of the first
    record of the login in the snapshot. *)
Theorem leaderboard_counts_records (contrib_data : list RepositoryContribution)
    (row : TopContributor) :
  In row (top_contributors_of contrib_data) ->
  tc_total_contributions row = contributions_of (tc_login row) contrib_data
  /\ tc_repos_contributed row = occurrences_of (tc_login row) contrib_data
  /\ 1 <= tc_repos_contributed row
  /\ exists c before after,
       all_contributors contrib_data = before ++ c :: after
       /\ login c = tc_login row
       /\ (forall x, In x before -> login x <> tc_login row)
       /\ tc_avatar_url row = avatar_url c
       /\ tc_html_url row = html_url c.
Proof.
  rewrite top_contributors_of_table. intro Hrow.
  apply In_firstn, in_map_iff in Hrow. destruct Hrow as ([l a] & <- & Hin).
  apply sorted_desc_In in Hin. unfold activity_table in Hin. apply in_map_iff in Hin.
  destruct Hin as (l' & E & Hl).
  pose proof (f_equal fst E) as E1. pose proof (f_equal snd E) as E2.
  cbn [fst snd] in E1, E2. subst l' a. clear E.
  apply In_unique, in_map_iff in Hl. destruct Hl as (c0 & E0 & Hc0).
  unfold contributor_row, activity_of. cbn [fst snd tc_login tc_total_contributions
    tc_repos_contributed tc_avatar_url tc_html_url total_contributions repos_contributed
    act_avatar_url act_html_url].
  split; [reflexivity|]. split; [reflexivity|].
  assert (F : exists c before after,
             all_contributors contrib_data = before ++ c :: after
             /\ login c = l
             /\ (forall x, In x before -> login x <> l)
             /\ find (has_login l) (all_contributors contrib_data) = Some c).
  { clear -E0 Hc0. induction (all_contributors contrib_data) as [|x t IH]; [contradiction|].
    destruct (String.eqb_spec (login x) l) as [Ex|Nx].
    - exists x, [], t. repeat split; auto. simpl. unfold has_login. rewrite Ex.
      now rewrite String.eqb_refl.
    - destruct Hc0 as [->|Hc0]; [contradiction|].
      destruct (IH Hc0) as (c & b & a & -> & Hc & Hb & Hf).
      exists c, (x :: b), a. repeat split; auto.
      + intros y [<-|Hy]; auto.
      + simpl. unfold has_login at 1. destruct (String.eqb_spec (login x) l); [contradiction|].
        exact Hf. }
  destruct F as (c & before & after & Ea & Hc & Hb & Hf). split.
  - rewrite Ea, filter_app, zlen_app. cbn [filter]. unfold has_login at 2.
    rewrite Hc, String.eqb_refl, zlen_cons.
    pose proof (zlen_nonneg (filter (has_login l) before)).
    pose proof (zlen_nonneg (filter (has_login l) after)). lia.
  - exists c, before, after. rewrite Hf. auto.
Qed.

Lemma leaderboard_counts_records_witness :
  In (contributor_row ("alice", activity_of "alice" (all_contributors sample_contributions)))
     (top_contributors_of sample_contributions)
  /\ tc_repos_contributed
       (contributor_row ("alice", activity_of "alice" (all_contributors sample_contributions)))
     = occurrences_of "alice" sample_contributions.
Proof.
  assert (H : In (contributor_row
                    ("alice", activity_of "alice" (all_contributors sample_contributions)))
                 (top_contributors_of sample_contributions)).
  { vm_compute. left. reflexivity. }
  split; [exact H|].
  apply (@leaderboard_counts_records sample_contributions _ H).
Defined.

(** ** Ranking twice *)

Lemma sorted_desc_fixed (A : Type) (key : A -> Z) (l : list A) :
  StronglySorted (desc key) l -> sorted_desc key l = l.
Proof.
  unfold sorted_desc. induction 1 as [|x l Hs IH Hx]; [reflexivity|].
  simpl. rewrite IH. destruct l as [|y l]; [reflexivity|]. simpl.
  rewrite Forall_forall in Hx. specialize (Hx y (or_introl eq_refl)). unfold desc in Hx.
  destruct (Z.ltb_spec (key x) (key y)); [lia|reflexivity].
Qed.

Lemma sorted_desc_idempotent (A : Type) (key : A -> Z) (l : list A) :
  sorted_desc key (sorted_desc key l) = sorted_desc key l.
Proof. apply sorted_desc_fixed, sorted_desc_sorted. Qed.

(** X19: ranking is idempotent: the ranking lists of a snapshot that is
    already ranked are the ranking lists of the snapshot, and the
    contributor run, given its own selection as input with the same cap,
    selects the same repositories in the same order. *)
Theorem ranking_twice_changes_nothing (repos_data : list RepositoryRecord) (max_repos : Z) :
  0 <= max_repos ->
  top_starred (sorted_desc stars repos_data) = top_starred repos_data
  /\ top_forked (sorted_desc forks repos_data) = top_forked repos_data
  /\ select_top_repos (select_top_repos repos_data max_repos) max_repos
     = select_top_repos repos_data max_repos.
Proof.
  intro H. unfold top_starred, top_forked, nlargest. rewrite !sorted_desc_idempotent.
  split; [reflexivity|]. split; [reflexivity|].
  unfold select_top_repos, py_slice_to.
  destruct (Z.leb_spec 0 max_repos); [|lia].
  rewrite (sorted_desc_fixed (key := stars)).
  - rewrite firstn_firstn. f_equal. lia.
  - apply StronglySorted_firstn, sorted_desc_sorted.
Qed.

Lemma ranking_twice_changes_nothing_witness :
  0 <= 2
  /\ select_top_repos (select_top_repos [repo_A; repo_B; repo_C] 2) 2
     = select_top_repos [repo_A; repo_B; repo_C] 2.
Proof.
  split; [lia|].
  apply (@ranking_twice_changes_nothing [repo_A; repo_B; repo_C] 2). lia.
Defined.

(** ** Retention sweeper, further *)

Lemma filter_twice (A : Type) (p q : A -> bool) (l : list A) :
  (forall x, q x = true -> p x = true) ->
  filter q (filter p l) = filter q l.
Proof.
  intro H. rewrite filter_filter. apply filter_ext. intro x.
  destruct (q x) eqn:E; [now rewrite (H x E)|]. now rewrite andb_false_r.
Qed.



Lemma expiredb_later (d1 d2 : date) (f : pystr) :
  toordinal d1 <= toordinal d2 -> expiredb d1 f = true -> expiredb d2 f = true.
Proof.
  unfold expiredb, due, days_between. intros Hle H.
  apply andb_true_iff in H. destruct H as [-> H]. simpl.
  destruct (strptime_ymd (date_token f)) as [e|d]; [discriminate|].
  apply Z.ltb_lt in H. apply Z.ltb_lt. lia.
Qed.



(** ** The scheduler's contribution task *)

Lemma dag_collect_contribution_data_map (api : GitHubApi)
    (repos_data : list RepositoryRecord) (ds : string) :
  dag_collect_contribution_data api repos_data ds
  = map (fun repo => dag_repo_contributions api repo ds)
        (py_slice_to 50 (sorted_desc stars repos_data)).
Proof.
  unfold dag_collect_contribution_data. rewrite fold_left_append. simpl.
  induction (py_slice_to 50 (sorted_desc stars repos_data)) as [|x l IH];
    simpl; [reflexivity|]. now rewrite IH.
Qed.

(** X23: the scheduler's task writes one entry for each of the fifty
    repositories of most stars, in ranking order, also for a repository
    whose contributors cannot be fetched: the client answers a failure
    with the empty list, so that entry has no contributor and a total of
    zero.  In every entry the total is the length of the whole listing
    and the list is its first twenty. *)
Theorem task_writes_an_entry_for_every_repository (api : GitHubApi)
    (repos_data : list RepositoryRecord) (ds : string) :
  zlen (dag_collect_contribution_data api repos_data ds) = Z.min 50 (zlen repos_data)
  /\ map repo_full_name (dag_collect_contribution_data api repos_data ds)
     = map full_name (py_slice_to 50 (sorted_desc stars repos_data))
  /\ forall e, In e (dag_collect_contribution_data api repos_data ds) ->
       total_contributors e
       = zlen (get_repository_contributors api (repo_full_name e))
       /\ contributors e = firstn 20 (get_repository_contributors api (repo_full_name e))
       /\ zlen (contributors e) = Z.min 20 (total_contributors e)
       /\ ((exists x, get_repo api (repo_full_name e) = raise x)
           \/ (exists x, get_contributors api (repo_full_name e) = raise x) ->
           total_contributors e = 0 /\ contributors e = []).
Proof.
  rewrite dag_collect_contribution_data_map. split; [|split].
  - unfold zlen at 1. rewrite length_map.
    fold (zlen (py_slice_to 50 (sorted_desc stars repos_data))).
    rewrite length_py_slice_to. simpl. unfold zlen, sorted_desc.
    now rewrite stable_sort_length.
  - rewrite map_map. reflexivity.
  - intros e He. apply in_map_iff in He. destruct He as (repo & <- & _).
    unfold dag_repo_contributions. cbn [total_contributors contributors repo_full_name].
    split; [reflexivity|]. split; [reflexivity|]. split.
    + change (py_slice_to 20 (get_repository_contributors api (full_name repo)))
        with (firstn 20 (get_repository_contributors api (full_name repo))).
      unfold zlen. rewrite length_firstn. lia.
    + intro Hf. unfold get_repository_contributors.
      destruct Hf as [[x Hx]|[x Hx]]; rewrite Hx; simpl; [auto|].
      destruct (get_repo api (full_name repo)); simpl; auto.
Qed.

(** ** The scheduler's processor *)


